(** * YORO storage comparison: the two storage estimators of
      [storage_comparison.py], the report that [print_comparison] prints,
      and their properties.

    The script is pure arithmetic over Python numbers.  Python's [int] is an
    unbounded integer ([Z]); Python's [float] is an IEEE 754 binary64 value,
    which is the primitive [float], specified operation by operation by
    [SpecFloat] with [prec = 53] and [emax = 1024].  An operation that
    Python can refuse raises an exception; here it returns [Raise].  What
    the script prints is the list of its lines.

    The file has five parts: the script as it is written; the binary64
    arithmetic it runs on (every operation of the script is the rounding to
    nearest even of an exact integer counted in units of [2^-1074], which
    makes rounding monotone and doubling exact); the properties stated
    about the estimators; further properties of the estimators and of the
    report; and the three stated properties that rest on those: the
    maximum of the two phases, the exceptions with a valid chunk size, and
    the estimates of a video without frames. *)

From Stdlib Require Import ZArith Bool List String Ascii DecimalString Lia.
From Stdlib Require Import QArith Qround Qabs Floats.
Import ListNotations.

Set Warnings "-inexact-float".

Local Open Scope string_scope.
Local Open Scope Z_scope.

(** ** Python exceptions and the error monad *)

Inductive exn : Set :=
| ZeroDivisionError
| OverflowError
| ValueError.

Inductive result (A : Type) : Type :=
| Ok (a : A)
| Raise (e : exn).

Arguments Ok {A} a.
Arguments Raise {A} e.

Definition bind {A B : Type} (c : result A) (k : A -> result B) : result B :=
  match c with
  | Ok a => k a
  | Raise e => Raise e
  end.

Notation "x <- c ;; k" := (bind c (fun x => k))
  (at level 61, c at next level, right associativity).

Definition returns {A : Type} (c : result A) : Prop := exists a, c = Ok a.

Definition raises {A : Type} (c : result A) (e : exn) : Prop := c = Raise e.

(** ** Python numbers *)

(** [float(z)] for an [int]: the nearest binary64 value (ties to even), and
    [OverflowError] ("int too large to convert to float") when that value
    would be infinite. *)
Definition float_of_int (z : Z) : result float :=
  match binary_normalize prec emax z 0 false with
  | S754_infinity _ => Raise OverflowError
  | x => Ok (SF2Prim x)
  end.

(** [int(f)] for a [float]: truncation toward zero; [OverflowError] on an
    infinity and [ValueError] on a NaN. *)
Definition int_of_float (f : float) : result Z :=
  match Prim2SF f with
  | S754_zero _ => Ok 0
  | S754_finite s m e => Ok (cond_Zopp s (Z.shiftl (Zpos m) e))
  | S754_infinity _ => Raise OverflowError
  | S754_nan => Raise ValueError
  end.

(** The arguments [fps] and [duration_seconds] are "numbers": an [int] or a
    [float]. *)
Inductive num : Set :=
| PyInt (z : Z)
| PyFloat (f : float).

(** [a * b] on numbers: exact on two ints, otherwise the int operand is
    converted and the floats are multiplied. *)
Definition py_mul (a b : num) : result num :=
  match a, b with
  | PyInt x, PyInt y => Ok (PyInt (x * y))
  | PyInt x, PyFloat g => f <- float_of_int x ;; Ok (PyFloat (f * g)%float)
  | PyFloat f, PyInt y => g <- float_of_int y ;; Ok (PyFloat (f * g)%float)
  | PyFloat f, PyFloat g => Ok (PyFloat (f * g)%float)
  end.

(** [int(a)] on a number. *)
Definition py_int (a : num) : result Z :=
  match a with
  | PyInt z => Ok z
  | PyFloat f => int_of_float f
  end.

(** [z * f] with an int on the left, [f * z] and [f / z] with an int on the
    right, and [a // b] on two ints. *)
Definition int_mul_float (z : Z) (f : float) : result float :=
  g <- float_of_int z ;; Ok (g * f)%float.

Definition float_mul_int (f : float) (z : Z) : result float :=
  g <- float_of_int z ;; Ok (f * g)%float.

Definition float_div_int (f : float) (z : Z) : result float :=
  g <- float_of_int z ;;
  if (g =? 0)%float then Raise ZeroDivisionError else Ok (f / g)%float.

Definition int_floordiv (a b : Z) : result Z :=
  if b =? 0 then Raise ZeroDivisionError else Ok (a / b).

(** The builtin [max(a, b)] on two floats keeps [a] unless [b > a]. *)
Definition py_max (a b : float) : float :=
  if (a <? b)%float then b else a.

(** ** The estimators *)

Module Old.
Record estimate : Set := Build {
  total_frames : Z;
  frame_size_mb : float;
  extracted_frames_mb : float;
  sbs_frames_mb : float;
  total_peak_mb : float
}.
End Old.

Module Chunked.
Record estimate : Set := Build {
  total_frames : Z;
  total_chunks : Z;
  chunk_size : Z;
  frame_size_mb : float;
  peak_chunk_mb : float;
  max_chunk_videos_mb : float;
  total_peak_mb : float
}.
End Chunked.

(** [(width * height * 3 * 1.2) / (1024 * 1024)], the same expression in
    both estimators. *)
Definition frame_size (width height : Z) : result float :=
  bytes <- int_mul_float (width * height * 3) 1.2 ;;
  float_div_int bytes (1024 * 1024).

Definition estimate_storage_old_approach
    (width height : Z) (fps duration_seconds : num) : result Old.estimate :=
  product <- py_mul fps duration_seconds ;;
  total_frames <- py_int product ;;
  frame_size_mb <- frame_size width height ;;
  extracted_frames_mb <- float_mul_int frame_size_mb total_frames ;;
  doubled <- float_mul_int frame_size_mb 2 ;;
  sbs_frames_mb <- float_mul_int doubled total_frames ;;
  let total_peak_mb := (extracted_frames_mb + sbs_frames_mb)%float in
  Ok (Old.Build total_frames frame_size_mb extracted_frames_mb
        sbs_frames_mb total_peak_mb).

Definition estimate_storage_chunked_approach
    (width height : Z) (fps duration_seconds : num) (chunk_size : Z)
  : result Chunked.estimate :=
  product <- py_mul fps duration_seconds ;;
  total_frames <- py_int product ;;
  total_chunks <- int_floordiv (total_frames + chunk_size - 1) chunk_size ;;
  frame_size_mb <- frame_size width height ;;
  chunk_extracted_mb <- float_mul_int frame_size_mb chunk_size ;;
  doubled <- float_mul_int frame_size_mb 2 ;;
  chunk_sbs_mb <- float_mul_int doubled chunk_size ;;
  let chunk_video_mb := (chunk_sbs_mb * 0.1)%float in
  let peak_chunk_mb :=
    (chunk_extracted_mb + chunk_sbs_mb + chunk_video_mb)%float in
  max_chunk_videos_mb <- float_mul_int chunk_video_mb total_chunks ;;
  let final_video_mb := max_chunk_videos_mb in
  let total_peak_mb :=
    py_max peak_chunk_mb (max_chunk_videos_mb + final_video_mb)%float in
  Ok (Chunked.Build total_frames total_chunks chunk_size frame_size_mb
        peak_chunk_mb max_chunk_videos_mb total_peak_mb).

(** ** The scenarios of [print_comparison] *)

Record scenario : Set := {
  name : string;
  width : Z;
  height : Z;
  fps : Z;
  duration : Z
}.

Definition scenarios : list scenario :=
  [ {| name := "1080p 30fps 10min";
       width := 1920; height := 1080; fps := 30; duration := 600 |};
    {| name := "4K 30fps 10min";
       width := 3840; height := 2160; fps := 30; duration := 600 |};
    {| name := "4K 60fps 10min";
       width := 3840; height := 2160; fps := 60; duration := 600 |};
    {| name := "1080p 30fps 1hour";
       width := 1920; height := 1080; fps := 30; duration := 3600 |} ].

(** The "Storage savings" figure printed for one chunk size:
    [(old - new) / old * 100] on the two [total_peak_mb]. *)
Definition savings_percent (old new : float) : float :=
  ((old - new) / old * 100)%float.

(** ** Exact values of floats *)

(** The rational a finite float stands for; [None] on infinities and NaN. *)
Definition SF2Q (x : spec_float) : option Q :=
  match x with
  | S754_zero _ => Some 0%Q
  | S754_finite s m e =>
      let q := match e with
               | Z0 => Zpos m # 1
               | Zpos p => Zpos (m * 2 ^ p) # 1
               | Zneg p => Zpos m # 2 ^ p
               end in
      Some (if s then Qopp q else q)
  | _ => None
  end.

Definition Q_of_float (f : float) : option Q := SF2Q (Prim2SF f).

(** The floor of a number, when it has one. *)
Definition num_floor (a : num) : option Z :=
  match a with
  | PyInt z => Some z
  | PyFloat f => option_map Qfloor (Q_of_float f)
  end.

(** Truncation toward zero of a rational, and of a number. *)
Definition Qtrunc (q : Q) : Z :=
  if Qnum q <? 0 then Qceiling q else Qfloor q.

Definition num_trunc (a : num) : option Z :=
  match a with
  | PyInt z => Some z
  | PyFloat f => option_map Qtrunc (Q_of_float f)
  end.

Definition num_positive (a : num) : Prop :=
  match a with
  | PyInt z => 0 < z
  | PyFloat f => (0 <? f)%float = true
  end.

(** ** Definitions for the binary64 arithmetic *)

(** A finite binary64 value is an integer number of units of [2^-1074]
    ([units]); the largest one is below [2^2098] units.  An exact result
    [V * 2^-u] is rounded by [rnd u V], still in units, and [encode] turns
    units into a float, overflowing to an infinity. *)

(** [m / 2^k] rounded to the nearest integer, ties to even: what the
    shifter of [SpecFloat] followed by [round_nearest_even] computes. *)
Definition nearest_even (m k : Z) : Z :=
  let q := m / 2 ^ k in
  match 2 * (m mod 2 ^ k) ?= 2 ^ k with
  | Lt => q
  | Eq => if Z.even q then q else q + 1
  | Gt => q + 1
  end.

(** The state of the shifter after [n] steps on [m]. *)
Definition shifted (m : Z) (n : nat) (mrs : shr_record) : Prop :=
  let r := m mod 2 ^ Z.of_nat n in
  shr_m mrs = m / 2 ^ Z.of_nat n /\
  (shr_r mrs = true <-> 2 ^ Z.of_nat n <= 2 * r) /\
  (shr_s mrs = true <-> r <> 0 /\ 2 * r <> 2 ^ Z.of_nat n).

(** The float of sign [s] and magnitude [N * 2^-1074]: a zero, the finite
    float with a mantissa of at most 53 bits, or an infinity from [2^1024]
    on. *)
Definition encode (s : bool) (N : Z) : spec_float :=
  match N with
  | Zpos _ =>
      let t := Z.max 0 (Zdigits2 N - 53) in
      if t - 1074 <=? 971
      then S754_finite s (Z.to_pos (N / 2 ^ t)) (t - 1074)
      else S754_infinity s
  | _ => S754_zero s
  end.

(** The value of a finite float in units of [2^-1074]. *)
Definition units (x : spec_float) : Z :=
  match x with
  | S754_finite _ m e => Zpos m * 2 ^ (e + 1074)
  | _ => 0
  end.

(** Rounding of [V * 2^-u] to binary64 with unbounded exponent, in units of
    [2^-1074]. *)
Definition rnd (u V : Z) : Z :=
  let E := fexp prec emax (Zdigits2 V - u) in
  nearest_even V (E + u) * 2 ^ (E + 1074).

(** [N * 2^-1074] fits a 53-bit mantissa. *)
Definition fits (N : Z) : Prop := N mod 2 ^ Z.max 0 (Zdigits2 N - 53) = 0.

(** The position of a nonnegative float in the order of values. *)
Definition rank (x : spec_float) : Z :=
  match x with
  | S754_infinity _ => 2 ^ 2098
  | _ => units x
  end.

(** Nonnegative binary64 values: [+0], a positive finite float, [+inf]. *)
Definition nonneg_float (x : spec_float) : Prop :=
  match x with
  | S754_zero s => s = false
  | S754_infinity s => s = false
  | S754_finite s m e => s = false /\ bounded prec emax m e = true
  | S754_nan => False
  end.

Definition is_inf (x : spec_float) : bool :=
  match x with
  | S754_infinity _ => true
  | _ => false
  end.

(** The float literals [1.2], [2.0], [3.0], [0.1] and [1048576.0] of the
    script and of the claims, as mantissa and exponent. *)
Definition sf_1_2 : spec_float := S754_finite false 5404319552844595 (-52).
Definition sf_2 : spec_float := S754_finite false 4503599627370496 (-51).
Definition sf_3 : spec_float := S754_finite false 6755399441055744 (-51).
Definition sf_0_1 : spec_float := S754_finite false 7205759403792794 (-56).
Definition sf_MiB : spec_float := S754_finite false 4503599627370496 (-32).

(** Positive finite floats. *)
Definition posfin (y : spec_float) : Prop :=
  nonneg_float y /\ is_inf y = false /\ 0 < rank y.

(** The chunk peak as a function of the float of the chunk size. *)
Definition peak_sf (F C : spec_float) : spec_float :=
  SFadd prec emax
    (SFadd prec emax (SFmul prec emax F C)
       (SFmul prec emax (SFmul prec emax F sf_2) C))
    (SFmul prec emax (SFmul prec emax (SFmul prec emax F sf_2) C) sf_0_1).

(** ** The savings figure *)

(** [a / b] on two floats raises [ZeroDivisionError] when [b == 0]. *)
Definition float_div (a b : float) : result float :=
  if (b =? 0)%float then Raise ZeroDivisionError else Ok (a / b)%float.

(** [(old - new) / old * 100], as [print_comparison] evaluates it. *)
Definition storage_savings (old new : float) : result float :=
  ratio <- float_div (old - new)%float old ;;
  float_mul_int ratio 100.

(** ** Format specifications *)

(** The decimal digits of [n >= 0]. *)
Definition decimal (n : Z) : string :=
  NilZero.string_of_uint (N.to_uint (Z.to_N n)).

(** The [k] low decimal digits of [n >= 0], padded with zeros. *)
Fixpoint low_digits (k : nat) (n : Z) : string :=
  match k with
  | O => ""
  | S k' =>
      low_digits k' (n / 10)
      ++ String (ascii_of_nat (48 + Z.to_nat (n mod 10))) ""
  end.

(** A comma before every group of three digits, counted from the right. *)
Fixpoint thousands (digits : string) : string :=
  match digits with
  | "" => ""
  | String a rest =>
      String a
        (if negb (length rest =? 0)%nat && (length rest mod 3 =? 0)%nat
         then "," ++ thousands rest
         else thousands rest)
  end.

(** [f"{n:,}"] on an int. *)
Definition format_int_commas (n : Z) : string :=
  (if n <? 0 then "-" else "") ++ thousands (decimal (Z.abs n)).

(** [|x| * 10^k] rounded to the nearest integer, ties to even, for a finite
    [x = m * 2^e]. *)
Definition scaled_round (k : nat) (m : positive) (e : Z) : Z :=
  let n := Zpos m * 10 ^ Z.of_nat k in
  if 0 <=? e then n * 2 ^ e else nearest_even n (- e).

(** [f"{x:.kf}"] on a float, and [f"{x:,.kf}"] when [commas] is set: the
    decimal expansion of [x] correctly rounded to [k] digits after the
    point. *)
Definition format_fixed (k : nat) (commas : bool) (x : float) : string :=
  let number (s : bool) (r : Z) :=
    let whole := decimal (r / 10 ^ Z.of_nat k) in
    (if s then "-" else "")
    ++ (if commas then thousands whole else whole)
    ++ (if (k =? 0)%nat then "" else "." ++ low_digits k r) in
  match Prim2SF x with
  | S754_nan => "nan"
  | S754_infinity s => if s then "-inf" else "inf"
  | S754_zero s => number s 0
  | S754_finite s m e => number s (scaled_round k m e)
  end.

(** [s * n] on a string and an int. *)
Fixpoint repeat_string (s : string) (n : nat) : string :=
  match n with
  | O => ""
  | S n' => s ++ repeat_string s n'
  end.

(** ** Printing *)

(** A computation that prints: it extends the lines printed so far, and
    returns or raises.  What was printed before an exception stays
    printed. *)
Definition io (A : Type) : Type := list string -> list string * result A.

Definition io_ret {A : Type} (a : A) : io A := fun out => (out, Ok a).

Definition io_bind {A B : Type} (c : io A) (k : A -> io B) : io B :=
  fun out =>
    match c out with
    | (out', Ok a) => k a out'
    | (out', Raise e) => (out', Raise e)
    end.

Definition eval {A : Type} (c : result A) : io A := fun out => (out, c).

Definition print (line : string) : io unit :=
  fun out => ((out ++ [line])%list, Ok tt).

Notation "x <~ c ;; k" := (io_bind c (fun x => k))
  (at level 61, c at next level, right associativity).
Notation "c ;;; k" := (io_bind c (fun _ => k))
  (at level 61, right associativity).

(** [for x in l: body(x)]. *)
Fixpoint for_each {A : Type} (l : list A) (body : A -> io unit) : io unit :=
  match l with
  | [] => io_ret tt
  | x :: l' => body x ;;; for_each l' body
  end.

(** The two lines printed for one estimate of the chunked approach. *)
Definition print_chunked (old new : float) : io unit :=
  gb <~ eval (float_div_int new 1024) ;;
  print ("  Peak storage: " ++ format_fixed 1 true new ++ " MB ("
         ++ format_fixed 1 false gb ++ " GB)") ;;;
  savings <~ eval (storage_savings old new) ;;
  print ("  Storage savings: " ++ format_fixed 1 false savings ++ "%").

(** The body of the loop of [print_comparison]. *)
Definition report (s : scenario) : io unit :=
  print ("Scenario: " ++ name s) ;;;
  print (repeat_string "-" 50) ;;;
  old <~ eval (estimate_storage_old_approach (width s) (height s)
                 (PyInt (fps s)) (PyInt (duration s))) ;;
  new_100 <~ eval (estimate_storage_chunked_approach (width s) (height s)
                     (PyInt (fps s)) (PyInt (duration s)) 100) ;;
  new_50 <~ eval (estimate_storage_chunked_approach (width s) (height s)
                    (PyInt (fps s)) (PyInt (duration s)) 50) ;;
  print ("Total frames: " ++ format_int_commas (Old.total_frames old)) ;;;
  print ("Frame size: " ++ format_fixed 2 false (Old.frame_size_mb old)
         ++ " MB") ;;;
  print "" ;;;
  print "OLD APPROACH (extract all frames):" ;;;
  gb <~ eval (float_div_int (Old.total_peak_mb old) 1024) ;;
  print ("  Peak storage: " ++ format_fixed 1 true (Old.total_peak_mb old)
         ++ " MB (" ++ format_fixed 1 false gb ++ " GB)") ;;;
  print "" ;;;
  print "NEW CHUNKED APPROACH (chunk_size=100):" ;;;
  print_chunked (Old.total_peak_mb old) (Chunked.total_peak_mb new_100) ;;;
  print "" ;;;
  print "NEW CHUNKED APPROACH (chunk_size=50):" ;;;
  print_chunked (Old.total_peak_mb old) (Chunked.total_peak_mb new_50) ;;;
  print "" ;;;
  print (repeat_string "=" 70) ;;;
  print "".

Definition print_comparison : io unit :=
  print "YORO Storage Efficiency Comparison" ;;;
  print (repeat_string "=" 70) ;;;
  print "" ;;;
  for_each scenarios report.

(** The text of the comparison, line by line. *)
Definition printed_comparison : list string :=
  [ "YORO Storage Efficiency Comparison";
    "======================================================================";
    "";
    "Scenario: 1080p 30fps 10min";
    "--------------------------------------------------";
    "Total frames: 18,000";
    "Frame size: 7.12 MB";
    "";
    "OLD APPROACH (extract all frames):";
    "  Peak storage: 384,433.6 MB (375.4 GB)";
    "";
    "NEW CHUNKED APPROACH (chunk_size=100):";
    "  Peak storage: 51,257.8 MB (50.1 GB)";
    "  Storage savings: 86.7%";
    "";
    "NEW CHUNKED APPROACH (chunk_size=50):";
    "  Peak storage: 51,257.8 MB (50.1 GB)";
    "  Storage savings: 86.7%";
    "";
    "======================================================================";
    "";
    "Scenario: 4K 30fps 10min";
    "--------------------------------------------------";
    "Total frames: 18,000";
    "Frame size: 28.48 MB";
    "";
    "OLD APPROACH (extract all frames):";
    "  Peak storage: 1,537,734.4 MB (1501.7 GB)";
    "";
    "NEW CHUNKED APPROACH (chunk_size=100):";
    "  Peak storage: 205,031.2 MB (200.2 GB)";
    "  Storage savings: 86.7%";
    "";
    "NEW CHUNKED APPROACH (chunk_size=50):";
    "  Peak storage: 205,031.2 MB (200.2 GB)";
    "  Storage savings: 86.7%";
    "";
    "======================================================================";
    "";
    "Scenario: 4K 60fps 10min";
    "--------------------------------------------------";
    "Total frames: 36,000";
    "Frame size: 28.48 MB";
    "";
    "OLD APPROACH (extract all frames):";
    "  Peak storage: 3,075,468.8 MB (3003.4 GB)";
    "";
    "NEW CHUNKED APPROACH (chunk_size=100):";
    "  Peak storage: 410,062.5 MB (400.5 GB)";
    "  Storage savings: 86.7%";
    "";
    "NEW CHUNKED APPROACH (chunk_size=50):";
    "  Peak storage: 410,062.5 MB (400.5 GB)";
    "  Storage savings: 86.7%";
    "";
    "======================================================================";
    "";
    "Scenario: 1080p 30fps 1hour";
    "--------------------------------------------------";
    "Total frames: 108,000";
    "Frame size: 7.12 MB";
    "";
    "OLD APPROACH (extract all frames):";
    "  Peak storage: 2,306,601.6 MB (2252.5 GB)";
    "";
    "NEW CHUNKED APPROACH (chunk_size=100):";
    "  Peak storage: 307,546.9 MB (300.3 GB)";
    "  Storage savings: 86.7%";
    "";
    "NEW CHUNKED APPROACH (chunk_size=50):";
    "  Peak storage: 307,546.9 MB (300.3 GB)";
    "  Storage savings: 86.7%";
    "";
    "======================================================================";
    "" ].

(** ** Further definitions for the binary64 arithmetic *)

(** The float literals [1.0] and [8.0]. *)
Definition sf_1 : spec_float := S754_finite false 4503599627370496 (-52).
Definition sf_8 : spec_float := S754_finite false 4503599627370496 (-49).

(** The chunk video, the old total and the storage of the assembly as
    functions of the floats of the frame size and of the counts. *)
Definition video_sf (F C : spec_float) : spec_float :=
  SFmul prec emax (SFmul prec emax (SFmul prec emax F sf_2) C) sf_0_1.

Definition old_total_sf (F T : spec_float) : spec_float :=
  SFadd prec emax (SFmul prec emax F T)
    (SFmul prec emax (SFmul prec emax F sf_2) T).

Definition assembly_sf (F C K : spec_float) : spec_float :=
  SFadd prec emax (SFmul prec emax (video_sf F C) K)
    (SFmul prec emax (video_sf F C) K).

(** The ranks of a product, of a sum and of the float of an int, as long as
    they are finite; and the ranks of the estimates built from them, for a
    frame size of rank [f] and counts of rank [c], [t] and [k]. *)
Definition rmul (a b : Z) : Z := rnd 2148 (a * b).
Definition radd (a b : Z) : Z := rnd 1074 (a + b).
Definition rint (z : Z) : Z := rnd 1074 (z * 2 ^ 1074).

Definition video_rank (f c : Z) : Z :=
  rmul (rmul (2 * f) c) (units sf_0_1).

Definition peak_rank (f c : Z) : Z :=
  radd (radd (rmul f c) (rmul (2 * f) c)) (video_rank f c).

Definition assembly_rank (f c k : Z) : Z :=
  radd (rmul (video_rank f c) k) (rmul (video_rank f c) k).

Definition old_total_rank (f t : Z) : Z :=
  radd (rmul f t) (rmul (2 * f) t).

(** ** Inversion of the monadic code *)

Lemma bind_Ok {A B : Type} (c : result A) (k : A -> result B) (b : B) :
  (x <- c ;; k x) = Ok b -> exists a, c = Ok a /\ k a = Ok b.
Proof.
  destruct c as [a | e]; simpl; intros H.
  - exists a. split; [reflexivity | exact H].
  - discriminate H.
Qed.

Lemma bind_Raise {A B : Type} (c : result A) (k : A -> result B) (e : exn) :
  (x <- c ;; k x) = Raise e ->
  c = Raise e \/ exists a, c = Ok a /\ k a = Raise e.
Proof.
  destruct c as [a | e']; simpl; intros H.
  - right. exists a. split; [reflexivity | exact H].
  - left. now inversion H.
Qed.

Ltac invert_bind H :=
  let a := fresh "v" in
  let Ha := fresh "E" in
  apply bind_Ok in H; destruct H as (a & Ha & H).

Lemma float_of_int_exn (z : Z) (e : exn) :
  float_of_int z = Raise e -> e = OverflowError.
Proof.
  unfold float_of_int.
  destruct (binary_normalize prec emax z 0 false); intros H;
    try discriminate H.
  now inversion H.
Qed.

Lemma int_of_float_exn (f : float) (e : exn) :
  int_of_float f = Raise e -> e = OverflowError \/ e = ValueError.
Proof.
  unfold int_of_float.
  destruct (Prim2SF f); intros H; try discriminate H; inversion H; auto.
Qed.

Lemma float_mul_int_Ok (f : float) (z : Z) (r : float) :
  float_mul_int f z = Ok r ->
  exists g, float_of_int z = Ok g /\ r = (f * g)%float.
Proof.
  unfold float_mul_int. intros H. invert_bind H.
  exists v. split; [assumption | now inversion H].
Qed.

Lemma float_mul_int_exn (f : float) (z : Z) (e : exn) :
  float_mul_int f z = Raise e -> e = OverflowError.
Proof.
  unfold float_mul_int. intros H.
  apply bind_Raise in H. destruct H as [H | (g & _ & H)].
  - eapply float_of_int_exn; eassumption.
  - discriminate H.
Qed.

Lemma float_of_int_2 : float_of_int 2 = Ok 2%float.
Proof. reflexivity. Qed.

Lemma float_of_int_MiB : float_of_int (1024 * 1024) = Ok 1048576%float.
Proof. reflexivity. Qed.

Lemma frame_size_Ok (w h : Z) (f : float) :
  frame_size w h = Ok f ->
  exists x, float_of_int (w * h * 3) = Ok x /\
            f = (x * 1.2 / 1048576)%float.
Proof.
  unfold frame_size, int_mul_float, float_div_int. intros H.
  invert_bind H. invert_bind E. inversion E; subst v; clear E.
  rewrite float_of_int_MiB in H. simpl in H.
  exists v0. split; [assumption | now inversion H].
Qed.

Lemma frame_size_exn (w h : Z) (e : exn) :
  frame_size w h = Raise e -> e = OverflowError.
Proof.
  unfold frame_size, int_mul_float, float_div_int. intros H.
  apply bind_Raise in H. destruct H as [H | (x & _ & H)].
  - apply bind_Raise in H. destruct H as [H | (g & _ & H)].
    + eapply float_of_int_exn; eassumption.
    + discriminate H.
  - rewrite float_of_int_MiB in H. simpl in H. discriminate H.
Qed.

Lemma frame_size_returns (w h : Z) (x : float) :
  float_of_int (w * h * 3) = Ok x ->
  frame_size w h = Ok (x * 1.2 / 1048576)%float.
Proof.
  intros Hx. unfold frame_size, int_mul_float, float_div_int.
  rewrite Hx, float_of_int_MiB. reflexivity.
Qed.

(** What a returned record of the chunked estimator is made of. *)
Lemma chunked_Ok (w h : Z) (fps d : num) (cs : Z) (r : Chunked.estimate) :
  estimate_storage_chunked_approach w h fps d cs = Ok r ->
  exists (p : num) (f c t : float),
    py_mul fps d = Ok p /\
    py_int p = Ok (Chunked.total_frames r) /\
    cs <> 0 /\
    Chunked.total_chunks r = (Chunked.total_frames r + cs - 1) / cs /\
    Chunked.chunk_size r = cs /\
    frame_size w h = Ok f /\
    Chunked.frame_size_mb r = f /\
    float_of_int cs = Ok c /\
    float_of_int (Chunked.total_chunks r) = Ok t /\
    Chunked.peak_chunk_mb r =
      (f * c + f * 2 * c + f * 2 * c * 0.1)%float /\
    Chunked.max_chunk_videos_mb r = (f * 2 * c * 0.1 * t)%float /\
    Chunked.total_peak_mb r =
      py_max (Chunked.peak_chunk_mb r)
        (Chunked.max_chunk_videos_mb r + Chunked.max_chunk_videos_mb r)%float.
Proof.
  unfold estimate_storage_chunked_approach. intros H.
  invert_bind H. rename v into p, E into Ep.
  invert_bind H. rename v into n, E into En.
  invert_bind H. rename v into tc, E into Etc.
  invert_bind H. rename v into f, E into Ef.
  invert_bind H. rename v into ce, E into Ece.
  invert_bind H. rename v into dbl, E into Edbl.
  invert_bind H. rename v into csb, E into Ecsb.
  invert_bind H. rename v into mcv, E into Emcv.
  inversion H; subst r; clear H. simpl.
  unfold int_floordiv in Etc.
  destruct (Z.eqb_spec cs 0) as [Hz | Hz]; [discriminate Etc |].
  inversion Etc; subst tc; clear Etc.
  apply float_mul_int_Ok in Ece. destruct Ece as (c & Hc & ->).
  apply float_mul_int_Ok in Edbl. destruct Edbl as (two & H2 & ->).
  rewrite float_of_int_2 in H2. inversion H2; subst two; clear H2.
  apply float_mul_int_Ok in Ecsb. destruct Ecsb as (c' & Hc' & ->).
  rewrite Hc in Hc'. inversion Hc'; subst c'; clear Hc'.
  apply float_mul_int_Ok in Emcv. destruct Emcv as (t & Ht & ->).
  exists p, f, c, t. repeat split; assumption.
Qed.

(** What a returned record of the old estimator is made of. *)
Lemma old_Ok (w h : Z) (fps d : num) (r : Old.estimate) :
  estimate_storage_old_approach w h fps d = Ok r ->
  exists (p : num) (f n : float),
    py_mul fps d = Ok p /\
    py_int p = Ok (Old.total_frames r) /\
    frame_size w h = Ok f /\
    Old.frame_size_mb r = f /\
    float_of_int (Old.total_frames r) = Ok n /\
    Old.extracted_frames_mb r = (f * n)%float /\
    Old.sbs_frames_mb r = (f * 2 * n)%float /\
    Old.total_peak_mb r =
      (Old.extracted_frames_mb r + Old.sbs_frames_mb r)%float.
Proof.
  unfold estimate_storage_old_approach. intros H.
  invert_bind H. rename v into p, E into Ep.
  invert_bind H. rename v into tf, E into En.
  invert_bind H. rename v into f, E into Ef.
  invert_bind H. rename v into ex, E into Eex.
  invert_bind H. rename v into dbl, E into Edbl.
  invert_bind H. rename v into sbs, E into Esbs.
  inversion H; subst r; clear H. simpl.
  apply float_mul_int_Ok in Eex. destruct Eex as (n & Hn & ->).
  apply float_mul_int_Ok in Edbl. destruct Edbl as (two & H2 & ->).
  rewrite float_of_int_2 in H2. inversion H2; subst two; clear H2.
  apply float_mul_int_Ok in Esbs. destruct Esbs as (n' & Hn' & ->).
  rewrite Hn in Hn'. inversion Hn'; subst n'; clear Hn'.
  exists p, f, n. repeat split; assumption.
Qed.

Lemma py_mul_exn (a b : num) (e : exn) :
  py_mul a b = Raise e -> e = OverflowError.
Proof.
  destruct a as [x | f], b as [y | g]; simpl; intros H;
    try discriminate H;
    (apply bind_Raise in H; destruct H as [H | (v & _ & H)];
     [eapply float_of_int_exn; eassumption | discriminate H]).
Qed.

Lemma py_int_exn (a : num) (e : exn) :
  py_int a = Raise e -> e = OverflowError \/ e = ValueError.
Proof.
  destruct a as [z | f]; simpl; intros H.
  - discriminate H.
  - now apply (int_of_float_exn f).
Qed.

Lemma int_floordiv_Ok (a b : Z) : b <> 0 -> int_floordiv a b = Ok (a / b).
Proof.
  intros Hb. unfold int_floordiv.
  destruct (Z.eqb_spec b 0); [contradiction | reflexivity].
Qed.

(** The only exceptions the chunked estimator can raise with a non-zero
    chunk size. *)
Lemma chunked_exn (w h : Z) (fps d : num) (cs : Z) (e : exn) :
  cs <> 0 ->
  estimate_storage_chunked_approach w h fps d cs = Raise e ->
  e = OverflowError \/ e = ValueError.
Proof.
  intros Hcs. unfold estimate_storage_chunked_approach. intros H.
  apply bind_Raise in H. destruct H as [H | (p & _ & H)].
  { left. eapply py_mul_exn; eassumption. }
  apply bind_Raise in H. destruct H as [H | (n & _ & H)].
  { eapply py_int_exn; eassumption. }
  rewrite int_floordiv_Ok in H by assumption. cbn [bind] in H.
  apply bind_Raise in H. destruct H as [H | (f & _ & H)].
  { left. eapply frame_size_exn; eassumption. }
  apply bind_Raise in H. destruct H as [H | (ce & _ & H)].
  { left. eapply float_mul_int_exn; eassumption. }
  apply bind_Raise in H. destruct H as [H | (dbl & _ & H)].
  { left. eapply float_mul_int_exn; eassumption. }
  apply bind_Raise in H. destruct H as [H | (csb & _ & H)].
  { left. eapply float_mul_int_exn; eassumption. }
  apply bind_Raise in H. destruct H as [H | (mcv & _ & H)].
  { left. eapply float_mul_int_exn; eassumption. }
  discriminate H.
Qed.

(** The chunked estimator returns as soon as its four conversions do. *)
Lemma chunked_returns (w h : Z) (fps d : num) (cs : Z)
    (p : num) (n : Z) (x c t : float) :
  cs <> 0 ->
  py_mul fps d = Ok p ->
  py_int p = Ok n ->
  float_of_int (w * h * 3) = Ok x ->
  float_of_int cs = Ok c ->
  float_of_int ((n + cs - 1) / cs) = Ok t ->
  returns (estimate_storage_chunked_approach w h fps d cs).
Proof.
  intros Hcs Hp Hn Hx Hc Ht.
  unfold estimate_storage_chunked_approach.
  rewrite Hp. cbn [bind]. rewrite Hn. cbn [bind].
  rewrite int_floordiv_Ok by assumption. cbn [bind].
  rewrite (frame_size_returns _ _ _ Hx). cbn [bind].
  unfold float_mul_int. rewrite Hc, float_of_int_2. cbn [bind].
  rewrite Ht. cbn [bind].
  eexists. reflexivity.
Qed.

Lemma fmul_comm (x y : float) : (x * y)%float = (y * x)%float.
Proof.
  apply Prim2SF_inj. rewrite !mul_spec. unfold SF64mul, SFmul.
  destruct (Prim2SF x) as [sx | sx | | sx mx ex],
           (Prim2SF y) as [sy | sy | | sy my ey];
    try reflexivity; try (now rewrite xorb_comm).
  now rewrite xorb_comm, Pos.mul_comm, Z.add_comm.
Qed.

(** ** Binary digits *)

(** [Zdigits2 m] is the number [d] of binary digits of a positive [m]:
    [2^(d-1) <= m < 2^d]. *)

(* digits *)
Lemma digits2_pos_bounds (p : positive) :
  2 ^ (Zpos (digits2_pos p) - 1) <= Zpos p < 2 ^ Zpos (digits2_pos p).
Proof.
  induction p as [p IH | p IH |]; simpl digits2_pos.
  - rewrite Pos2Z.inj_succ.
    replace (Z.succ (Zpos (digits2_pos p)) - 1) with (Z.succ (Zpos (digits2_pos p) - 1)) by lia.
    rewrite !Z.pow_succ_r by lia. lia.
  - rewrite Pos2Z.inj_succ.
    replace (Z.succ (Zpos (digits2_pos p)) - 1) with (Z.succ (Zpos (digits2_pos p) - 1)) by lia.
    rewrite !Z.pow_succ_r by lia. lia.
  - simpl. lia.
Qed.

Lemma Zdigits2_bounds (m : Z) :
  0 < m -> 2 ^ (Zdigits2 m - 1) <= m < 2 ^ Zdigits2 m.
Proof.
  destruct m as [| p | p]; try lia. intros _. apply digits2_pos_bounds.
Qed.

Lemma Zdigits2_pos (m : Z) : 0 < m -> 0 < Zdigits2 m.
Proof. destruct m; simpl; lia. Qed.

Lemma Zdigits2_unique (m d : Z) :
  2 ^ (d - 1) <= m < 2 ^ d -> 0 < m -> Zdigits2 m = d.
Proof.
  intros [Hlo Hhi] Hm.
  pose proof (Zdigits2_bounds m Hm) as [Hlo' Hhi'].
  pose proof (Zdigits2_pos m Hm) as Hd.
  assert (0 < d).
  { destruct (Z_lt_le_dec 0 d) as [|Hd0]; [assumption|].
    apply Zle_lt_or_eq in Hd0. destruct Hd0 as [Hd0 | Hd0].
    - rewrite Z.pow_neg_r in Hhi by lia. lia.
    - subst d. simpl in Hhi. lia. }
  destruct (Z.lt_trichotomy (Zdigits2 m) d) as [Hlt | [Heq | Hgt]]; [| assumption |].
  - assert (2 ^ Zdigits2 m <= 2 ^ (d - 1)) by (apply Z.pow_le_mono_r; lia). lia.
  - assert (2 ^ d <= 2 ^ (Zdigits2 m - 1)) by (apply Z.pow_le_mono_r; lia). lia.
Qed.


(** ** The shifter and rounding to nearest even *)

(** [SpecFloat] rounds by shifting the mantissa right one bit at a time,
    keeping a round bit and a sticky bit.  After [n] steps the record holds
    the quotient by [2^n] and the position of the remainder against the
    half, so that [round_nearest_even] yields [nearest_even m n]. *)

Lemma iter_pos_nat {A : Type} (f : A -> A) (p : positive) (x : A) :
  iter_pos f p x = Nat.iter (Pos.to_nat p) f x.
Proof.
  revert x. induction p as [p IH | p IH |]; intros x; simpl iter_pos.
  - rewrite Pos2Nat.inj_xI, !IH, <- Nat.iter_succ_r, <- Nat.iter_add.
    f_equal. lia.
  - rewrite Pos2Nat.inj_xO, !IH.
    replace (2 * Pos.to_nat p)%nat with (Pos.to_nat p + Pos.to_nat p)%nat by lia.
    now rewrite Nat.iter_add.
  - reflexivity.
Qed.

Lemma shr_1_nonneg (m : Z) (r s : bool) :
  0 <= m ->
  shr_1 (Build_shr_record m r s) = Build_shr_record (m / 2) (Z.odd m) (r || s).
Proof.
  intros Hm. destruct m as [| p | p]; [reflexivity | | lia].
  destruct p as [p | p |]; simpl shr_1; f_equal.
  - rewrite Pos2Z.inj_xI. apply (Z.div_unique _ _ _ 1); lia.
  - rewrite Pos2Z.inj_xO. apply (Z.div_unique _ _ _ 0); lia.
Qed.

Lemma shifted_iter (m : Z) (n : nat) :
  0 <= m -> shifted m n (Nat.iter n shr_1 (Build_shr_record m false false)).
Proof.
  intros Hm. induction n as [| n IH].
  - unfold shifted. simpl. rewrite Z.mod_1_r, Z.div_1_r.
    repeat split; intros; try discriminate; lia.
  - rewrite Nat.iter_succ.
    destruct (Nat.iter n shr_1 _) as [q rb sb].
    destruct IH as (Hq & Hr & Hs). cbn [shr_m shr_r shr_s] in Hq, Hr, Hs.
    set (P := 2 ^ Z.of_nat n) in *.
    assert (HP : 0 < P) by (apply Z.pow_pos_nonneg; lia).
    assert (Hq0 : 0 <= q) by (subst q; apply Z.div_pos; lia).
    rewrite shr_1_nonneg by assumption.
    assert (HP' : 2 ^ Z.of_nat (S n) = P * 2).
    { rewrite Nat2Z.inj_succ, Z.pow_succ_r by lia. unfold P. lia. }
    assert (Hrange : 0 <= m mod P < P) by (apply Z.mod_pos_bound; lia).
    assert (Hmod : m mod (P * 2) = m mod P + P * (q mod 2)).
    { subst q. apply Z.rem_mul_r; lia. }
    assert (Hbit : 0 <= q mod 2 < 2) by (apply Z.mod_pos_bound; lia).
    unfold shifted. simpl shr_m. simpl shr_r. simpl shr_s.
    rewrite HP', Hmod.
    split; [| split].
    + subst q. rewrite Z.div_div by lia. reflexivity.
    + pose proof (Zmod_odd q) as Hodd. destruct (Z.odd q).
      * rewrite Hodd. split; [nia | reflexivity].
      * rewrite Hodd. split; [discriminate | nia].
    + rewrite orb_true_iff, Hr, Hs.
      assert (Hb : q mod 2 = 0 \/ q mod 2 = 1) by lia.
      clear Hmod Hr Hs Hq.
      generalize dependent (m mod P). intros r Hrange.
      destruct Hb as [-> | ->]; lia.
Qed.

Lemma shifted_nearest_even (m : Z) (n : nat) (mrs : shr_record) :
  shifted m n mrs ->
  round_nearest_even (shr_m mrs) (loc_of_shr_record mrs) = nearest_even m (Z.of_nat n).
Proof.
  destruct mrs as [q rb sb]. intros (Hq & Hr & Hs). cbn [shr_m shr_r shr_s] in Hq, Hr, Hs.
  unfold nearest_even. simpl shr_m. rewrite <- Hq.
  assert (HP : 0 < 2 ^ Z.of_nat n) by (apply Z.pow_pos_nonneg; lia).
  assert (Hrange : 0 <= m mod 2 ^ Z.of_nat n < 2 ^ Z.of_nat n)
    by (apply Z.mod_pos_bound; lia).
  destruct (Z.compare_spec (2 * (m mod 2 ^ Z.of_nat n)) (2 ^ Z.of_nat n))
    as [E | E | E]; destruct rb, sb; simpl; try reflexivity; exfalso;
    destruct Hr as [Hr1 Hr2]; destruct Hs as [Hs1 Hs2];
    try (specialize (Hr1 eq_refl)); try (specialize (Hs1 eq_refl));
    try lia;
    try (assert (Hf : false = true) by (apply Hr2; lia); discriminate Hf);
    try (assert (Hf : false = true) by (apply Hs2; lia); discriminate Hf).
Qed.

Lemma nearest_even_0 (m : Z) : nearest_even m 0 = m.
Proof.
  unfold nearest_even. simpl. rewrite Z.mod_1_r, Z.div_1_r. reflexivity.
Qed.

(** One call of [shr_fexp] on an exact nonnegative mantissa. *)
Lemma shr_fexp_exact (m e : Z) :
  0 <= m ->
  let k := Z.max 0 (fexp prec emax (Zdigits2 m + e) - e) in
  let '(mrs, e') := shr_fexp prec emax m e loc_Exact in
  shr_m mrs = m / 2 ^ k /\
  round_nearest_even (shr_m mrs) (loc_of_shr_record mrs) = nearest_even m k /\
  e' = e + k.
Proof.
  intros Hm k. unfold shr_fexp, shr. simpl shr_record_of_loc.
  fold (Z.sub (fexp prec emax (Zdigits2 m + e)) e).
  subst k.
  destruct (fexp prec emax (Zdigits2 m + e) - e) as [| p | p] eqn:Hk.
  - simpl Z.max. simpl shr_m. rewrite nearest_even_0, Z.div_1_r. repeat split; lia.
  - rewrite iter_pos_nat.
    pose proof (shifted_iter m (Pos.to_nat p) Hm) as Hsh.
    replace (Z.max 0 (Zpos p)) with (Z.of_nat (Pos.to_nat p)) by lia.
    split; [apply Hsh | split; [now apply shifted_nearest_even | lia]].
  - simpl Z.max. simpl shr_m. rewrite nearest_even_0, Z.div_1_r. repeat split; lia.
Qed.


(** ** The normal form of a rounding *)

(** [binary_round_aux], the rounding every operation ends with, shifts,
    rounds and shifts once more in case the mantissa grew to [2^53].  On an
    exact mantissa that is not below its target exponent the result is
    [encode] of the rounded mantissa counted in units. *)

Lemma fexp64 (x : Z) : fexp prec emax x = Z.max (x - 53) (-1074).
Proof. reflexivity. Qed.

Lemma pow2_pos (k : Z) : 0 <= k -> 0 < 2 ^ k.
Proof. intros. apply Z.pow_pos_nonneg; lia. Qed.

Lemma nearest_even_bounds (m k : Z) :
  0 <= k -> m / 2 ^ k <= nearest_even m k <= m / 2 ^ k + 1.
Proof.
  intros Hk. unfold nearest_even.
  destruct (2 * (m mod 2 ^ k) ?= 2 ^ k); [destruct (Z.even _) | |]; lia.
Qed.

Lemma nearest_even_nonneg (m k : Z) : 0 <= m -> 0 <= k -> 0 <= nearest_even m k.
Proof.
  intros Hm Hk. pose proof (nearest_even_bounds m k Hk).
  pose proof (pow2_pos k Hk).
  assert (0 <= m / 2 ^ k) by (apply Z.div_pos; lia). lia.
Qed.

Lemma nearest_even_exact (M k : Z) : 0 <= k -> nearest_even (M * 2 ^ k) k = M.
Proof.
  intros Hk. pose proof (pow2_pos k Hk). unfold nearest_even.
  rewrite Z.mod_mul, Z.div_mul by lia.
  replace (2 * 0) with 0 by lia.
  destruct (Z.compare_spec 0 (2 ^ k)); lia.
Qed.

Lemma nearest_even_mono (m m' k : Z) :
  0 <= k -> m <= m' -> nearest_even m k <= nearest_even m' k.
Proof.
  intros Hk Hm. pose proof (pow2_pos k Hk) as HP.
  assert (Hq : m / 2 ^ k <= m' / 2 ^ k) by (apply Z.div_le_mono; lia).
  apply Zle_lt_or_eq in Hq. destruct Hq as [Hq | Hq].
  - pose proof (nearest_even_bounds m k Hk). pose proof (nearest_even_bounds m' k Hk). lia.
  - unfold nearest_even. rewrite <- Hq.
    pose proof (Z.div_mod m (2 ^ k) ltac:(lia)).
    pose proof (Z.div_mod m' (2 ^ k) ltac:(lia)).
    assert (m mod 2 ^ k <= m' mod 2 ^ k) by nia.
    destruct (Z.compare_spec (2 * (m mod 2 ^ k)) (2 ^ k));
      destruct (Z.compare_spec (2 * (m' mod 2 ^ k)) (2 ^ k));
      destruct (Z.even (m / 2 ^ k)); lia.
Qed.

Lemma nearest_even_scale (m k j : Z) :
  0 <= k -> 0 <= j -> nearest_even (m * 2 ^ j) (k + j) = nearest_even m k.
Proof.
  intros Hk Hj. pose proof (pow2_pos k Hk). pose proof (pow2_pos j Hj).
  unfold nearest_even. rewrite Z.pow_add_r by lia.
  rewrite Z.div_mul_cancel_r by lia.
  rewrite Zmult_mod_distr_r.
  replace (2 * (m mod 2 ^ k * 2 ^ j)) with (2 * (m mod 2 ^ k) * 2 ^ j) by lia.
  rewrite <- Zmult_compare_compat_r by lia.
  reflexivity.
Qed.

(** [binary_round_aux] on an exact nonnegative mantissa, unfolded. *)
Lemma binary_round_aux_exact (s : bool) (m e : Z) :
  0 <= m ->
  binary_round_aux prec emax s m e loc_Exact =
  let k := Z.max 0 (fexp prec emax (Zdigits2 m + e) - e) in
  let M := nearest_even m k in
  let E := e + k in
  let k2 := Z.max 0 (fexp prec emax (Zdigits2 M + E) - E) in
  match M / 2 ^ k2 with
  | Z0 => S754_zero s
  | Zpos p =>
      if E + k2 <=? 971 then S754_finite s p (E + k2) else S754_infinity s
  | Zneg _ => S754_nan
  end.
Proof.
  intros Hm. unfold binary_round_aux.
  pose proof (shr_fexp_exact m e Hm) as H1. cbv zeta in H1.
  destruct (shr_fexp prec emax m e loc_Exact) as [mrs' e'].
  destruct H1 as (_ & HM & He'). rewrite HM, He'.
  set (k := Z.max 0 (fexp prec emax (Zdigits2 m + e) - e)).
  assert (HM0 : 0 <= nearest_even m k) by (apply nearest_even_nonneg; lia).
  pose proof (shr_fexp_exact (nearest_even m k) (e + k) HM0) as H2. cbv zeta in H2.
  destruct (shr_fexp prec emax (nearest_even m k) (e + k) loc_Exact) as [mrs'' e''].
  destruct H2 as (Hm'' & _ & He''). rewrite Hm'', He''.
  reflexivity.
Qed.

Lemma Zdigits2_mul_pow2 (m j : Z) :
  0 < m -> 0 <= j -> Zdigits2 (m * 2 ^ j) = Zdigits2 m + j.
Proof.
  intros Hm Hj. pose proof (pow2_pos j Hj).
  pose proof (Zdigits2_bounds m Hm) as [Hlo Hhi].
  pose proof (Zdigits2_pos m Hm).
  apply Zdigits2_unique; [| nia].
  replace (Zdigits2 m + j - 1) with (Zdigits2 m - 1 + j) by lia.
  rewrite !Z.pow_add_r by lia. nia.
Qed.

Lemma div_pow2_lower (M d k : Z) :
  0 <= k <= d - 1 -> 2 ^ (d - 1) <= M -> 2 ^ (d - 1 - k) <= M / 2 ^ k.
Proof.
  intros Hk HM. pose proof (pow2_pos k ltac:(lia)).
  apply Z.div_le_lower_bound; [lia |].
  rewrite <- Z.pow_add_r by lia. replace (k + (d - 1 - k)) with (d - 1) by lia.
  assumption.
Qed.

(** The normal form of a rounding: the rounded mantissa scaled to the unit
    [2^-1074], then encoded. *)
Lemma binary_round_aux_encode (s : bool) (m e : Z) :
  0 < m ->
  let E := fexp prec emax (Zdigits2 m + e) in
  e <= E ->
  binary_round_aux prec emax s m e loc_Exact
  = encode s (nearest_even m (E - e) * 2 ^ (E + 1074)).
Proof.
  intros Hm E HE. rewrite binary_round_aux_exact by lia.
  cbv zeta. fold E. replace (Z.max 0 (E - e)) with (E - e) by lia.
  replace (e + (E - e)) with E by lia.
  set (M := nearest_even m (E - e)).
  assert (HM0 : 0 <= M) by (apply nearest_even_nonneg; lia).
  assert (HE0 : -1074 <= E) by (unfold E; rewrite fexp64; lia).
  apply Zle_lt_or_eq in HM0. destruct HM0 as [HM0 | HM0].
  2:{ rewrite <- HM0. reflexivity. }
  pose proof (Zdigits2_bounds M HM0) as [HMlo HMhi].
  pose proof (Zdigits2_pos M HM0) as HdM.
  pose proof (Zdigits2_bounds m Hm) as [Hmlo Hmhi].
  pose proof (Zdigits2_pos m Hm) as Hdm.
  set (dM := Zdigits2 M) in *.
  assert (Hnorm : -1074 < E -> 53 <= dM).
  { intros HEn. unfold E in HEn, HE. rewrite fexp64 in HEn, HE.
    assert (HEeq : E = Zdigits2 m + e - 53) by (unfold E; rewrite fexp64; lia).
    assert (Hk : 0 <= E - e <= Zdigits2 m - 1) by lia.
    pose proof (div_pow2_lower m (Zdigits2 m) (E - e) Hk Hmlo) as Hlow.
    pose proof (nearest_even_bounds m (E - e) ltac:(lia)) as [Hb _]. fold M in Hb.
    replace (Zdigits2 m - 1 - (E - e)) with 52 in Hlow by lia.
    destruct (Z_lt_le_dec dM 53) as [Hlt | Hge]; [| assumption].
    assert (2 ^ dM <= 2 ^ 52) by (apply Z.pow_le_mono_r; lia). lia. }
  assert (Hk2 : Z.max 0 (fexp prec emax (dM + E) - E) = Z.max 0 (dM - 53)).
  { rewrite fexp64. lia. }
  rewrite Hk2. set (k2 := Z.max 0 (dM - 53)).
  assert (Hk2n : 0 <= k2 /\ k2 <= dM - 1) by (unfold k2; lia).
  assert (HN : 0 < M * 2 ^ (E + 1074)).
  { pose proof (pow2_pos (E + 1074) ltac:(lia)). nia. }
  unfold encode. destruct (M * 2 ^ (E + 1074)) as [| pN | pN] eqn:EN; try lia.
  rewrite <- EN. rewrite Zdigits2_mul_pow2 by lia. fold dM.
  assert (Ht : Z.max 0 (dM + (E + 1074) - 53) = E + 1074 + k2).
  { unfold k2. destruct (Z.eq_dec E (-1074)); [lia |].
    specialize (Hnorm ltac:(lia)). lia. }
  rewrite Ht.
  replace (E + 1074 + k2 - 1074) with (E + k2) by lia.
  assert (Hdiv : M * 2 ^ (E + 1074) / 2 ^ (E + 1074 + k2) = M / 2 ^ k2).
  { rewrite (Z.pow_add_r 2 (E + 1074) k2) by lia.
    rewrite (Z.mul_comm (2 ^ (E + 1074))).
    apply Z.div_mul_cancel_r; apply Z.pow_nonzero; lia. }
  rewrite Hdiv.
  assert (Hq : 0 < M / 2 ^ k2).
  { pose proof (div_pow2_lower M dM k2 ltac:(lia) HMlo).
    pose proof (pow2_pos (dM - 1 - k2) ltac:(lia)). lia. }
  destruct (M / 2 ^ k2) as [| q | q]; try lia.
  simpl Z.to_pos. reflexivity.
Qed.


(** ** Rounding in units of [2^-1074] *)

(** [rnd u] is monotone, does not depend on the scale [u] of its argument,
    is the identity on what fits, and yields only what fits. *)

Lemma Zdigits2_mono (a b : Z) : 0 < a <= b -> Zdigits2 a <= Zdigits2 b.
Proof.
  intros [Ha Hab].
  pose proof (Zdigits2_bounds a Ha) as [Hlo _].
  pose proof (Zdigits2_bounds b ltac:(lia)) as [_ Hhi].
  pose proof (Zdigits2_pos a Ha).
  destruct (Z_lt_le_dec (Zdigits2 b) (Zdigits2 a)) as [Hlt | Hge]; [| lia].
  assert (2 ^ Zdigits2 b <= 2 ^ (Zdigits2 a - 1))
    by (apply Z.pow_le_mono_r; lia).
  lia.
Qed.

Lemma Zdigits2_pow2 (a : Z) : 0 <= a -> Zdigits2 (2 ^ a) = a + 1.
Proof.
  intros Ha. pose proof (pow2_pos a Ha).
  apply Zdigits2_unique; [| lia].
  replace (a + 1 - 1) with a by lia.
  rewrite Z.pow_add_r by lia. lia.
Qed.

Lemma nearest_even_upper (V d k : Z) :
  0 <= V < 2 ^ d -> 0 <= k -> 0 <= d -> nearest_even V k <= 2 ^ Z.max 0 (d - k).
Proof.
  intros [HV0 HV] Hk Hd. pose proof (pow2_pos k Hk) as HP.
  pose proof (nearest_even_bounds V k Hk) as [_ Hub].
  destruct (Z_lt_le_dec d k) as [Hlt | Hge].
  - replace (Z.max 0 (d - k)) with 0 by lia. simpl.
    assert (2 ^ d <= 2 ^ k) by (apply Z.pow_le_mono_r; lia).
    rewrite Z.div_small in Hub by lia. lia.
  - replace (Z.max 0 (d - k)) with (d - k) by lia.
    assert (V / 2 ^ k < 2 ^ (d - k)).
    { apply Z.div_lt_upper_bound; [lia |].
      rewrite <- Z.pow_add_r by lia. now replace (k + (d - k)) with d by lia. }
    lia.
Qed.

Lemma nearest_even_lower (V d k : Z) :
  2 ^ (d - 1) <= V -> 0 <= k <= d - 1 -> 2 ^ (d - 1 - k) <= nearest_even V k.
Proof.
  intros HV Hk.
  pose proof (div_pow2_lower V d k Hk HV).
  pose proof (nearest_even_bounds V k ltac:(lia)). lia.
Qed.

Lemma nearest_even_0_l (k : Z) : nearest_even 0 k = 0.
Proof.
  unfold nearest_even. rewrite Zmod_0_l, Zdiv_0_l.
  pose proof (Z.pow_nonneg 2 k ltac:(lia)).
  replace (2 * 0) with 0 by lia.
  destruct (Z.compare_spec 0 (2 ^ k)); try reflexivity. lia.
Qed.

Lemma rnd_0 (u : Z) : rnd u 0 = 0.
Proof. unfold rnd. now rewrite nearest_even_0_l. Qed.

Section Rounding.
Variable u : Z.
Hypothesis Hu : 1074 <= u.

Lemma rnd_nonneg (V : Z) : 0 <= V -> 0 <= rnd u V.
Proof.
  intros HV. unfold rnd. rewrite fexp64.
  set (E := Z.max (Zdigits2 V - u - 53) (-1074)).
  pose proof (nearest_even_nonneg V (E + u) HV ltac:(lia)).
  pose proof (pow2_pos (E + 1074) ltac:(lia)). nia.
Qed.

Lemma rnd_mono (V V' : Z) : 0 < V <= V' -> rnd u V <= rnd u V'.
Proof.
  intros [HV HVV]. unfold rnd. rewrite !fexp64.
  pose proof (Zdigits2_mono V V' ltac:(lia)) as Hd.
  pose proof (Zdigits2_bounds V HV) as [Hlo Hhi].
  pose proof (Zdigits2_bounds V' ltac:(lia)) as [Hlo' Hhi'].
  pose proof (Zdigits2_pos V HV) as Hdp.
  set (d := Zdigits2 V) in *. set (d' := Zdigits2 V') in *.
  set (E := Z.max (d - u - 53) (-1074)).
  set (E' := Z.max (d' - u - 53) (-1074)).
  assert (HE : E <= E') by lia.
  apply Zle_lt_or_eq in HE. destruct HE as [HE | HE].
  - assert (HE' : E' = d' - u - 53) by lia.
    assert (Hlow : 2 ^ 52 <= nearest_even V' (E' + u)).
    { replace 52 with (d' - 1 - (E' + u)) by lia.
      apply nearest_even_lower; [assumption | lia]. }
    assert (Hup : nearest_even V (E + u) <= 2 ^ Z.max 0 (d - (E + u))).
    { apply nearest_even_upper; lia. }
    assert (Hpow : 2 ^ Z.max 0 (d - (E + u)) * 2 ^ (E + 1074)
                   <= 2 ^ 52 * 2 ^ (E' + 1074)).
    { rewrite <- !Z.pow_add_r by lia. apply Z.pow_le_mono_r; lia. }
    pose proof (pow2_pos (E + 1074) ltac:(lia)).
    pose proof (pow2_pos (E' + 1074) ltac:(lia)).
    nia.
  - rewrite <- HE.
    pose proof (nearest_even_mono V V' (E + u) ltac:(lia) HVV).
    pose proof (pow2_pos (E + 1074) ltac:(lia)). nia.
Qed.

Lemma rnd_scale (V j : Z) :
  0 < V -> 0 <= j -> rnd (u + j) (V * 2 ^ j) = rnd u V.
Proof.
  intros HV Hj. unfold rnd.
  rewrite Zdigits2_mul_pow2 by lia.
  replace (Zdigits2 V + j - (u + j)) with (Zdigits2 V - u) by lia.
  set (E := fexp prec emax (Zdigits2 V - u)).
  assert (-1074 <= E) by (unfold E; rewrite fexp64; lia).
  replace (E + (u + j)) with (E + u + j) by lia.
  rewrite nearest_even_scale by lia. reflexivity.
Qed.
End Rounding.

Lemma rnd_exact (N : Z) : 0 < N -> fits N -> rnd 1074 N = N.
Proof.
  intros HN Hrp. unfold rnd, fits in *. rewrite fexp64.
  set (t := Z.max 0 (Zdigits2 N - 53)) in *.
  replace (Z.max (Zdigits2 N - 1074 - 53) (-1074)) with (t - 1074) by lia.
  replace (t - 1074 + 1074) with t by lia.
  apply Z.mod_divide in Hrp; [| apply Z.pow_nonzero; lia].
  destruct Hrp as [M HM]. rewrite HM.
  rewrite nearest_even_exact by lia. reflexivity.
Qed.

Lemma fits_rnd (u V : Z) : 1074 <= u -> 0 <= V -> fits (rnd u V).
Proof.
  intros Hu HV. apply Zle_lt_or_eq in HV. destruct HV as [HV | <-].
  2:{ rewrite rnd_0. reflexivity. }
  unfold fits, rnd. rewrite fexp64.
  pose proof (Zdigits2_bounds V HV) as [Hlo Hhi].
  pose proof (Zdigits2_pos V HV) as Hdp.
  set (d := Zdigits2 V) in *.
  set (E := Z.max (d - u - 53) (-1074)).
  set (M := nearest_even V (E + u)).
  assert (HM0 : 0 <= M) by (apply nearest_even_nonneg; lia).
  assert (HMup : M <= 2 ^ 53).
  { pose proof (nearest_even_upper V d (E + u) ltac:(lia) ltac:(lia) ltac:(lia)) as Hup.
    fold M in Hup.
    assert (2 ^ Z.max 0 (d - (E + u)) <= 2 ^ 53)
      by (apply Z.pow_le_mono_r; lia).
    lia. }
  apply Zle_lt_or_eq in HM0. destruct HM0 as [HM0 | <-].
  2:{ reflexivity. }
  apply Zle_lt_or_eq in HMup. destruct HMup as [HMup | HMup].
  - pose proof (Zdigits2_bounds M HM0) as [HMlo _].
    assert (HdM : Zdigits2 M <= 53).
    { destruct (Z_lt_le_dec 53 (Zdigits2 M)); [| lia].
      assert (2 ^ 53 <= 2 ^ (Zdigits2 M - 1))
        by (apply Z.pow_le_mono_r; lia).
      lia. }
    rewrite Zdigits2_mul_pow2 by lia.
    pose proof (Zdigits2_pos M HM0).
    set (t := Z.max 0 (Zdigits2 M + (E + 1074) - 53)).
    replace (E + 1074) with ((E + 1074 - t) + t) by lia.
    rewrite Z.pow_add_r by lia.
    rewrite Z.mul_assoc. apply Z.mod_mul. apply Z.pow_nonzero; lia.
  - rewrite HMup. rewrite <- Z.pow_add_r by lia.
    rewrite Zdigits2_pow2 by lia.
    set (t := Z.max 0 (53 + (E + 1074) + 1 - 53)).
    replace (53 + (E + 1074)) with ((53 + (E + 1074) - t) + t) by lia.
    rewrite Z.pow_add_r by lia.
    apply Z.mod_mul. apply Z.pow_nonzero; lia.
Qed.


(** ** Arithmetic with large powers of two *)

(** [lia] and [nia] with the large constant powers of two ([2 ^ 1074],
    [2 ^ 2098], ...) taken as unknowns: the facts a proof needs about them
    are in its context, and their digits are not. *)
Ltac hide_big_powers :=
  repeat match goal with
  | |- context [2 ^ Zpos ?p] =>
      match eval cbv in (Pos.leb 64 p) with
      | true => let x := fresh "big" in
                set (x := 2 ^ Zpos p) in *; clearbody x
      end
  | H : context [2 ^ Zpos ?p] |- _ =>
      match eval cbv in (Pos.leb 64 p) with
      | true => let x := fresh "big" in
                set (x := 2 ^ Zpos p) in *; clearbody x
      end
  end.

Ltac zlia := hide_big_powers; lia.
Ltac znia := hide_big_powers; nia.

(** ** Encoding and the order of nonnegative floats *)

(** [encode] and [units] are inverse on the valid finite floats, and the
    order of [rank] is the order [SFleb] on nonnegative floats. *)

Lemma bounded_spec (m : positive) (e : Z) :
  bounded prec emax m e = true <->
  e = Z.max (Zdigits2 (Zpos m) + e - 53) (-1074) /\ e <= 971.
Proof.
  unfold bounded, canonical_mantissa. rewrite andb_true_iff, fexp64.
  rewrite Z.eqb_eq, Z.leb_le. simpl Zdigits2.
  change (emax - prec) with 971. zlia.
Qed.

Lemma pow2_le (a b : Z) : 0 <= a <= b -> 2 ^ a <= 2 ^ b.
Proof. intros. apply Z.pow_le_mono_r; zlia. Qed.

Lemma pow2_lt (a b : Z) : 0 <= a < b -> 2 ^ a < 2 ^ b.
Proof. intros. apply Z.pow_lt_mono_r; zlia. Qed.

Lemma pow2_lt_inv (a b : Z) : 0 <= b -> 2 ^ a < 2 ^ b -> a < b.
Proof.
  intros Hb H. destruct (Z_lt_le_dec a b) as [|Hge]; [assumption |].
  pose proof (pow2_le b a ltac:(zlia)). zlia.
Qed.

Lemma units_bounded (s : bool) (m : positive) (e : Z) :
  bounded prec emax m e = true ->
  0 < units (S754_finite s m e) < 2 ^ 2098 /\
  Zdigits2 (units (S754_finite s m e)) = Zdigits2 (Zpos m) + e + 1074 /\
  fits (units (S754_finite s m e)).
Proof.
  rewrite bounded_spec. intros [Hc He]. cbn [units].
  pose proof (Zdigits2_bounds (Zpos m) ltac:(zlia)) as [Hlo Hhi].
  pose proof (Zdigits2_pos (Zpos m) ltac:(zlia)) as Hd.
  set (d := Zdigits2 (Zpos m)) in *.
  pose proof (pow2_pos (e + 1074) ltac:(zlia)) as HP.
  assert (Hdig : Zdigits2 (Zpos m * 2 ^ (e + 1074)) = d + e + 1074).
  { rewrite Zdigits2_mul_pow2 by zlia. fold d. zlia. }
  split; [split; [apply Z.mul_pos_pos; zlia |] | split; [assumption |]].
  - assert (Zpos m * 2 ^ (e + 1074) < 2 ^ d * 2 ^ (e + 1074))
      by (apply Z.mul_lt_mono_pos_r; zlia).
    rewrite <- Z.pow_add_r in H by zlia.
    pose proof (pow2_le (d + (e + 1074)) 2098 ltac:(zlia)). zlia.
  - unfold fits. rewrite Hdig.
    set (t := Z.max 0 (d + e + 1074 - 53)).
    replace (e + 1074) with ((e + 1074 - t) + t) by zlia.
    rewrite Z.pow_add_r by zlia. rewrite Z.mul_assoc.
    apply Z.mod_mul. apply Z.pow_nonzero; zlia.
Qed.

Lemma encode_units (s : bool) (m : positive) (e : Z) :
  bounded prec emax m e = true ->
  encode s (units (S754_finite s m e)) = S754_finite s m e.
Proof.
  intros Hb. pose proof (units_bounded s m e Hb) as ([Hpos Hlt] & Hdig & _).
  apply bounded_spec in Hb. destruct Hb as [Hc He].
  unfold encode. destruct (units (S754_finite s m e)) as [| p | p] eqn:EN; try zlia.
  cbv zeta. rewrite Hdig, <- EN.
  set (d := Zdigits2 (Zpos m)) in *.
  replace (Z.max 0 (d + e + 1074 - 53)) with (e + 1074) by zlia.
  replace (e + 1074 - 1074) with e by zlia.
  destruct (Z.leb_spec e 971); [| zlia].
  cbn [units]. rewrite Z.div_mul by (apply Z.pow_nonzero; zlia).
  reflexivity.
Qed.

Lemma encode_zero (s : bool) : encode s 0 = S754_zero s.
Proof. reflexivity. Qed.

Lemma encode_overflow (s : bool) (N : Z) :
  2 ^ 2098 <= N -> encode s N = S754_infinity s.
Proof.
  intros HN. pose proof (pow2_pos 2098 ltac:(zlia)).
  pose proof (Zdigits2_mono (2 ^ 2098) N ltac:(zlia)) as Hd.
  rewrite Zdigits2_pow2 in Hd by zlia.
  unfold encode. destruct N as [| p | p]; try zlia.
  destruct (Z.leb_spec (Z.max 0 (Zdigits2 (Zpos p) - 53) - 1074) 971);
    [zlia | reflexivity].
Qed.

Lemma encode_finite (s : bool) (N : Z) :
  0 < N < 2 ^ 2098 -> fits N ->
  exists m e, encode s N = S754_finite s m e /\
              bounded prec emax m e = true /\
              units (S754_finite s m e) = N.
Proof.
  intros [HN0 HN] Hrp.
  pose proof (Zdigits2_bounds N HN0) as [Hlo Hhi].
  pose proof (Zdigits2_pos N HN0) as Hd.
  assert (Hd' : Zdigits2 N <= 2098).
  { pose proof (pow2_lt_inv (Zdigits2 N - 1) 2098 ltac:(zlia) ltac:(zlia)). zlia. }
  unfold encode, fits in *. destruct N as [| p | p] eqn:EN; try zlia. rewrite <- EN in *.
  set (t := Z.max 0 (Zdigits2 N - 53)) in *.
  destruct (Z.leb_spec (t - 1074) 971); [| zlia].
  apply Z.mod_divide in Hrp; [| apply Z.pow_nonzero; zlia].
  destruct Hrp as [M HM].
  pose proof (pow2_pos t ltac:(zlia)) as HP.
  assert (HM0 : 0 < M) by znia.
  assert (HdM : Zdigits2 N = Zdigits2 M + t).
  { rewrite HM. apply Zdigits2_mul_pow2; zlia. }
  assert (Hq : N / 2 ^ t = M) by (rewrite HM; apply Z.div_mul; zlia).
  exists (Z.to_pos M), (t - 1074). rewrite Hq.
  split; [reflexivity | split].
  - apply bounded_spec. rewrite Z2Pos.id by zlia. zlia.
  - cbn [units]. rewrite Z2Pos.id by zlia.
    replace (t - 1074 + 1074) with t by zlia. zlia.
Qed.

Lemma nonneg_encode (N : Z) : 0 <= N -> fits N -> nonneg_float (encode false N).
Proof.
  intros HN Hrp. destruct (Z_lt_le_dec N (2 ^ 2098)) as [Hlt | Hge].
  - apply Zle_lt_or_eq in HN. destruct HN as [HN | <-]; [| reflexivity].
    destruct (encode_finite false N ltac:(zlia) Hrp) as (m & e & -> & Hb & _).
    simpl. auto.
  - rewrite encode_overflow by assumption. reflexivity.
Qed.

Lemma rank_encode (s : bool) (N : Z) :
  0 <= N -> fits N -> rank (encode s N) = Z.min N (2 ^ 2098).
Proof.
  intros HN Hrp. destruct (Z_lt_le_dec N (2 ^ 2098)) as [Hlt | Hge].
  - apply Zle_lt_or_eq in HN. destruct HN as [HN | <-]; [| reflexivity].
    destruct (encode_finite s N ltac:(zlia) Hrp) as (m & e & -> & _ & Hi).
    unfold rank. zlia.
  - rewrite encode_overflow by assumption. cbn [rank]. zlia.
Qed.

(** The order of ranks is the order [<=] of nonnegative floats. *)
Lemma SFleb_rank (x y : spec_float) :
  nonneg_float x -> nonneg_float y -> rank x <= rank y -> SFleb x y = true.
Proof.
  intros Hx Hy Hr.
  destruct x as [sx | sx | | sx mx ex]; cbn [nonneg_float] in Hx;
    [subst sx | subst sx | exfalso; exact Hx | destruct Hx as [-> Hbx]];
    (destruct y as [sy | sy | | sy my ey]; cbn [nonneg_float] in Hy;
     [subst sy | subst sy | exfalso; exact Hy | destruct Hy as [-> Hby]]);
    try reflexivity.
  - (* inf, zero *)
    cbn [rank units] in Hr. pose proof (pow2_pos 2098 ltac:(zlia)). zlia.
  - (* inf, finite *)
    pose proof (units_bounded false my ey Hby) as ([_ Hlt] & _).
    cbn [rank] in Hr. zlia.
  - (* finite, zero *)
    pose proof (units_bounded false mx ex Hbx) as ([Hpos _] & _).
    cbn [rank] in Hr. change (units (S754_zero false)) with 0 in Hr. zlia.
  - (* finite, finite *)
    cbn [rank units] in Hr.
    apply bounded_spec in Hbx, Hby.
    destruct Hbx as [Hcx _], Hby as [Hcy _].
    pose proof (Zdigits2_bounds (Zpos mx) ltac:(zlia)) as [Hxlo Hxhi].
    pose proof (Zdigits2_bounds (Zpos my) ltac:(zlia)) as [Hylo Hyhi].
    pose proof (Zdigits2_pos (Zpos mx) ltac:(zlia)).
    pose proof (Zdigits2_pos (Zpos my) ltac:(zlia)).
    unfold SFleb, SFcompare.
    destruct (Z.compare_spec ex ey) as [Heq | Hlt | Hgt]; [| reflexivity |].
    + subst ey. pose proof (pow2_pos (ex + 1074) ltac:(zlia)).
      assert (Hm : (mx <= my)%positive).
      { apply Pos2Z.pos_le_pos. apply Z.mul_le_mono_pos_r in Hr; zlia. }
      rewrite Pos.compare_cont_spec. simpl.
      apply Pos.compare_le_iff in Hm.
      destruct (mx ?= my)%positive; try reflexivity. now contradiction Hm.
    + exfalso.
      assert (Hdx : Zdigits2 (Zpos mx) = 53) by zlia.
      assert (Hdy : Zdigits2 (Zpos my) <= 53) by zlia.
      rewrite Hdx in Hxlo.
      pose proof (pow2_le (Zdigits2 (Zpos my)) 53 ltac:(zlia)).
      replace (ex + 1074) with ((ex - ey) + (ey + 1074)) in Hr by zlia.
      rewrite Z.pow_add_r in Hr by zlia.
      pose proof (pow2_pos (ey + 1074) ltac:(zlia)) as HP.
      pose proof (pow2_le 1 (ex - ey) ltac:(zlia)) as H2.
      change (2 ^ 1) with 2 in H2.
      assert (Hbig : 2 ^ 53 <= Zpos mx * 2 ^ (ex - ey)).
      { replace 53 with (52 + 1) by zlia. rewrite Z.pow_add_r by zlia.
        change (2 ^ 1) with 2. change (53 - 1) with 52 in Hxlo.
        pose proof (pow2_pos 52 ltac:(zlia)). znia. }
      rewrite Z.mul_assoc in Hr.
      apply Z.mul_le_mono_pos_r in Hr; zlia.
Qed.


(** ** The operations as roundings *)

(** Conversion from an int, multiplication, and addition of floats of one
    sign are [encode] of [rnd] of the exact result. *)

Lemma binary_round_aux_rnd (s : bool) (m e u : Z) :
  0 < m -> e <= fexp prec emax (Zdigits2 m + e) -> 1074 <= u -> - u <= e ->
  binary_round_aux prec emax s m e loc_Exact = encode s (rnd u (m * 2 ^ (e + u))).
Proof.
  intros Hm He Hu Hue. rewrite binary_round_aux_encode by assumption.
  f_equal. unfold rnd. rewrite Zdigits2_mul_pow2 by zlia.
  replace (Zdigits2 m + (e + u) - u) with (Zdigits2 m + e) by zlia.
  set (E := fexp prec emax (Zdigits2 m + e)) in *.
  replace (E + u) with (E - e + (e + u)) by zlia.
  rewrite nearest_even_scale by zlia. reflexivity.
Qed.

Lemma iter_xO (m d : positive) : Zpos (Pos.iter xO m d) = Zpos m * 2 ^ Zpos d.
Proof.
  induction d as [| d IH] using Pos.peano_ind.
  - simpl. zlia.
  - rewrite Pos.iter_succ, Pos2Z.inj_xO, IH, Pos2Z.inj_succ.
    rewrite Z.pow_succ_r by zlia. zlia.
Qed.

Lemma shl_align_spec (mx : positive) (ex ex' : Z) :
  snd (shl_align mx ex ex') = Z.min ex ex' /\
  Zpos (fst (shl_align mx ex ex')) = Zpos mx * 2 ^ (ex - Z.min ex ex').
Proof.
  unfold shl_align. destruct (ex' - ex) as [| d | d] eqn:Hd; simpl fst; simpl snd.
  - replace (Z.min ex ex') with ex by zlia. rewrite Z.sub_diag. simpl. zlia.
  - replace (Z.min ex ex') with ex by zlia. rewrite Z.sub_diag. simpl. zlia.
  - replace (Z.min ex ex') with ex' by zlia. split; [reflexivity |].
    rewrite iter_xO. f_equal. f_equal. zlia.
Qed.

Lemma binary_round_rnd (s : bool) (m : positive) (e u : Z) :
  1074 <= u -> - u <= e ->
  binary_round prec emax s m e = encode s (rnd u (Zpos m * 2 ^ (e + u))).
Proof.
  intros Hu Hue. unfold binary_round.
  set (E := fexp prec emax (Zpos (digits2_pos m) + e)).
  assert (HE : -1074 <= E) by (unfold E; rewrite fexp64; zlia).
  pose proof (shl_align_spec m e E) as [Hsnd Hfst].
  destruct (shl_align m e E) as [mz ez]. cbn [fst snd] in Hsnd, Hfst. subst ez.
  assert (Hdig : Zdigits2 (Zpos mz) + Z.min e E = Zpos (digits2_pos m) + e).
  { rewrite Hfst, Zdigits2_mul_pow2 by zlia.
    change (Zdigits2 (Zpos m)) with (Zpos (digits2_pos m)). zlia. }
  rewrite (binary_round_aux_rnd s (Zpos mz) (Z.min e E) u); try zlia.
  - f_equal. f_equal. rewrite Hfst, <- Z.mul_assoc, <- Z.pow_add_r by zlia.
    f_equal. f_equal. zlia.
  - rewrite Hdig. fold E. zlia.
Qed.

Lemma binary_normalize_rnd (z : Z) :
  binary_normalize prec emax z 0 false
  = encode (z <? 0) (rnd 1074 (Z.abs z * 2 ^ 1074)).
Proof.
  destruct z as [| p | p]; simpl binary_normalize.
  - reflexivity.
  - rewrite (binary_round_rnd false p 0 1074) by zlia. reflexivity.
  - rewrite (binary_round_rnd true p 0 1074) by zlia. reflexivity.
Qed.

Lemma Zdigits2_mul_lower (a b : Z) :
  0 < a -> 0 < b -> Zdigits2 a + Zdigits2 b - 1 <= Zdigits2 (a * b).
Proof.
  intros Ha Hb.
  pose proof (Zdigits2_bounds a Ha) as [Halo _].
  pose proof (Zdigits2_bounds b Hb) as [Hblo _].
  pose proof (Zdigits2_pos a Ha). pose proof (Zdigits2_pos b Hb).
  pose proof (Zdigits2_bounds (a * b) ltac:(znia)) as [_ Hhi].
  pose proof (Zdigits2_pos (a * b) ltac:(znia)).
  assert (2 ^ (Zdigits2 a - 1 + (Zdigits2 b - 1)) <= a * b).
  { rewrite Z.pow_add_r by zlia.
    pose proof (pow2_pos (Zdigits2 a - 1) ltac:(zlia)).
    pose proof (pow2_pos (Zdigits2 b - 1) ltac:(zlia)). znia. }
  pose proof (pow2_lt_inv (Zdigits2 a - 1 + (Zdigits2 b - 1))
                (Zdigits2 (a * b)) ltac:(zlia) ltac:(zlia)).
  zlia.
Qed.

Lemma SFmul_finite (sx sy : bool) (mx my : positive) (ex ey : Z) :
  bounded prec emax mx ex = true -> bounded prec emax my ey = true ->
  SFmul prec emax (S754_finite sx mx ex) (S754_finite sy my ey)
  = encode (xorb sx sy)
      (rnd 2148 (units (S754_finite sx mx ex) * units (S754_finite sy my ey))).
Proof.
  intros Hbx Hby. apply bounded_spec in Hbx, Hby.
  destruct Hbx as [Hcx _], Hby as [Hcy _].
  pose proof (Zdigits2_mul_lower (Zpos mx) (Zpos my) ltac:(zlia) ltac:(zlia)).
  pose proof (Zdigits2_pos (Zpos mx) ltac:(zlia)).
  pose proof (Zdigits2_pos (Zpos my) ltac:(zlia)).
  cbn [SFmul]. rewrite Pos2Z.inj_mul.
  rewrite (binary_round_aux_rnd _ _ _ 2148); try zlia.
  - f_equal. f_equal. cbn [units].
    replace (ex + ey + 2148) with ((ex + 1074) + (ey + 1074)) by zlia.
    rewrite Z.pow_add_r by zlia. zlia.
  - rewrite fexp64. zlia.
Qed.

Lemma SFadd_finite (s : bool) (mx my : positive) (ex ey : Z) :
  bounded prec emax mx ex = true -> bounded prec emax my ey = true ->
  SFadd prec emax (S754_finite s mx ex) (S754_finite s my ey)
  = encode s (rnd 1074 (units (S754_finite s mx ex) + units (S754_finite s my ey))).
Proof.
  intros Hbx Hby. apply bounded_spec in Hbx, Hby.
  destruct Hbx as [Hcx _], Hby as [Hcy _].
  cbn [SFadd].
  pose proof (shl_align_spec mx ex (Z.min ex ey)) as [_ Hx].
  pose proof (shl_align_spec my ey (Z.min ex ey)) as [_ Hy].
  replace (Z.min ex (Z.min ex ey)) with (Z.min ex ey) in Hx by zlia.
  replace (Z.min ey (Z.min ex ey)) with (Z.min ex ey) in Hy by zlia.
  set (a := fst (shl_align mx ex (Z.min ex ey))) in *.
  set (b := fst (shl_align my ey (Z.min ex ey))) in *.
  assert (Hval : (Zpos a + Zpos b) * 2 ^ (Z.min ex ey + 1074)
                 = units (S754_finite s mx ex) + units (S754_finite s my ey)).
  { cbn [units]. rewrite Hx, Hy, Z.mul_add_distr_r.
    rewrite <- !Z.mul_assoc, <- !Z.pow_add_r by zlia.
    f_equal; f_equal; f_equal; zlia. }
  rewrite <- Hval.
  destruct s; cbn [cond_Zopp].
  - change (- Zpos a + - Zpos b) with (Zneg (a + b)).
    cbn [binary_normalize].
    rewrite (binary_round_rnd true (a + b) (Z.min ex ey) 1074) by zlia.
    reflexivity.
  - change (Zpos a + Zpos b) with (Zpos (a + b)).
    cbn [binary_normalize].
    rewrite (binary_round_rnd false (a + b) (Z.min ex ey) 1074) by zlia.
    reflexivity.
Qed.


(** ** Products and sums of nonnegative floats *)

Lemma rnd_mono0 (u V V' : Z) :
  1074 <= u -> 0 <= V <= V' -> rnd u V <= rnd u V'.
Proof.
  intros Hu [HV HVV]. apply Zle_lt_or_eq in HV. destruct HV as [HV | <-].
  - apply rnd_mono; zlia.
  - rewrite rnd_0. apply rnd_nonneg; zlia.
Qed.

Lemma rank_nonneg (x : spec_float) : 0 <= rank x.
Proof.
  destruct x as [s | s | | s m e]; cbn [rank units]; try (apply Z.pow_nonneg); zlia.
Qed.

Lemma rank_le_top (x : spec_float) : nonneg_float x -> rank x <= 2 ^ 2098.
Proof.
  destruct x as [s | s | | s m e]; cbn [nonneg_float rank]; intros H.
  - cbn [units]. apply Z.pow_nonneg; zlia.
  - zlia.
  - contradiction.
  - destruct H as [_ Hb].
    pose proof (units_bounded s m e Hb) as ([_ Hlt] & _). zlia.
Qed.

Lemma rank_finite (x : spec_float) :
  nonneg_float x -> is_inf x = false -> rank x < 2 ^ 2098 /\ fits (rank x).
Proof.
  destruct x as [s | s | | s m e]; cbn [nonneg_float rank is_inf]; intros H Hi;
    try discriminate; try contradiction.
  - cbn [units]. split; [apply pow2_pos; zlia | reflexivity].
  - destruct H as [_ Hb].
    pose proof (units_bounded s m e Hb) as ([_ Hlt] & _ & Hrp). auto.
Qed.

Lemma rank_inf (x : spec_float) : is_inf x = true -> rank x = 2 ^ 2098.
Proof. destruct x; cbn [is_inf]; intros H; try discriminate. reflexivity. Qed.

(** Rank of a product of nonnegative floats (no [inf * 0]). *)
Lemma SFmul_nonneg (x y : spec_float) :
  nonneg_float x -> nonneg_float y ->
  (is_inf x = true -> 0 < rank y) -> (is_inf y = true -> 0 < rank x) ->
  nonneg_float (SFmul prec emax x y) /\
  rank (SFmul prec emax x y)
  = if is_inf x || is_inf y then 2 ^ 2098
    else Z.min (rnd 2148 (rank x * rank y)) (2 ^ 2098).
Proof.
  intros Hx Hy Hxy Hyx.
  pose proof (pow2_pos 2098 ltac:(zlia)) as Htop.
  destruct x as [sx | sx | | sx mx ex]; cbn [nonneg_float] in Hx;
    [subst sx | subst sx | exfalso; exact Hx | destruct Hx as [-> Hbx]];
    (destruct y as [sy | sy | | sy my ey]; cbn [nonneg_float] in Hy;
     [subst sy | subst sy | exfalso; exact Hy | destruct Hy as [-> Hby]]);
    cbn [is_inf orb]; cbn [is_inf] in Hxy, Hyx;
    try (cbn [SFmul xorb]; split; reflexivity);
    try (exfalso; specialize (Hyx eq_refl); cbn [rank units] in Hyx; zlia);
    try (exfalso; specialize (Hxy eq_refl); cbn [rank units] in Hxy; zlia);
    try (cbn [SFmul]; split; [reflexivity |]; cbn [rank units];
         rewrite ?Z.mul_0_l, ?Z.mul_0_r, rnd_0; zlia).
  rewrite (SFmul_finite false false) by assumption. cbn [xorb rank].
  pose proof (units_bounded false mx ex Hbx) as ([Hx0 _] & _).
  pose proof (units_bounded false my ey Hby) as ([Hy0 _] & _).
  set (V := units (S754_finite false mx ex) * units (S754_finite false my ey)).
  assert (HV : 0 <= V) by (unfold V; znia).
  pose proof (fits_rnd 2148 V ltac:(zlia) HV) as Hrp.
  pose proof (rnd_nonneg 2148 ltac:(zlia) V HV) as Hnn.
  split; [now apply nonneg_encode | now apply rank_encode].
Qed.

(** Rank of a sum of nonnegative floats. *)
Lemma SFadd_nonneg (x y : spec_float) :
  nonneg_float x -> nonneg_float y ->
  nonneg_float (SFadd prec emax x y) /\
  rank (SFadd prec emax x y)
  = if is_inf x || is_inf y then 2 ^ 2098
    else Z.min (rnd 1074 (rank x + rank y)) (2 ^ 2098).
Proof.
  intros Hx Hy.
  pose proof (pow2_pos 2098 ltac:(zlia)) as Htop.
  destruct x as [sx | sx | | sx mx ex]; cbn [nonneg_float] in Hx;
    [subst sx | subst sx | exfalso; exact Hx | destruct Hx as [-> Hbx]];
    (destruct y as [sy | sy | | sy my ey]; cbn [nonneg_float] in Hy;
     [subst sy | subst sy | exfalso; exact Hy | destruct Hy as [-> Hby]]);
    cbn [is_inf orb]; try (cbn [SFadd]; split; reflexivity).
  - cbn [SFadd]. split; [cbn [nonneg_float]; auto |].
    pose proof (units_bounded false my ey Hby) as ([Hy0 Hy1] & _ & Hrp).
    cbn [rank]. change (units (S754_zero false)) with 0.
    rewrite Z.add_0_l, rnd_exact by assumption. zlia.
  - cbn [SFadd]. split; [cbn [nonneg_float]; auto |].
    pose proof (units_bounded false mx ex Hbx) as ([Hx0 Hx1] & _ & Hrp).
    cbn [rank]. change (units (S754_zero false)) with 0.
    rewrite Z.add_0_r, rnd_exact by assumption. zlia.
  - rewrite (SFadd_finite false) by assumption. cbn [rank].
    pose proof (units_bounded false mx ex Hbx) as ([Hx0 _] & _).
    pose proof (units_bounded false my ey Hby) as ([Hy0 _] & _).
    set (V := units (S754_finite false mx ex) + units (S754_finite false my ey)).
    assert (HV : 0 <= V) by (unfold V; zlia).
    pose proof (fits_rnd 1074 V ltac:(zlia) HV) as Hrp.
    pose proof (rnd_nonneg 1074 ltac:(zlia) V HV) as Hnn.
    split; [now apply nonneg_encode | now apply rank_encode].
Qed.

Lemma is_inf_rank (x : spec_float) :
  nonneg_float x -> rank x < 2 ^ 2098 -> is_inf x = false.
Proof.
  destruct x; cbn [is_inf rank]; intros _ H; try reflexivity. zlia.
Qed.

(** Multiplication and addition are monotone on nonnegative floats. *)
Lemma SFmul_mono (x x' y y' : spec_float) :
  nonneg_float x -> nonneg_float x' -> nonneg_float y -> nonneg_float y' ->
  (is_inf x = true -> 0 < rank y) -> (is_inf y = true -> 0 < rank x) ->
  (is_inf x' = true -> 0 < rank y') -> (is_inf y' = true -> 0 < rank x') ->
  rank x <= rank x' -> rank y <= rank y' ->
  rank (SFmul prec emax x y) <= rank (SFmul prec emax x' y').
Proof.
  intros Hx Hx' Hy Hy' H1 H2 H3 H4 Hxx Hyy.
  destruct (SFmul_nonneg x y Hx Hy H1 H2) as [Hn Hr].
  destruct (SFmul_nonneg x' y' Hx' Hy' H3 H4) as [Hn' Hr'].
  rewrite Hr'.
  destruct (is_inf x' || is_inf y') eqn:Hi'.
  - now apply rank_le_top.
  - apply orb_false_iff in Hi'. destruct Hi' as [Hix' Hiy'].
    destruct (rank_finite x' Hx' Hix') as [Hlx' _].
    destruct (rank_finite y' Hy' Hiy') as [Hly' _].
    rewrite Hr, (is_inf_rank x), (is_inf_rank y) by (assumption || zlia).
    cbn [orb].
    pose proof (rank_nonneg x). pose proof (rank_nonneg y).
    pose proof (rnd_mono0 2148 (rank x * rank y) (rank x' * rank y')
                  ltac:(zlia) ltac:(znia)).
    zlia.
Qed.

Lemma SFadd_mono (x x' y y' : spec_float) :
  nonneg_float x -> nonneg_float x' -> nonneg_float y -> nonneg_float y' ->
  rank x <= rank x' -> rank y <= rank y' ->
  rank (SFadd prec emax x y) <= rank (SFadd prec emax x' y').
Proof.
  intros Hx Hx' Hy Hy' Hxx Hyy.
  destruct (SFadd_nonneg x y Hx Hy) as [Hn Hr].
  destruct (SFadd_nonneg x' y' Hx' Hy') as [Hn' Hr'].
  rewrite Hr'.
  destruct (is_inf x' || is_inf y') eqn:Hi'.
  - now apply rank_le_top.
  - apply orb_false_iff in Hi'. destruct Hi' as [Hix' Hiy'].
    destruct (rank_finite x' Hx' Hix') as [Hlx' _].
    destruct (rank_finite y' Hy' Hiy') as [Hly' _].
    rewrite Hr, (is_inf_rank x), (is_inf_rank y) by (assumption || zlia).
    cbn [orb].
    pose proof (rank_nonneg x). pose proof (rank_nonneg y).
    pose proof (rnd_mono0 1074 (rank x + rank y) (rank x' + rank y')
                  ltac:(zlia) ltac:(zlia)).
    zlia.
Qed.


(** ** Primitive floats through their specification *)

(** The primitive operations are those of [SpecFloat] ([mul_spec],
    [add_spec], [div_spec], ...); the conversions of the script are stated
    on [Prim2SF]. *)

Lemma valid_encode (s : bool) (N : Z) :
  0 <= N -> fits N -> valid_binary (encode s N) = true.
Proof.
  intros HN Hrp. destruct (Z_lt_le_dec N (2 ^ 2098)) as [Hlt | Hge].
  - apply Zle_lt_or_eq in HN. destruct HN as [HN | <-]; [| reflexivity].
    destruct (encode_finite s N ltac:(zlia) Hrp) as (m & e & -> & Hb & _).
    exact Hb.
  - rewrite encode_overflow by assumption. reflexivity.
Qed.

Lemma Prim2SF_mul (x y : float) :
  Prim2SF (x * y)%float = SFmul prec emax (Prim2SF x) (Prim2SF y).
Proof. apply mul_spec. Qed.

Lemma Prim2SF_add (x y : float) :
  Prim2SF (x + y)%float = SFadd prec emax (Prim2SF x) (Prim2SF y).
Proof. apply add_spec. Qed.

Lemma Prim2SF_div (x y : float) :
  Prim2SF (x / y)%float = SFdiv prec emax (Prim2SF x) (Prim2SF y).
Proof. apply div_spec. Qed.

Lemma Ok_inj {A : Type} (a b : A) : Ok a = Ok b -> a = b.
Proof. intros H. now injection H. Qed.

(** The float of an int is the rounding of its magnitude, with its sign. *)
Lemma float_of_int_spec (z : Z) (g : float) :
  float_of_int z = Ok g ->
  Prim2SF g = encode (z <? 0) (rnd 1074 (Z.abs z * 2 ^ 1074)) /\
  rnd 1074 (Z.abs z * 2 ^ 1074) < 2 ^ 2098.
Proof.
  unfold float_of_int. rewrite binary_normalize_rnd.
  set (N := rnd 1074 (Z.abs z * 2 ^ 1074)).
  assert (HV : 0 <= Z.abs z * 2 ^ 1074).
  { pose proof (pow2_pos 1074 ltac:(zlia)). znia. }
  assert (HN : 0 <= N) by (apply rnd_nonneg; zlia).
  assert (Hrp : fits N) by (apply fits_rnd; zlia).
  pose proof (valid_encode (z <? 0) N HN Hrp) as Hvalid.
  destruct (Z_lt_le_dec N (2 ^ 2098)) as [Hlt | Hge].
  - intros H. split; [| assumption].
    destruct (encode (z <? 0) N) eqn:Emk;
      try (apply Ok_inj in H; subst g; now apply Prim2SF_SF2Prim).
    apply Zle_lt_or_eq in HN. destruct HN as [HN | HN].
    + destruct (encode_finite (z <? 0) N ltac:(zlia) Hrp) as (m & e & Hm & _).
      rewrite Hm in Emk. discriminate Emk.
    + rewrite <- HN in Emk. discriminate Emk.
  - rewrite encode_overflow by assumption. intros H. discriminate H.
Qed.

Lemma rnd_pow2 (u a : Z) :
  1074 <= u -> 0 <= a - (u - 1074) -> rnd u (2 ^ a) = 2 ^ (a - (u - 1074)).
Proof.
  intros Hu Ha.
  replace (2 ^ a) with (2 ^ (a - (u - 1074)) * 2 ^ (u - 1074))
    by (rewrite <- Z.pow_add_r by zlia; f_equal; zlia).
  pose proof (pow2_pos (a - (u - 1074)) Ha).
  replace u with (1074 + (u - 1074)) at 1 by zlia.
  rewrite rnd_scale by zlia.
  apply rnd_exact; [zlia |].
  unfold fits. rewrite Zdigits2_pow2 by zlia.
  set (t := Z.max 0 (a - (u - 1074) + 1 - 53)).
  replace (a - (u - 1074)) with ((a - (u - 1074) - t) + t) by zlia.
  rewrite Z.pow_add_r by zlia. apply Z.mod_mul. apply Z.pow_nonzero; zlia.
Qed.

(** The float of a positive int is at least [1.0]. *)
Lemma float_of_int_pos (z : Z) (g : float) :
  0 < z -> float_of_int z = Ok g ->
  nonneg_float (Prim2SF g) /\ is_inf (Prim2SF g) = false /\
  rank (Prim2SF g) = rnd 1074 (z * 2 ^ 1074) /\
  2 ^ 1074 <= rank (Prim2SF g).
Proof.
  intros Hz H. apply float_of_int_spec in H. destruct H as [HP Hlt].
  replace (Z.abs z) with z in * by zlia.
  replace (z <? 0) with false in HP by (symmetry; apply Z.ltb_ge; zlia).
  pose proof (pow2_pos 1074 ltac:(zlia)) as H2.
  assert (HV : 0 <= z * 2 ^ 1074) by znia.
  pose proof (rnd_nonneg 1074 ltac:(zlia) _ HV) as HN.
  pose proof (fits_rnd 1074 _ ltac:(zlia) HV) as Hrp.
  pose proof (rank_encode false _ HN Hrp) as Hrank.
  rewrite HP.
  assert (Hr : rank (encode false (rnd 1074 (z * 2 ^ 1074))) = rnd 1074 (z * 2 ^ 1074))
    by zlia.
  split; [now apply nonneg_encode | split; [| split; [exact Hr |]]].
  - apply is_inf_rank; [now apply nonneg_encode | zlia].
  - rewrite Hr.
    pose proof (rnd_mono 1074 ltac:(zlia) (2 ^ 1074) (z * 2 ^ 1074) ltac:(znia)).
    rewrite (rnd_pow2 1074 1074) in H by zlia.
    replace (1074 - (1074 - 1074)) with 1074 in H by zlia. exact H.
Qed.

Lemma float_of_int_mono (z z' : Z) (g g' : float) :
  0 < z <= z' -> float_of_int z = Ok g -> float_of_int z' = Ok g' ->
  rank (Prim2SF g) <= rank (Prim2SF g').
Proof.
  intros [Hz Hzz] Hg Hg'.
  destruct (float_of_int_pos z g Hz Hg) as (_ & _ & -> & _).
  destruct (float_of_int_pos z' g' ltac:(zlia) Hg') as (_ & _ & -> & _).
  pose proof (pow2_pos 1074 ltac:(zlia)).
  apply rnd_mono; [zlia | znia].
Qed.


(** ** The constants of the script *)

Lemma Prim2SF_1_2 : Prim2SF 1.2 = sf_1_2.
Proof. reflexivity. Qed.
Lemma Prim2SF_2 : Prim2SF 2 = sf_2.
Proof. reflexivity. Qed.
Lemma Prim2SF_3 : Prim2SF 3 = sf_3.
Proof. reflexivity. Qed.
Lemma Prim2SF_0_1 : Prim2SF 0.1 = sf_0_1.
Proof. reflexivity. Qed.
Lemma Prim2SF_MiB : Prim2SF 1048576 = sf_MiB.
Proof. reflexivity. Qed.

Lemma units_2 : units sf_2 = 2 ^ 1075.
Proof.
  unfold sf_2, units. change 4503599627370496 with (2 ^ 52).
  rewrite <- Z.pow_add_r by zlia. reflexivity.
Qed.

Lemma units_3 : units sf_3 = 3 * 2 ^ 1074.
Proof.
  unfold sf_3, units. change 6755399441055744 with (3 * 2 ^ 51).
  rewrite <- Z.mul_assoc, <- Z.pow_add_r by zlia. reflexivity.
Qed.

Lemma units_1_2_lower : 2 ^ 1074 <= units sf_1_2.
Proof.
  unfold sf_1_2, units. change (-52 + 1074) with 1022.
  replace (2 ^ 1074) with (2 ^ 52 * 2 ^ 1022)
    by (rewrite <- Z.pow_add_r by zlia; reflexivity).
  apply Z.mul_le_mono_nonneg_r; [apply Z.pow_nonneg; zlia |].
  change (2 ^ 52) with 4503599627370496. zlia.
Qed.

(** Division by [1048576.0] of a normal float well above the subnormal
    range only lowers the exponent by 20. *)
Lemma SFdiv_MiB (s : bool) (m : positive) (e : Z) :
  bounded prec emax m e = true -> Zdigits2 (Zpos m) = 53 -> -1053 <= e ->
  SFdiv prec emax (S754_finite s m e) sf_MiB = S754_finite s m (e - 20).
Proof.
  intros Hb Hd He.
  assert (Hb' : bounded prec emax m (e - 20) = true).
  { apply bounded_spec in Hb. apply bounded_spec. zlia. }
  unfold sf_MiB. cbn [SFdiv]. unfold SFdiv_core_binary.
  rewrite Hd. change (Zdigits2 4503599627370496) with 53.
  rewrite fexp64.
  replace (Z.min (Z.max (53 + e - (53 + -32) - 53) (-1074)) (e - -32))
    with (e - 21) by zlia.
  replace (e - -32 - (e - 21)) with 53 by zlia.
  rewrite Z.shiftl_mul_pow2 by zlia.
  assert (Hq : Z.div_eucl (Zpos m * 2 ^ 53) 4503599627370496
               = (2 * Zpos m, 0)).
  { pose proof (Z.div_eucl_eq (Zpos m * 2 ^ 53) 4503599627370496 ltac:(zlia))
      as Heq.
    pose proof (Z.mod_pos_bound (Zpos m * 2 ^ 53) 4503599627370496 ltac:(zlia))
      as Hmod.
    unfold Z.modulo in Hmod.
    destruct (Z.div_eucl (Zpos m * 2 ^ 53) 4503599627370496) as [q r].
    change (2 ^ 53) with (2 * 4503599627370496) in Heq.
    f_equal; znia. }
  rewrite Hq. cbn [new_location Z.even new_location_even Z.eqb].
  rewrite xorb_false_r.
  rewrite (binary_round_aux_rnd _ _ _ 2148); try zlia.
  - rewrite <- (encode_units s m (e - 20) Hb'). f_equal. cbn [units].
    replace (2 * Zpos m * 2 ^ (e - 21 + 2148))
      with (Zpos m * 2 ^ (e - 20 + 1074) * 2 ^ 1074).
    2:{ rewrite <- !Z.mul_assoc, <- Z.pow_add_r by zlia.
        replace (e - 21 + 2148) with (e - 20 + 1074 + 1074 - 1) by zlia.
        rewrite (Z.mul_comm 2), <- Z.mul_assoc. f_equal.
        rewrite <- (Z.pow_1_r 2) at 3. rewrite <- Z.pow_add_r by zlia.
        f_equal. zlia. }
    change 2148 with (1074 + 1074).
    pose proof (units_bounded s m (e - 20) Hb') as ([Hpos _] & _ & Hrp).
    cbn [units] in Hpos, Hrp.
    rewrite rnd_scale by zlia. now apply rnd_exact.
  - rewrite fexp64.
    replace (Zdigits2 (2 * Zpos m)) with 54; [zlia |].
    symmetry. replace (2 * Zpos m) with (Zpos m * 2 ^ 1) by zlia.
    rewrite Zdigits2_mul_pow2 by zlia. zlia.
Qed.


(** ** The frame size *)

(** [frame_size] is [+0], an infinity, or a normal float of exponent
    between -72 and 951: far from the subnormal range, and far enough from
    overflow for its double to be finite. *)

Lemma normal_of_lower (s : bool) (m : positive) (e : Z) :
  bounded prec emax m e = true -> 2 ^ 1074 <= units (S754_finite s m e) ->
  Zdigits2 (Zpos m) = 53 /\ -52 <= e.
Proof.
  intros Hb Hlow. apply bounded_spec in Hb. destruct Hb as [Hc He].
  cbn [units] in Hlow.
  pose proof (Zdigits2_bounds (Zpos m) ltac:(zlia)) as [_ Hhi].
  pose proof (Zdigits2_pos (Zpos m) ltac:(zlia)) as Hd.
  assert (He52 : -52 <= e).
  { destruct (Z_lt_le_dec e (-52)) as [Hlt | Hge]; [| assumption].
    exfalso.
    pose proof (pow2_le (Zdigits2 (Zpos m)) 53 ltac:(zlia)) as H53.
    pose proof (pow2_pos (e + 1074) ltac:(zlia)) as HP.
    assert (Zpos m * 2 ^ (e + 1074) < 2 ^ 53 * 2 ^ (e + 1074))
      by (apply Z.mul_lt_mono_pos_r; zlia).
    rewrite <- Z.pow_add_r in H by zlia.
    pose proof (pow2_le (53 + (e + 1074)) 1074 ltac:(zlia)). zlia. }
  split; zlia.
Qed.

(** The three shapes of a frame size: [+0] for an empty frame, an infinity
    when [width * height * 3 * 1.2] overflows, and otherwise a normal float
    between [2^-20] and [2^1004]. *)
Lemma frame_size_sf (w h : Z) (f : float) :
  frame_size w h = Ok f ->
  (w * h * 3 = 0 /\ Prim2SF f = S754_zero false) \/
  (w * h * 3 <> 0 /\ Prim2SF f = S754_infinity (w * h * 3 <? 0)) \/
  (w * h * 3 <> 0 /\
   exists m e, Prim2SF f = S754_finite (w * h * 3 <? 0) m e /\
               bounded prec emax m e = true /\
               Zdigits2 (Zpos m) = 53 /\ -72 <= e <= 951).
Proof.
  intros H. apply frame_size_Ok in H. destruct H as (x & Hx & ->).
  apply float_of_int_spec in Hx. destruct Hx as [Hx Hlt].
  rewrite Prim2SF_div, Prim2SF_mul, Hx, Prim2SF_1_2, Prim2SF_MiB.
  set (X := w * h * 3) in *. set (s := X <? 0) in *.
  destruct (Z.eq_dec X 0) as [HX | HX].
  - left. split; [assumption |]. unfold s. rewrite HX. reflexivity.
  - right.
    pose proof (pow2_pos 1074 ltac:(zlia)) as H2.
    set (N0 := rnd 1074 (Z.abs X * 2 ^ 1074)) in *.
    assert (HN0 : 2 ^ 1074 <= N0).
    { pose proof (rnd_mono 1074 ltac:(zlia) (2 ^ 1074) (Z.abs X * 2 ^ 1074)
                    ltac:(znia)) as Hm.
      rewrite (rnd_pow2 1074 1074) in Hm by zlia.
      replace (1074 - (1074 - 1074)) with 1074 in Hm by zlia. exact Hm. }
    assert (Hrp0 : fits N0) by (apply fits_rnd; znia).
    destruct (encode_finite s N0 ltac:(zlia) Hrp0) as (m0 & e0 & -> & Hb0 & Hi0).
    unfold sf_1_2. rewrite SFmul_finite by (assumption || reflexivity).
    rewrite xorb_false_r, Hi0. fold sf_1_2.
    set (N1 := rnd 2148 (N0 * units sf_1_2)).
    assert (HV1 : 2 ^ 1074 * 2 ^ 1074 <= N0 * units sf_1_2).
    { pose proof units_1_2_lower. znia. }
    assert (HN1 : 2 ^ 1074 <= N1).
    { pose proof (rnd_mono 2148 ltac:(zlia) (2 ^ 1074 * 2 ^ 1074)
                    (N0 * units sf_1_2) ltac:(znia)) as Hm.
      rewrite <- Z.pow_add_r in Hm at 1 by zlia.
      rewrite (rnd_pow2 2148 (1074 + 1074)) in Hm by zlia.
      replace (1074 + 1074 - (2148 - 1074)) with 1074 in Hm by zlia. exact Hm. }
    assert (Hrp1 : fits N1) by (apply fits_rnd; znia).
    destruct (Z_lt_le_dec N1 (2 ^ 2098)) as [Hfin | Hinf].
    + right. split; [assumption |].
      destruct (encode_finite s N1 ltac:(zlia) Hrp1) as (m1 & e1 & -> & Hb1 & Hi1).
      rewrite <- Hi1 in HN1.
      destruct (normal_of_lower s m1 e1 Hb1 HN1) as [Hd1 He1].
      rewrite SFdiv_MiB by (assumption || zlia).
      exists m1, (e1 - 20).
      pose proof Hb1 as Hb1'. apply bounded_spec in Hb1'.
      split; [reflexivity | split; [apply bounded_spec; zlia | split; zlia]].
    + left. split; [assumption |].
      rewrite encode_overflow by assumption. unfold sf_MiB. cbn [SFdiv].
      now rewrite xorb_false_r.
Qed.


(** ** The chunk peak *)

(** [peak_chunk_mb] is a composition of monotone operations of the float
    of the chunk size. *)

Lemma posfin_finite (m : positive) (e : Z) :
  bounded prec emax m e = true -> posfin (S754_finite false m e).
Proof.
  intros Hb. pose proof (units_bounded false m e Hb) as ([Hpos _] & _).
  repeat split; assumption.
Qed.

Lemma posfin_2 : posfin sf_2.
Proof. now apply posfin_finite. Qed.

Lemma posfin_0_1 : posfin sf_0_1.
Proof. now apply posfin_finite. Qed.

Lemma SFmul_posfin (x y : spec_float) :
  nonneg_float x -> posfin y -> nonneg_float (SFmul prec emax x y).
Proof.
  intros Hx (Hy & Hi & Hr).
  apply SFmul_nonneg; try assumption; [auto | rewrite Hi; discriminate].
Qed.

Lemma SFmul_posfin_mono (x x' y y' : spec_float) :
  nonneg_float x -> nonneg_float x' -> posfin y -> posfin y' ->
  rank x <= rank x' -> rank y <= rank y' ->
  rank (SFmul prec emax x y) <= rank (SFmul prec emax x' y').
Proof.
  intros Hx Hx' (Hy & Hi & Hr) (Hy' & Hi' & Hr') Hxx Hyy.
  apply SFmul_mono; try assumption; auto;
    intros Hc; rewrite ?Hi, ?Hi' in Hc; discriminate.
Qed.

Lemma SFadd_nonneg_float (x y : spec_float) :
  nonneg_float x -> nonneg_float y -> nonneg_float (SFadd prec emax x y).
Proof. intros Hx Hy. now apply SFadd_nonneg. Qed.

Lemma Prim2SF_peak (f c : float) :
  Prim2SF (f * c + f * 2 * c + f * 2 * c * 0.1)%float
  = peak_sf (Prim2SF f) (Prim2SF c).
Proof.
  unfold peak_sf.
  now rewrite !Prim2SF_add, !Prim2SF_mul, Prim2SF_2, Prim2SF_0_1.
Qed.

Lemma peak_sf_nonneg (F C : spec_float) :
  nonneg_float F -> posfin C -> nonneg_float (peak_sf F C).
Proof.
  intros HF HC. unfold peak_sf.
  repeat (apply SFadd_nonneg_float || apply SFmul_posfin);
    auto using posfin_2, posfin_0_1.
Qed.

Lemma peak_sf_mono (F C C' : spec_float) :
  nonneg_float F -> posfin C -> posfin C' -> rank C <= rank C' ->
  rank (peak_sf F C) <= rank (peak_sf F C').
Proof.
  intros HF HC HC' Hle. unfold peak_sf.
  pose proof posfin_2 as H2. pose proof posfin_0_1 as H01.
  assert (HF2 : nonneg_float (SFmul prec emax F sf_2))
    by now apply SFmul_posfin.
  assert (Ha : rank (SFmul prec emax F C) <= rank (SFmul prec emax F C'))
    by (apply SFmul_posfin_mono; auto; zlia).
  assert (Hb : rank (SFmul prec emax (SFmul prec emax F sf_2) C)
               <= rank (SFmul prec emax (SFmul prec emax F sf_2) C'))
    by (apply SFmul_posfin_mono; auto; zlia).
  apply SFadd_mono;
    repeat (apply SFadd_nonneg_float || apply SFmul_posfin); auto.
  - apply SFadd_mono; repeat (apply SFmul_posfin); auto.
  - apply SFmul_posfin_mono; repeat (apply SFmul_posfin); auto. zlia.
Qed.

Lemma float_of_int_posfin (z : Z) (g : float) :
  0 < z -> float_of_int z = Ok g -> posfin (Prim2SF g).
Proof.
  intros Hz H. destruct (float_of_int_pos z g Hz H) as (Hn & Hi & _ & Hr).
  pose proof (pow2_pos 1074 ltac:(zlia)).
  repeat split; (assumption || zlia).
Qed.

Lemma frame_size_nonneg (w h : Z) (f : float) :
  0 < w -> 0 < h -> frame_size w h = Ok f ->
  nonneg_float (Prim2SF f) /\ 0 < rank (Prim2SF f).
Proof.
  intros Hw Hh H.
  assert (HX : 0 < w * h * 3) by znia.
  assert (Hs : (w * h * 3 <? 0) = false) by (apply Z.ltb_ge; zlia).
  destruct (frame_size_sf w h f H)
    as [[H0 _] | [[_ ->] | (_ & m & e & -> & Hb & _)]]; [zlia | |];
    rewrite Hs.
  - split; [reflexivity |]. cbn [rank]. apply pow2_pos; zlia.
  - pose proof (units_bounded false m e Hb) as ([Hpos _] & _).
    split; [split; [reflexivity | assumption] | assumption].
Qed.

Lemma ceil_div_mono (n c1 c2 : Z) :
  0 <= n -> 1 <= c2 <= c1 -> (n + c1 - 1) / c1 <= (n + c2 - 1) / c2.
Proof.
  intros Hn Hc.
  pose proof (Z.div_mod (n + c1 - 1) c1 ltac:(zlia)) as E1.
  pose proof (Z.mod_pos_bound (n + c1 - 1) c1 ltac:(zlia)) as B1.
  pose proof (Z.div_mod (n + c2 - 1) c2 ltac:(zlia)) as E2.
  pose proof (Z.mod_pos_bound (n + c2 - 1) c2 ltac:(zlia)) as B2.
  assert (0 <= (n + c2 - 1) / c2) by (apply Z.div_pos; zlia).
  znia.
Qed.


(** ** The number of frames *)

(** For positive [fps] and [duration_seconds] the product is nonnegative,
    so [int()] of it is its floor, and is nonnegative. *)

Lemma positive_float_sf (g : float) :
  (0 <? g)%float = true ->
  nonneg_float (Prim2SF g) /\ 0 < rank (Prim2SF g).
Proof.
  rewrite ltb_spec. change (Prim2SF 0) with (S754_zero false).
  pose proof (Prim2SF_valid g) as Hv.
  destruct (Prim2SF g) as [s | s | | s m e]; unfold SFltb; cbn [SFcompare];
    try discriminate; destruct s; try discriminate; intros _.
  - split; [reflexivity |]. cbn [rank]. apply pow2_pos; zlia.
  - cbn [valid_binary] in Hv.
    pose proof (units_bounded false m e Hv) as ([Hpos _] & _).
    split; [split; [reflexivity | assumption] | assumption].
Qed.

Lemma int_of_float_nonneg (p : float) (n : Z) :
  nonneg_float (Prim2SF p) -> int_of_float p = Ok n -> 0 <= n.
Proof.
  unfold int_of_float.
  destruct (Prim2SF p) as [s | s | | s m e]; cbn [nonneg_float];
    intros Hn H; try discriminate H; apply Ok_inj in H; subst n.
  - zlia.
  - destruct Hn as [-> _]. cbn [cond_Zopp]. apply Z.shiftl_nonneg. zlia.
Qed.

Lemma py_mul_positive (a b p : num) :
  num_positive a -> num_positive b -> py_mul a b = Ok p ->
  match p with
  | PyInt z => 0 < z
  | PyFloat g => nonneg_float (Prim2SF g)
  end.
Proof.
  destruct a as [x | f], b as [y | g]; cbn [num_positive py_mul];
    intros Ha Hb H.
  - apply Ok_inj in H. subst p. znia.
  - apply bind_Ok in H. destruct H as (fx & Hfx & H).
    apply Ok_inj in H. subst p. rewrite Prim2SF_mul.
    destruct (positive_float_sf g Hb) as [Hg Hrg].
    destruct (float_of_int_posfin x fx Ha Hfx) as (Hx & Hix & Hrx).
    apply SFmul_nonneg; auto; rewrite Hix; discriminate.
  - apply bind_Ok in H. destruct H as (gy & Hgy & H).
    apply Ok_inj in H. subst p. rewrite Prim2SF_mul.
    destruct (positive_float_sf f Ha) as [Hf Hrf].
    apply SFmul_posfin; [assumption |].
    now apply (float_of_int_posfin y).
  - apply Ok_inj in H. subst p. rewrite Prim2SF_mul.
    destruct (positive_float_sf f Ha) as [Hf Hrf].
    destruct (positive_float_sf g Hb) as [Hg Hrg].
    apply SFmul_nonneg; auto.
Qed.

Lemma total_frames_nonneg (a b p : num) (n : Z) :
  num_positive a -> num_positive b ->
  py_mul a b = Ok p -> py_int p = Ok n -> 0 <= n.
Proof.
  intros Ha Hb Hp Hn. pose proof (py_mul_positive a b p Ha Hb Hp) as H.
  destruct p as [z | g]; cbn [py_int] in Hn.
  - apply Ok_inj in Hn. zlia.
  - now apply (int_of_float_nonneg g).
Qed.

(** [int()] of a nonnegative float is the floor of its value. *)
Lemma int_of_float_floor (p : float) (n : Z) :
  nonneg_float (Prim2SF p) -> int_of_float p = Ok n ->
  option_map Qfloor (Q_of_float p) = Some n.
Proof.
  unfold int_of_float, Q_of_float.
  destruct (Prim2SF p) as [s | s | | s m e]; cbn [nonneg_float];
    intros Hn H; try discriminate H; apply Ok_inj in H; subst n.
  - reflexivity.
  - destruct Hn as [-> _]. cbn [cond_Zopp SF2Q option_map]. f_equal.
    destruct e as [| q | q]; cbn [Qfloor].
    + rewrite Z.shiftl_0_r. apply Z.div_1_r.
    + rewrite Z.shiftl_mul_pow2 by zlia.
      rewrite Z.div_1_r, Pos2Z.inj_mul, Pos2Z.inj_pow. reflexivity.
    + change (Z.shiftl (Zpos m) (Zneg q)) with (Z.shiftr (Zpos m) (Zpos q)).
      rewrite Z.shiftr_div_pow2 by zlia.
      rewrite Pos2Z.inj_pow. reflexivity.
Qed.

Lemma py_int_floor (a b p : num) (n : Z) :
  num_positive a -> num_positive b ->
  py_mul a b = Ok p -> py_int p = Ok n -> num_floor p = Some n.
Proof.
  intros Ha Hb Hp Hn. pose proof (py_mul_positive a b p Ha Hb Hp) as H.
  destruct p as [z | g]; cbn [py_int num_floor] in *.
  - now rewrite (Ok_inj _ _ Hn).
  - now apply int_of_float_floor.
Qed.


(** ** Zero frames *)

(** With no frame the float of [total_chunks] is [+0]: the products by it
    vanish as long as the other factor is finite. *)

Lemma inf_of_rank (x : spec_float) :
  nonneg_float x -> rank x = 2 ^ 2098 -> is_inf x = true.
Proof.
  intros Hx Hr. destruct (is_inf x) eqn:Hi; [reflexivity |].
  destruct (rank_finite x Hx Hi) as [Hlt _]. zlia.
Qed.

Lemma SFmul_not_inf (x y : spec_float) :
  nonneg_float x -> posfin y ->
  is_inf (SFmul prec emax x y) = false -> is_inf x = false.
Proof.
  intros Hx (Hy & Hiy & Hry) Hi.
  destruct (SFmul_nonneg x y Hx Hy) as [Hn Hr];
    [auto | rewrite Hiy; discriminate |].
  destruct (is_inf x) eqn:Hix; [| reflexivity].
  cbn [orb] in Hr. rewrite (inf_of_rank _ Hn Hr) in Hi. discriminate Hi.
Qed.

Lemma SFadd_not_inf (x y : spec_float) :
  nonneg_float x -> nonneg_float y ->
  is_inf (SFadd prec emax x y) = false ->
  is_inf x = false /\ is_inf y = false.
Proof.
  intros Hx Hy Hi. destruct (SFadd_nonneg x y Hx Hy) as [Hn Hr].
  destruct (is_inf x || is_inf y) eqn:Hxy.
  - rewrite (inf_of_rank _ Hn Hr) in Hi. discriminate Hi.
  - now apply orb_false_iff in Hxy.
Qed.

Lemma SFmul_zero_r (x : spec_float) :
  nonneg_float x -> is_inf x = false ->
  SFmul prec emax x (S754_zero false) = S754_zero false.
Proof.
  destruct x as [s | s | | s m e]; cbn [nonneg_float is_inf];
    intros Hx Hi; try discriminate; try contradiction.
  - subst s. reflexivity.
  - destruct Hx as [-> _]. reflexivity.
Qed.

Lemma SFadd_rank_ge_l (x y : spec_float) :
  nonneg_float x -> nonneg_float y -> rank x <= rank (SFadd prec emax x y).
Proof.
  intros Hx Hy. destruct (SFadd_nonneg x y Hx Hy) as [_ ->].
  pose proof (rank_le_top x Hx) as Hle.
  destruct (is_inf x || is_inf y) eqn:Hxy; [assumption |].
  apply orb_false_iff in Hxy. destruct Hxy as [Hix Hiy].
  destruct (rank_finite x Hx Hix) as [Hlt Hrp].
  pose proof (rank_nonneg x). pose proof (rank_nonneg y).
  pose proof (rnd_mono0 1074 (rank x) (rank x + rank y) ltac:(zlia) ltac:(zlia))
    as Hm.
  assert (Hex : rnd 1074 (rank x) = rank x).
  { destruct (Z.eq_dec (rank x) 0) as [-> | Hnz]; [apply rnd_0 |].
    apply rnd_exact; [zlia | assumption]. }
  zlia.
Qed.

Lemma SFmul_rank_pos (x y : spec_float) :
  nonneg_float x -> 0 < rank x -> posfin y -> 2 ^ 1074 <= rank y ->
  0 < rank (SFmul prec emax x y).
Proof.
  intros Hx Hrx (Hy & Hiy & Hry) Hy1.
  destruct (SFmul_nonneg x y Hx Hy) as [_ ->];
    [auto | rewrite Hiy; discriminate |].
  pose proof (pow2_pos 2098 ltac:(zlia)) as Htop.
  pose proof (pow2_pos 1074 ltac:(zlia)) as H2.
  destruct (is_inf x || is_inf y); [assumption |].
  pose proof (rnd_mono0 2148 (1 * 2 ^ 1074) (rank x * rank y)
                ltac:(zlia) ltac:(znia)) as Hm.
  change 2148 with (1074 + 1074) in Hm at 1.
  rewrite rnd_scale in Hm by zlia.
  rewrite rnd_exact in Hm by (zlia || reflexivity). zlia.
Qed.

Lemma SFltb_zero_pos (x : spec_float) :
  nonneg_float x -> 0 < rank x -> SFltb (S754_zero false) x = true.
Proof.
  destruct x as [s | s | | s m e]; cbn [nonneg_float rank units];
    intros Hx Hr; try contradiction; try zlia.
  - subst s. reflexivity.
  - destruct Hx as [-> _]. reflexivity.
Qed.

Lemma SFltb_nonneg_zero (x : spec_float) :
  nonneg_float x -> SFltb x (S754_zero false) = false.
Proof.
  destruct x as [s | s | | s m e]; cbn [nonneg_float];
    intros Hx; try contradiction.
  - reflexivity.
  - subst s. reflexivity.
  - destruct Hx as [-> _]. reflexivity.
Qed.

Lemma SFltb_inf_not_inf (x : spec_float) :
  nonneg_float x -> SFltb x (S754_infinity false) = true -> is_inf x = false.
Proof.
  destruct x as [s | s | | s m e]; cbn [nonneg_float is_inf];
    intros Hx H; try reflexivity. subst s. discriminate H.
Qed.

Lemma float_of_int_0 : float_of_int 0 = Ok 0%float.
Proof. reflexivity. Qed.

(** The old estimator returns as soon as its conversions do. *)
Lemma old_returns (w h : Z) (fps d p : num) (n : Z) (f t : float) :
  py_mul fps d = Ok p -> py_int p = Ok n -> frame_size w h = Ok f ->
  float_of_int n = Ok t ->
  estimate_storage_old_approach w h fps d
  = Ok (Old.Build n f (f * t) (f * 2 * t) (f * t + f * 2 * t)).
Proof.
  intros Hp Hn Hf Ht. unfold estimate_storage_old_approach.
  rewrite Hp. cbn [bind]. rewrite Hn. cbn [bind]. rewrite Hf. cbn [bind].
  unfold float_mul_int. rewrite Ht, float_of_int_2. reflexivity.
Qed.


(** ** The old estimator: doubling and tripling *)

(** In the normal range rounding commutes with doubling, so
    [(f * 2) * n] is twice [f * n]; and the exact sum of a float and its
    double is three times the float, which [3 * e] rounds as well. *)

Lemma rnd_double (u V : Z) :
  1074 <= u -> 0 < V -> -1074 <= Zdigits2 V - u - 53 ->
  rnd u (2 * V) = 2 * rnd u V.
Proof.
  intros Hu HV Hn. unfold rnd. rewrite !fexp64.
  replace (2 * V) with (V * 2 ^ 1) by zlia.
  rewrite Zdigits2_mul_pow2 by zlia.
  replace (Z.max (Zdigits2 V + 1 - u - 53) (-1074))
    with (Zdigits2 V - u - 53 + 1) by zlia.
  replace (Z.max (Zdigits2 V - u - 53) (-1074))
    with (Zdigits2 V - u - 53) by zlia.
  set (E := Zdigits2 V - u - 53) in *.
  replace (E + 1 + u) with (E + u + 1) by zlia.
  rewrite nearest_even_scale by zlia.
  replace (E + 1 + 1074) with (E + 1074 + 1) by zlia.
  rewrite Z.pow_add_r by zlia. zlia.
Qed.

Lemma fits_double (R : Z) : 0 < R -> fits R -> fits (2 * R).
Proof.
  intros HR Hrp. unfold fits in *.
  replace (2 * R) with (R * 2 ^ 1) by zlia.
  rewrite Zdigits2_mul_pow2 by zlia.
  pose proof (Zdigits2_pos R HR) as Hd.
  set (d := Zdigits2 R) in *.
  apply Z.mod_divide in Hrp; [| apply Z.pow_nonzero; zlia].
  destruct Hrp as [M HM].
  destruct (Z_lt_le_dec d 53) as [Hlt | Hge].
  - replace (Z.max 0 (d + 1 - 53)) with 0 by zlia. apply Z.mod_1_r.
  - replace (Z.max 0 (d + 1 - 53)) with (Z.max 0 (d - 53) + 1) by zlia.
    rewrite HM, <- Z.mul_assoc, <- Z.pow_add_r by zlia.
    apply Z.mod_mul. apply Z.pow_nonzero; zlia.
Qed.

Lemma bounded_2 : bounded prec emax 4503599627370496 (-51) = true.
Proof. reflexivity. Qed.

Lemma bounded_3 : bounded prec emax 6755399441055744 (-51) = true.
Proof. reflexivity. Qed.

(** Doubling a float is exact (up to overflow). *)
Lemma SFmul_2_encode (s : bool) (R : Z) :
  0 < R -> fits R -> SFmul prec emax sf_2 (encode s R) = encode s (2 * R).
Proof.
  intros HR Hrp. destruct (Z_lt_le_dec R (2 ^ 2098)) as [Hlt | Hge].
  - destruct (encode_finite s R ltac:(zlia) Hrp) as (m & e & -> & Hb & Hi).
    unfold sf_2. rewrite SFmul_finite by (assumption || reflexivity).
    fold sf_2. rewrite units_2, Hi. cbn [xorb]. f_equal.
    replace (2 ^ 1075 * R) with (2 * R * 2 ^ 1074)
      by (change 1075 with (1 + 1074); rewrite Z.pow_add_r by zlia; zlia).
    change 2148 with (1074 + 1074).
    rewrite rnd_scale by zlia. apply rnd_exact; [zlia | now apply fits_double].
  - rewrite !encode_overflow by zlia. reflexivity.
Qed.

Lemma SFmul_encode_2 (s : bool) (R : Z) :
  0 < R -> fits R -> SFmul prec emax (encode s R) sf_2 = encode s (2 * R).
Proof.
  intros HR Hrp. destruct (Z_lt_le_dec R (2 ^ 2098)) as [Hlt | Hge].
  - destruct (encode_finite s R ltac:(zlia) Hrp) as (m & e & -> & Hb & Hi).
    unfold sf_2. rewrite SFmul_finite by (assumption || reflexivity).
    fold sf_2. rewrite units_2, Hi, xorb_false_r. f_equal.
    replace (R * 2 ^ 1075) with (2 * R * 2 ^ 1074)
      by (change 1075 with (1 + 1074); rewrite Z.pow_add_r by zlia; zlia).
    change 2148 with (1074 + 1074).
    rewrite rnd_scale by zlia. apply rnd_exact; [zlia | now apply fits_double].
  - rewrite !encode_overflow by zlia. cbn [SFmul sf_2]. now rewrite xorb_false_r.
Qed.

(** Adding a float and its double is multiplying it by three. *)
Lemma SFadd_double_triple (s : bool) (R : Z) :
  0 < R -> fits R ->
  SFadd prec emax (encode s R) (encode s (2 * R)) = SFmul prec emax sf_3 (encode s R).
Proof.
  intros HR Hrp. pose proof (fits_double R HR Hrp) as Hrp2.
  assert (Htriple : forall m e,
             bounded prec emax m e = true -> units (S754_finite s m e) = R ->
             SFmul prec emax sf_3 (S754_finite s m e)
             = encode s (rnd 1074 (3 * R))).
  { intros m e Hb Hi. unfold sf_3.
    rewrite SFmul_finite by (assumption || reflexivity).
    fold sf_3. rewrite units_3, Hi. cbn [xorb]. f_equal.
    replace (3 * 2 ^ 1074 * R) with (3 * R * 2 ^ 1074) by zlia.
    change 2148 with (1074 + 1074). apply rnd_scale; zlia. }
  destruct (Z_lt_le_dec R (2 ^ 2098)) as [Hlt | Hge].
  - destruct (encode_finite s R ltac:(zlia) Hrp) as (m & e & -> & Hb & Hi).
    rewrite (Htriple m e Hb Hi).
    destruct (Z_lt_le_dec (2 * R) (2 ^ 2098)) as [Hlt2 | Hge2].
    + destruct (encode_finite s (2 * R) ltac:(zlia) Hrp2)
        as (m' & e' & -> & Hb' & Hi').
      rewrite SFadd_finite by assumption. rewrite Hi, Hi'.
      f_equal. f_equal. zlia.
    + rewrite (encode_overflow s (2 * R)) by assumption. cbn [SFadd].
      rewrite encode_overflow; [reflexivity |].
      pose proof (rnd_mono 1074 ltac:(zlia) (2 ^ 2098) (3 * R)
                    ltac:(pose proof (pow2_pos 2098 ltac:(zlia)); zlia)) as Hm.
      rewrite (rnd_pow2 1074 2098) in Hm by zlia.
      replace (2098 - (1074 - 1074)) with 2098 in Hm by zlia. exact Hm.
  - rewrite !encode_overflow by zlia. destruct s; reflexivity.
Qed.

(** The two shapes of the float of an int that converts. *)
Lemma float_of_int_sf (n : Z) (t : float) :
  float_of_int n = Ok t ->
  (n = 0 /\ Prim2SF t = S754_zero false) \/
  (n <> 0 /\
   exists m e, Prim2SF t = S754_finite (n <? 0) m e /\
               bounded prec emax m e = true /\
               2 ^ 1074 <= units (S754_finite (n <? 0) m e)).
Proof.
  intros H. apply float_of_int_spec in H. destruct H as [-> Hlt].
  destruct (Z.eq_dec n 0) as [-> | Hn]; [left; split; reflexivity | right].
  split; [assumption |].
  pose proof (pow2_pos 1074 ltac:(zlia)) as H2.
  set (N := rnd 1074 (Z.abs n * 2 ^ 1074)) in *.
  assert (HN : 2 ^ 1074 <= N).
  { pose proof (rnd_mono 1074 ltac:(zlia) (2 ^ 1074) (Z.abs n * 2 ^ 1074)
                  ltac:(znia)) as Hm.
    rewrite (rnd_pow2 1074 1074) in Hm by zlia.
    replace (1074 - (1074 - 1074)) with 1074 in Hm by zlia. exact Hm. }
  assert (Hrp : fits N) by (apply fits_rnd; znia).
  destruct (encode_finite (n <? 0) N ltac:(zlia) Hrp) as (m & e & -> & Hb & Hi).
  exists m, e. rewrite Hi. auto.
Qed.

(** The old estimator's three products, on the specification. *)
Lemma old_products_sf (F T : spec_float) (sF sT : bool) :
  (F = S754_zero false \/ F = S754_infinity sF \/
   exists m e, F = S754_finite sF m e /\ bounded prec emax m e = true /\
               Zdigits2 (Zpos m) = 53 /\ -72 <= e <= 951) ->
  (T = S754_zero false \/
   exists m e, T = S754_finite sT m e /\ bounded prec emax m e = true /\
               2 ^ 1074 <= units (S754_finite sT m e)) ->
  let E := SFmul prec emax F T in
  let S := SFmul prec emax (SFmul prec emax F sf_2) T in
  S = SFmul prec emax sf_2 E /\
  SFadd prec emax E S = SFmul prec emax sf_3 E.
Proof.
  intros HF HT.
  destruct HF as [-> | [-> | (m & e & -> & Hb & Hd & He)]].
  1, 2: destruct HT as [-> | (mt & et & -> & Hbt & Hlow)]; cbv zeta;
    try (destruct sF; split; reflexivity);
    try (destruct sT; split; reflexivity);
    try (destruct sF, sT; split; reflexivity).
  pose proof (units_bounded sF m e Hb) as ([HFpos _] & HFd & HFrp).
  assert (Hb2 : bounded prec emax m (e + 1) = true).
  { apply bounded_spec in Hb. apply bounded_spec. zlia. }
  assert (Hi2 : units (S754_finite sF m (e + 1)) = 2 * units (S754_finite sF m e)).
  { cbn [units]. replace (e + 1 + 1074) with (e + 1074 + 1) by zlia.
    rewrite Z.pow_add_r by zlia. zlia. }
  assert (HF2 : SFmul prec emax (S754_finite sF m e) sf_2
                = S754_finite sF m (e + 1)).
  { rewrite <- (encode_units sF m e Hb) at 1.
    rewrite SFmul_encode_2 by assumption.
    rewrite <- Hi2. now apply encode_units. }
  cbv zeta. rewrite HF2.
  destruct HT as [-> | (mt & et & -> & Hbt & Hlow)].
  { destruct sF; split; reflexivity. }
  pose proof (units_bounded sT mt et Hbt) as ([HTpos _] & _).
  rewrite !SFmul_finite by assumption.
  rewrite Hi2.
  set (Fi := units (S754_finite sF m e)) in *.
  set (Ti := units (S754_finite sT mt et)) in *.
  assert (Hprod : 2 ^ 2128 <= Fi * Ti).
  { assert (HFi : 2 ^ 1054 <= Fi).
    { unfold Fi. cbn [units].
      pose proof (Zdigits2_bounds (Zpos m) ltac:(zlia)) as [Hlo _].
      rewrite Hd in Hlo. change (53 - 1) with 52 in Hlo.
      replace 1054 with (52 + 1002) by zlia. rewrite Z.pow_add_r by zlia.
      pose proof (pow2_le 1002 (e + 1074) ltac:(zlia)).
      pose proof (pow2_pos 1002 ltac:(zlia)).
      pose proof (pow2_pos 52 ltac:(zlia)). znia. }
    replace 2128 with (1054 + 1074) by zlia. rewrite Z.pow_add_r by zlia.
    pose proof (pow2_pos 1054 ltac:(zlia)).
    pose proof (pow2_pos 1074 ltac:(zlia)). znia. }
  pose proof (pow2_pos 2128 ltac:(zlia)) as H2128.
  assert (Hdig : 2129 <= Zdigits2 (Fi * Ti)).
  { pose proof (Zdigits2_mono (2 ^ 2128) (Fi * Ti) ltac:(zlia)) as Hm.
    rewrite Zdigits2_pow2 in Hm by zlia. zlia. }
  replace (2 * Fi * Ti) with (2 * (Fi * Ti)) by zlia.
  rewrite rnd_double by zlia.
  set (R := rnd 2148 (Fi * Ti)).
  assert (HR : 0 < R).
  { pose proof (rnd_mono 2148 ltac:(zlia) (2 ^ 2128) (Fi * Ti) ltac:(zlia)) as Hm.
    rewrite (rnd_pow2 2148 2128) in Hm by zlia.
    pose proof (pow2_pos (2128 - (2148 - 1074)) ltac:(zlia)). fold R in Hm. zlia. }
  assert (HRrp : fits R) by (apply fits_rnd; zlia).
  split.
  - symmetry. now apply SFmul_2_encode.
  - now apply SFadd_double_triple.
Qed.


Lemma Qtrunc_pos (a d : positive) : Qtrunc (Zpos a # d) = Zpos a / Zpos d.
Proof. reflexivity. Qed.

Lemma Qtrunc_neg (a d : positive) :
  Qtrunc (Qopp (Zpos a # d)) = - (Zpos a / Zpos d).
Proof. reflexivity. Qed.

(** [int()] of any finite float is the truncation of its value. *)
Lemma int_of_float_trunc (p : float) (n : Z) :
  int_of_float p = Ok n -> option_map Qtrunc (Q_of_float p) = Some n.
Proof.
  unfold int_of_float, Q_of_float.
  destruct (Prim2SF p) as [s | s | | s m e];
    intros H; try discriminate H; apply Ok_inj in H; subst n.
  - reflexivity.
  - cbn [SF2Q option_map]. f_equal.
    assert (Hq : match e with
                 | 0 => Zpos m / 1
                 | Zpos q => Zpos (m * 2 ^ q) / 1
                 | Zneg q => Zpos m / Zpos (2 ^ q)
                 end = Z.shiftl (Zpos m) e).
    { destruct e as [| q | q].
      - rewrite Z.shiftl_0_r. apply Z.div_1_r.
      - rewrite Z.shiftl_mul_pow2 by zlia.
        rewrite Z.div_1_r, Pos2Z.inj_mul, Pos2Z.inj_pow. reflexivity.
      - change (Z.shiftl (Zpos m) (Zneg q))
          with (Z.shiftr (Zpos m) (Zpos q)).
        rewrite Z.shiftr_div_pow2 by zlia.
        rewrite Pos2Z.inj_pow. reflexivity. }
    rewrite <- Hq.
    destruct s; cbn [cond_Zopp]; destruct e as [| q | q];
      rewrite ?Qtrunc_neg, ?Qtrunc_pos; reflexivity.
Qed.

Lemma py_int_trunc (p : num) (n : Z) :
  py_int p = Ok n -> num_trunc p = Some n.
Proof.
  destruct p as [z | g]; cbn [py_int num_trunc]; intros H.
  - now rewrite (Ok_inj _ _ H).
  - now apply int_of_float_trunc.
Qed.

(** * The claims *)

(** C2, C8 and C10 need the order of floats, the exceptions of the
    estimators and the error of a rounding; they close the file. *)

(** C1: in each of the four scenarios of [print_comparison], for chunk sizes
    100 and 50, both estimators return, the chunked [total_peak_mb] is
    strictly below the old one, and the printed savings percentage
    [(old - new) / old * 100] is strictly positive. *)
Theorem chunked_saves_storage_in_scenarios :
  Forall (fun s =>
    Forall (fun chunk =>
      exists old new,
        estimate_storage_old_approach
          (width s) (height s) (PyInt (fps s)) (PyInt (duration s)) = Ok old /\
        estimate_storage_chunked_approach
          (width s) (height s) (PyInt (fps s)) (PyInt (duration s)) chunk
          = Ok new /\
        (Chunked.total_peak_mb new <? Old.total_peak_mb old)%float = true /\
        (0 <? savings_percent (Old.total_peak_mb old)
                (Chunked.total_peak_mb new))%float = true)
      [100; 50])
    scenarios.
Proof.
  unfold scenarios.
  repeat (apply Forall_cons || apply Forall_nil);
    (eexists; eexists;
     split; [vm_compute; reflexivity |
     split; [vm_compute; reflexivity |
     split; vm_compute; reflexivity]]).
Qed.

(** C3, as stated, fails: for 1920x1080 the frame size is exactly
    7.119140625, which is further than 0.01 from 7.13. *)
Lemma frame_size_1080p_not_within_7_13 :
  exists f q,
    frame_size 1920 1080 = Ok f /\ Q_of_float f = Some q /\
    ~ (Qabs (q - 7.13) <= 0.01)%Q.
Proof.
  eexists. eexists.
  split; [vm_compute; reflexivity |].
  split; [vm_compute; reflexivity |].
  vm_compute. intros H. apply H. reflexivity.
Qed.

(** C3, amended: for width 1920 and height 1080 both estimators report
    [frame_size_mb = 7.119140625] exactly, which is 3645/512 and lies
    within 0.01 of 7.12. *)
Theorem frame_size_1080p (fps d : num) (cs : Z) :
  (forall o, estimate_storage_old_approach 1920 1080 fps d = Ok o ->
             Old.frame_size_mb o = 7.119140625%float) /\
  (forall c, estimate_storage_chunked_approach 1920 1080 fps d cs = Ok c ->
             Chunked.frame_size_mb c = 7.119140625%float) /\
  exists q, Q_of_float 7.119140625 = Some q /\
            (q == 3645 # 512)%Q /\ (Qabs (q - 7.12) <= 0.01)%Q.
Proof.
  assert (Hf : frame_size 1920 1080 = Ok 7.119140625%float)
    by (vm_compute; reflexivity).
  split; [| split].
  - intros o H. apply old_Ok in H.
    destruct H as (p & f & n & _ & _ & Hf' & -> & _).
    rewrite Hf in Hf'. now apply Ok_inj in Hf'.
  - intros c H. apply chunked_Ok in H.
    destruct H as (p & f & g & t & _ & _ & _ & _ & _ & Hf' & -> & _).
    rewrite Hf in Hf'. now apply Ok_inj in Hf'.
  - eexists. split; [vm_compute; reflexivity |].
    split; [reflexivity |]. vm_compute. discriminate.
Qed.

(** The amended C3 on the first scenario, for both estimators. *)
Lemma frame_size_1080p_witness :
  exists o c,
    estimate_storage_old_approach 1920 1080 (PyInt 30) (PyInt 600) = Ok o /\
    estimate_storage_chunked_approach 1920 1080 (PyInt 30) (PyInt 600) 100
      = Ok c /\
    Old.frame_size_mb o = 7.119140625%float /\
    Chunked.frame_size_mb c = 7.119140625%float.
Proof.
  eexists. eexists.
  split; [vm_compute; reflexivity |].
  split; [vm_compute; reflexivity |].
  destruct (frame_size_1080p (PyInt 30) (PyInt 600) 100) as (Ho & Hc & _).
  split; [apply Ho | apply Hc]; reflexivity.
Defined.

(** C4: whenever the old estimator returns a record,
    [sbs_frames_mb = 2 * extracted_frames_mb],
    [total_peak_mb = extracted_frames_mb + sbs_frames_mb] and
    [total_peak_mb = 3 * extracted_frames_mb], as identities of binary64
    values (all NaNs being one value); Python's [==] agrees as soon as the
    total is not a NaN. *)
Theorem old_total_is_triple
    (w h : Z) (fps d : num) (r : Old.estimate) :
  estimate_storage_old_approach w h fps d = Ok r ->
  Old.sbs_frames_mb r = (2 * Old.extracted_frames_mb r)%float /\
  Old.total_peak_mb r
  = (Old.extracted_frames_mb r + Old.sbs_frames_mb r)%float /\
  Old.total_peak_mb r = (3 * Old.extracted_frames_mb r)%float /\
  (is_nan (Old.total_peak_mb r) = false ->
   (Old.total_peak_mb r =? 3 * Old.extracted_frames_mb r)%float = true).
Proof.
  intros H. apply old_Ok in H.
  destruct H as (p & f & t & _ & _ & Hf & _ & Ht & He & Hs & Htot).
  assert (HF := frame_size_sf w h f Hf).
  assert (HT := float_of_int_sf _ t Ht).
  destruct (old_products_sf (Prim2SF f) (Prim2SF t)
              (w * h * 3 <? 0) (Old.total_frames r <? 0)) as [H2 H3].
  { destruct HF as [[_ HF] | [[_ HF] | [_ HF]]]; auto. }
  { destruct HT as [[_ HT] | [_ HT]]; auto. }
  assert (Hsbs : Old.sbs_frames_mb r = (2 * Old.extracted_frames_mb r)%float).
  { rewrite Hs, He. apply Prim2SF_inj.
    now rewrite !Prim2SF_mul, Prim2SF_2. }
  assert (H3' : Old.total_peak_mb r = (3 * Old.extracted_frames_mb r)%float).
  { rewrite Htot, Hs, He. apply Prim2SF_inj.
    now rewrite Prim2SF_add, !Prim2SF_mul, Prim2SF_2, Prim2SF_3. }
  repeat split; try assumption.
  intros Hnan. rewrite <- H3'. unfold is_nan in Hnan.
  now apply negb_false_iff in Hnan.
Qed.

(** C4 on the first scenario. *)
Lemma old_total_is_triple_witness :
  exists r,
    estimate_storage_old_approach 1920 1080 (PyInt 30) (PyInt 600) = Ok r /\
    Old.total_peak_mb r = (3 * Old.extracted_frames_mb r)%float.
Proof.
  eexists. split; [vm_compute; reflexivity |].
  apply (old_total_is_triple 1920 1080 (PyInt 30) (PyInt 600)).
  reflexivity.
Defined.

(** C5: for a chunk size of at least 1 the returned [total_chunks] is the
    ceiling of [total_frames / chunk_size]:
    [total_chunks * chunk_size >= total_frames] and
    [(total_chunks - 1) * chunk_size < total_frames]. *)
Theorem total_chunks_is_ceiling
    (w h : Z) (fps d : num) (cs : Z) (r : Chunked.estimate) :
  1 <= cs ->
  estimate_storage_chunked_approach w h fps d cs = Ok r ->
  Chunked.total_chunks r * cs >= Chunked.total_frames r /\
  (Chunked.total_chunks r - 1) * cs < Chunked.total_frames r.
Proof.
  intros Hcs H. apply chunked_Ok in H.
  destruct H as (p & f & c & t & _ & _ & _ & -> & _).
  set (n := Chunked.total_frames r).
  pose proof (Z.div_mod (n + cs - 1) cs ltac:(lia)) as E.
  pose proof (Z.mod_pos_bound (n + cs - 1) cs ltac:(lia)) as B.
  nia.
Qed.

(** C5 on 18030 frames in chunks of 100: 181 chunks. *)
Lemma total_chunks_is_ceiling_witness :
  exists r,
    estimate_storage_chunked_approach 1920 1080 (PyInt 30) (PyInt 601) 100
      = Ok r /\
    Chunked.total_chunks r * 100 >= Chunked.total_frames r /\
    (Chunked.total_chunks r - 1) * 100 < Chunked.total_frames r.
Proof.
  eexists. split; [vm_compute; reflexivity |].
  apply (total_chunks_is_ceiling 1920 1080 (PyInt 30) (PyInt 601) 100);
    [lia | reflexivity].
Defined.

(** C6: for a fixed profile with positive fields and chunk sizes
    [1 <= c2 <= c1] on which the estimator returns, the smaller chunk size
    has a [peak_chunk_mb] that is no larger and a [total_chunks] that is no
    smaller. *)
Theorem smaller_chunks_lower_peak_more_chunks
    (w h : Z) (fps d : num) (c1 c2 : Z) (r1 r2 : Chunked.estimate) :
  0 < w -> 0 < h -> num_positive fps -> num_positive d ->
  1 <= c2 <= c1 ->
  estimate_storage_chunked_approach w h fps d c1 = Ok r1 ->
  estimate_storage_chunked_approach w h fps d c2 = Ok r2 ->
  (Chunked.peak_chunk_mb r2 <=? Chunked.peak_chunk_mb r1)%float = true /\
  Chunked.total_chunks r1 <= Chunked.total_chunks r2.
Proof.
  intros Hw Hh Hfps Hd Hc H1 H2.
  apply chunked_Ok in H1.
  destruct H1 as (p1 & f1 & g1 & t1 & Hp1 & Hn1 & _ & Htc1 & _ & Hf1 & _ &
                  Hg1 & _ & Hpk1 & _).
  apply chunked_Ok in H2.
  destruct H2 as (p2 & f2 & g2 & t2 & Hp2 & Hn2 & _ & Htc2 & _ & Hf2 & _ &
                  Hg2 & _ & Hpk2 & _).
  rewrite Hp1 in Hp2. apply Ok_inj in Hp2. subst p2.
  rewrite Hf1 in Hf2. apply Ok_inj in Hf2. subst f2.
  assert (Hn : Chunked.total_frames r2 = Chunked.total_frames r1).
  { rewrite Hn1 in Hn2. now apply Ok_inj in Hn2. }
  split.
  - rewrite Hpk1, Hpk2, leb_spec, !Prim2SF_peak.
    destruct (frame_size_nonneg w h f1 Hw Hh Hf1) as [HF _].
    pose proof (float_of_int_posfin c1 g1 ltac:(lia) Hg1) as HC1.
    pose proof (float_of_int_posfin c2 g2 ltac:(lia) Hg2) as HC2.
    pose proof (float_of_int_mono c2 c1 g2 g1 ltac:(lia) Hg2 Hg1) as Hle.
    apply SFleb_rank.
    + now apply peak_sf_nonneg.
    + now apply peak_sf_nonneg.
    + now apply peak_sf_mono.
  - rewrite Htc1, Htc2, Hn. apply ceil_div_mono; [| assumption].
    now apply (total_frames_nonneg fps d p1).
Qed.

(** C6 on the first scenario: chunks of 50 against chunks of 100. *)
Lemma smaller_chunks_lower_peak_more_chunks_witness :
  exists r1 r2,
    estimate_storage_chunked_approach 1920 1080 (PyInt 30) (PyInt 600) 100
      = Ok r1 /\
    estimate_storage_chunked_approach 1920 1080 (PyInt 30) (PyInt 600) 50
      = Ok r2 /\
    (Chunked.peak_chunk_mb r2 <=? Chunked.peak_chunk_mb r1)%float = true /\
    Chunked.total_chunks r1 <= Chunked.total_chunks r2.
Proof.
  eexists. eexists.
  split; [vm_compute; reflexivity |].
  split; [vm_compute; reflexivity |].
  apply (smaller_chunks_lower_peak_more_chunks
           1920 1080 (PyInt 30) (PyInt 600) 100 50);
    [lia | lia | simpl; lia | simpl; lia | lia | reflexivity | reflexivity].
Defined.

(** C7: in both estimators [total_frames] is the truncation of the product
    [fps * duration_seconds] as Python computes it, hence its floor when
    both factors are positive; with [fps = 30] and
    [duration_seconds = 600], ints or floats, it is 18000. *)
Theorem total_frames_is_floor_of_product
    (w h : Z) (fps d : num) (cs : Z) :
  (forall o, estimate_storage_old_approach w h fps d = Ok o ->
     exists p, py_mul fps d = Ok p /\
               num_trunc p = Some (Old.total_frames o) /\
               (num_positive fps -> num_positive d ->
                num_floor p = Some (Old.total_frames o)) /\
               (In fps [PyInt 30; PyFloat 30] ->
                In d [PyInt 600; PyFloat 600] ->
                Old.total_frames o = 18000)) /\
  (forall c, estimate_storage_chunked_approach w h fps d cs = Ok c ->
     exists p, py_mul fps d = Ok p /\
               num_trunc p = Some (Chunked.total_frames c) /\
               (num_positive fps -> num_positive d ->
                num_floor p = Some (Chunked.total_frames c)) /\
               (In fps [PyInt 30; PyFloat 30] ->
                In d [PyInt 600; PyFloat 600] ->
                Chunked.total_frames c = 18000)).
Proof.
  assert (Hfix : forall p n,
             py_mul fps d = Ok p -> py_int p = Ok n ->
             In fps [PyInt 30; PyFloat 30] ->
             In d [PyInt 600; PyFloat 600] -> n = 18000).
  { intros p n Hp Hn Hi1 Hi2. cbn [In] in Hi1, Hi2.
    destruct Hi1 as [<- | [<- | []]]; destruct Hi2 as [<- | [<- | []]];
      vm_compute in Hp; apply Ok_inj in Hp; subst p;
      vm_compute in Hn; now apply Ok_inj in Hn. }
  split.
  - intros o H. apply old_Ok in H.
    destruct H as (p & f & t & Hp & Hn & _).
    exists p. split; [assumption | split; [| split]].
    + now apply py_int_trunc.
    + intros Hfps Hd. now apply (py_int_floor fps d).
    + now apply (Hfix p).
  - intros c H. apply chunked_Ok in H.
    destruct H as (p & f & g & t & Hp & Hn & _).
    exists p. split; [assumption | split; [| split]].
    + now apply py_int_trunc.
    + intros Hfps Hd. now apply (py_int_floor fps d).
    + now apply (Hfix p).
Qed.

(** C7 on 29.97 frames per second for 100 seconds: 2997 frames. *)
Lemma total_frames_is_floor_of_product_witness :
  exists o,
    estimate_storage_old_approach 1920 1080 (PyFloat 29.97) (PyInt 100)
      = Ok o /\
    exists p, py_mul (PyFloat 29.97) (PyInt 100) = Ok p /\
              num_floor p = Some (Old.total_frames o).
Proof.
  eexists. split; [vm_compute; reflexivity |].
  destruct (total_frames_is_floor_of_product
              1920 1080 (PyFloat 29.97) (PyInt 100) 100) as [Hold _].
  destruct (Hold _ eq_refl) as (p & Hp & _ & Hfl & _).
  exists p. split; [assumption |].
  apply Hfl; [reflexivity | simpl; lia].
Defined.

(** C9: two calls of the chunked estimator that agree on [width], [height]
    and [chunk_size] return the same [frame_size_mb], [chunk_size] and
    [peak_chunk_mb], whatever [fps] and [duration_seconds] are. *)
Theorem chunk_peak_independent_of_timing
    (w h cs : Z) (fps1 d1 fps2 d2 : num) (r1 r2 : Chunked.estimate) :
  estimate_storage_chunked_approach w h fps1 d1 cs = Ok r1 ->
  estimate_storage_chunked_approach w h fps2 d2 cs = Ok r2 ->
  Chunked.frame_size_mb r1 = Chunked.frame_size_mb r2 /\
  Chunked.chunk_size r1 = Chunked.chunk_size r2 /\
  Chunked.peak_chunk_mb r1 = Chunked.peak_chunk_mb r2.
Proof.
  intros H1 H2.
  apply chunked_Ok in H1.
  destruct H1 as (p1 & f1 & c1 & t1 & _ & _ & _ & _ & Hcs1 & Hf1 & Hfs1 &
                  Hc1 & _ & Hpk1 & _).
  apply chunked_Ok in H2.
  destruct H2 as (p2 & f2 & c2 & t2 & _ & _ & _ & _ & Hcs2 & Hf2 & Hfs2 &
                  Hc2 & _ & Hpk2 & _).
  rewrite Hf1 in Hf2. apply Ok_inj in Hf2. subst f2.
  rewrite Hc1 in Hc2. apply Ok_inj in Hc2. subst c2.
  rewrite Hfs1, Hfs2, Hcs1, Hcs2, Hpk1, Hpk2. auto.
Qed.

(** C9 on ten minutes at 30 fps against one second at 0.5 fps. *)
Lemma chunk_peak_independent_of_timing_witness :
  exists r1 r2,
    estimate_storage_chunked_approach 1920 1080 (PyInt 30) (PyInt 600) 100
      = Ok r1 /\
    estimate_storage_chunked_approach 1920 1080 (PyFloat 0.5) (PyInt 1) 100
      = Ok r2 /\
    Chunked.peak_chunk_mb r1 = Chunked.peak_chunk_mb r2.
Proof.
  eexists. eexists.
  split; [vm_compute; reflexivity |].
  split; [vm_compute; reflexivity |].
  apply (chunk_peak_independent_of_timing 1920 1080 100
           (PyInt 30) (PyInt 600) (PyFloat 0.5) (PyInt 1));
    reflexivity.
Defined.

(** * Further properties of the estimators *)

(** ** Which exception, and when *)

Lemma SFeqb_refl (x : spec_float) : SFeqb x x = true <-> x <> S754_nan.
Proof.
  destruct x as [s | s | | s m e]; unfold SFeqb, SFcompare.
  - split; [discriminate | reflexivity].
  - destruct s; (split; [discriminate | reflexivity]).
  - split; [discriminate | intros H; now contradiction H].
  - rewrite Z.compare_refl, Pos.compare_cont_refl.
    destruct s; (split; [discriminate | reflexivity]).
Qed.

Lemma is_nan_spec (g : float) : is_nan g = true <-> Prim2SF g = S754_nan.
Proof.
  unfold is_nan. rewrite eqb_spec, negb_true_iff.
  pose proof (SFeqb_refl (Prim2SF g)) as H.
  destruct (SFeqb (Prim2SF g) (Prim2SF g)).
  - split; [discriminate |]. intros Hn. now apply H in Hn.
  - split; [| reflexivity]. intros _.
    destruct (Prim2SF g); try reflexivity;
      exfalso; (assert (false = true) by (apply H; discriminate));
      discriminate.
Qed.

Lemma int_of_float_ValueError (g : float) :
  int_of_float g = Raise ValueError <-> is_nan g = true.
Proof.
  rewrite is_nan_spec. unfold int_of_float.
  destruct (Prim2SF g); split; intros H; try discriminate; reflexivity.
Qed.

(** [int(fps * duration_seconds)], the first statement of both estimators,
    raises [ValueError] exactly when the product is a NaN. *)
Lemma total_frames_ValueError (fps d : num) :
  (p <- py_mul fps d ;; py_int p) = Raise ValueError <->
  exists g, py_mul fps d = Ok (PyFloat g) /\ is_nan g = true.
Proof.
  split.
  - intros H. apply bind_Raise in H. destruct H as [H | (p & Hp & H)].
    + apply py_mul_exn in H. discriminate H.
    + destruct p as [z | g]; [discriminate H |].
      exists g. split; [assumption |]. now apply int_of_float_ValueError.
  - intros (g & Hp & Hn). rewrite Hp. cbn [bind py_int].
    now apply int_of_float_ValueError.
Qed.

Lemma old_bind (w h : Z) (fps d : num) :
  estimate_storage_old_approach w h fps d
  = (n <- (p <- py_mul fps d ;; py_int p) ;;
     f <- frame_size w h ;;
     t <- float_of_int n ;;
     Ok (Old.Build n f (f * t) (f * 2 * t) (f * t + f * 2 * t))).
Proof.
  unfold estimate_storage_old_approach, float_mul_int.
  destruct (py_mul fps d) as [p | e]; [| reflexivity]. cbn [bind].
  destruct (py_int p) as [n | e]; [| reflexivity]. cbn [bind].
  destruct (frame_size w h) as [f | e]; [| reflexivity]. cbn [bind].
  rewrite float_of_int_2. cbn [bind].
  destruct (float_of_int n) as [t | e]; reflexivity.
Qed.

Lemma chunked_bind (w h : Z) (fps d : num) (cs : Z) :
  estimate_storage_chunked_approach w h fps d cs
  = (n <- (p <- py_mul fps d ;; py_int p) ;;
     k <- int_floordiv (n + cs - 1) cs ;;
     f <- frame_size w h ;;
     c <- float_of_int cs ;;
     t <- float_of_int k ;;
     Ok (Chunked.Build n k cs f
           (f * c + f * 2 * c + f * 2 * c * 0.1)
           (f * 2 * c * 0.1 * t)
           (py_max (f * c + f * 2 * c + f * 2 * c * 0.1)
              (f * 2 * c * 0.1 * t + f * 2 * c * 0.1 * t)))).
Proof.
  unfold estimate_storage_chunked_approach, float_mul_int.
  destruct (py_mul fps d) as [p | e]; [| reflexivity]. cbn [bind].
  destruct (py_int p) as [n | e]; [| reflexivity]. cbn [bind].
  destruct (int_floordiv (n + cs - 1) cs) as [k | e]; [| reflexivity].
  cbn [bind].
  destruct (frame_size w h) as [f | e]; [| reflexivity]. cbn [bind].
  destruct (float_of_int cs) as [c | e]; [| reflexivity]. cbn [bind].
  rewrite float_of_int_2. cbn [bind].
  destruct (float_of_int k) as [t | e]; reflexivity.
Qed.

Lemma frame_size_float_of_int (w h : Z) :
  returns (frame_size w h) <-> returns (float_of_int (w * h * 3)).
Proof.
  split.
  - intros [f Hf]. apply frame_size_Ok in Hf. destruct Hf as (x & Hx & _).
    now exists x.
  - intros [x Hx]. exists (x * 1.2 / 1048576)%float.
    now apply frame_size_returns.
Qed.

(** X1: the old estimator never raises [ZeroDivisionError]; it raises
    [ValueError] exactly when [fps * duration_seconds] is a NaN, and it
    returns exactly when [int(fps * duration_seconds)] has a value and
    [width * height * 3] and [total_frames] convert to a float. Whatever
    else happens is an [OverflowError]. *)
Theorem old_estimator_exceptions (w h : Z) (fps d : num) :
  ~ raises (estimate_storage_old_approach w h fps d) ZeroDivisionError /\
  (raises (estimate_storage_old_approach w h fps d) ValueError <->
   exists g, py_mul fps d = Ok (PyFloat g) /\ is_nan g = true) /\
  (returns (estimate_storage_old_approach w h fps d) <->
   exists p n, py_mul fps d = Ok p /\ py_int p = Ok n /\
               returns (float_of_int (w * h * 3)) /\
               returns (float_of_int n)) /\
  (~ returns (estimate_storage_old_approach w h fps d) ->
   ~ raises (estimate_storage_old_approach w h fps d) ValueError ->
   raises (estimate_storage_old_approach w h fps d) OverflowError).
Proof.
  assert (Hexn : forall e,
            estimate_storage_old_approach w h fps d = Raise e ->
            e = ValueError ->
            (p <- py_mul fps d ;; py_int p) = Raise ValueError).
  { intros e H ->. rewrite old_bind in H.
    apply bind_Raise in H. destruct H as [H | (n & _ & H)]; [exact H |].
    apply bind_Raise in H. destruct H as [H | (f & _ & H)].
    { apply frame_size_exn in H. discriminate H. }
    apply bind_Raise in H. destruct H as [H | (t & _ & H)].
    { apply float_of_int_exn in H. discriminate H. }
    discriminate H. }
  assert (Hany : forall e,
            estimate_storage_old_approach w h fps d = Raise e ->
            e = OverflowError \/ e = ValueError).
  { intros e H. rewrite old_bind in H.
    apply bind_Raise in H. destruct H as [H | (n & _ & H)].
    { apply bind_Raise in H. destruct H as [H | (p & _ & H)].
      - left. now apply py_mul_exn in H.
      - now apply py_int_exn in H. }
    apply bind_Raise in H. destruct H as [H | (f & _ & H)].
    { left. now apply frame_size_exn in H. }
    apply bind_Raise in H. destruct H as [H | (t & _ & H)].
    { left. now apply float_of_int_exn in H. }
    discriminate H. }
  split; [| split; [| split]].
  - intros H. apply Hany in H. destruct H; discriminate.
  - rewrite <- total_frames_ValueError. split.
    + intros H. now apply (Hexn ValueError).
    + intros H. unfold raises. rewrite old_bind, H. reflexivity.
  - split.
    + intros [r H]. apply old_Ok in H.
      destruct H as (p & f & t & Hp & Hn & Hf & _ & Ht & _).
      exists p, (Old.total_frames r).
      split; [assumption |]. split; [assumption |]. split.
      * apply frame_size_float_of_int. now exists f.
      * now exists t.
    + intros (p & n & Hp & Hn & Hx & [t Ht]).
      apply frame_size_float_of_int in Hx. destruct Hx as [f Hf].
      eexists. now apply (old_returns w h fps d p n f t).
  - intros Hret Hval.
    destruct (estimate_storage_old_approach w h fps d) as [r | e] eqn:H.
    + exfalso. apply Hret. now exists r.
    + destruct (Hany e eq_refl) as [-> | ->]; [reflexivity |].
      exfalso. now apply Hval.
Qed.

(** X2: with [chunk_size = 0] the chunked estimator never returns: it raises
    [ZeroDivisionError] as soon as [int(fps * duration_seconds)] has a
    value, before the frame size is looked at, and otherwise the exception
    of [int(fps * duration_seconds)]. With any other chunk size it never
    raises [ZeroDivisionError], and it returns exactly when
    [int(fps * duration_seconds)] has a value and [width * height * 3],
    [chunk_size] and [total_chunks] convert to a float. For every chunk size
    it raises [ValueError] exactly when [fps * duration_seconds] is a NaN. *)
Theorem chunked_estimator_exceptions (w h : Z) (fps d : num) (cs : Z) :
  (raises (estimate_storage_chunked_approach w h fps d cs) ZeroDivisionError
   <-> cs = 0 /\ exists p n, py_mul fps d = Ok p /\ py_int p = Ok n) /\
  (raises (estimate_storage_chunked_approach w h fps d cs) ValueError <->
   exists g, py_mul fps d = Ok (PyFloat g) /\ is_nan g = true) /\
  (returns (estimate_storage_chunked_approach w h fps d cs) <->
   cs <> 0 /\
   exists p n, py_mul fps d = Ok p /\ py_int p = Ok n /\
               returns (float_of_int (w * h * 3)) /\
               returns (float_of_int cs) /\
               returns (float_of_int ((n + cs - 1) / cs))).
Proof.
  split; [| split].
  - split.
    + intros H. unfold raises in H.
      destruct (Z.eq_dec cs 0) as [-> | Hcs].
      * split; [reflexivity |]. rewrite chunked_bind in H.
        apply bind_Raise in H. destruct H as [H | (n & Hn & _)].
        { apply bind_Raise in H. destruct H as [H | (p & _ & H)].
          - apply py_mul_exn in H. discriminate H.
          - apply py_int_exn in H. destruct H; discriminate. }
        apply bind_Ok in Hn. destruct Hn as (p & Hp & Hn). now exists p, n.
      * apply (chunked_exn _ _ _ _ _ _ Hcs) in H. destruct H; discriminate.
    + intros (-> & p & n & Hp & Hn). unfold raises.
      rewrite chunked_bind, Hp. cbn [bind]. rewrite Hn. reflexivity.
  - rewrite <- total_frames_ValueError. unfold raises. split.
    + intros H. rewrite chunked_bind in H.
      apply bind_Raise in H. destruct H as [H | (n & _ & H)]; [exact H |].
      apply bind_Raise in H. destruct H as [H | (k & _ & H)].
      { unfold int_floordiv in H. destruct (cs =? 0); discriminate H. }
      apply bind_Raise in H. destruct H as [H | (f & _ & H)].
      { apply frame_size_exn in H. discriminate H. }
      apply bind_Raise in H. destruct H as [H | (c & _ & H)].
      { apply float_of_int_exn in H. discriminate H. }
      apply bind_Raise in H. destruct H as [H | (t & _ & H)].
      { apply float_of_int_exn in H. discriminate H. }
      discriminate H.
    + intros H. rewrite chunked_bind, H. reflexivity.
  - split.
    + intros [r H]. apply chunked_Ok in H.
      destruct H as (p & f & c & t & Hp & Hn & Hcs & Htc & _ & Hf & _ &
                     Hc & Ht & _).
      split; [assumption |]. exists p, (Chunked.total_frames r).
      split; [assumption |]. split; [assumption |]. split; [| split].
      * apply frame_size_float_of_int. now exists f.
      * now exists c.
      * rewrite <- Htc. now exists t.
    + intros (Hcs & p & n & Hp & Hn & [x Hx] & [c Hc] & [t Ht]).
      now apply (chunked_returns w h fps d cs p n x c t).
Qed.

Lemma agree_on_frames
    (w h : Z) (fps d : num) (cs : Z) (o : Old.estimate) (c : Chunked.estimate) :
  estimate_storage_old_approach w h fps d = Ok o ->
  estimate_storage_chunked_approach w h fps d cs = Ok c ->
  Chunked.total_frames c = Old.total_frames o /\
  Chunked.frame_size_mb c = Old.frame_size_mb o.
Proof.
  intros Ho Hc. apply old_Ok in Ho. apply chunked_Ok in Hc.
  destruct Ho as (p & f & t & Hp & Hn & Hf & Hfo & _).
  destruct Hc as (p' & f' & c' & t' & Hp' & Hn' & _ & _ & _ & Hf' & Hfc & _).
  rewrite Hp in Hp'. apply Ok_inj in Hp'. subst p'.
  rewrite Hn in Hn'. apply Ok_inj in Hn'.
  rewrite Hf in Hf'. apply Ok_inj in Hf'. subst f'.
  split; [now symmetry | now rewrite Hfc, Hfo].
Qed.

(** X3: on the same video the two estimators count the same frames and give
    a frame the same size, whatever the chunk size is. *)
Theorem estimators_agree_on_frames
    (w h : Z) (fps d : num) (cs : Z) (o : Old.estimate) (c : Chunked.estimate) :
  estimate_storage_old_approach w h fps d = Ok o ->
  estimate_storage_chunked_approach w h fps d cs = Ok c ->
  Chunked.total_frames c = Old.total_frames o /\
  Chunked.frame_size_mb c = Old.frame_size_mb o.
Proof. exact (agree_on_frames w h fps d cs o c). Qed.

(** X3 on ten minutes at 29.97 frames per second. *)
Lemma estimators_agree_on_frames_witness :
  exists o c,
    estimate_storage_old_approach 1920 1080 (PyFloat 29.97) (PyInt 600)
      = Ok o /\
    estimate_storage_chunked_approach 1920 1080 (PyFloat 29.97) (PyInt 600) 100
      = Ok c /\
    Chunked.total_frames c = Old.total_frames o /\
    Chunked.frame_size_mb c = Old.frame_size_mb o.
Proof.
  eexists. eexists.
  split; [vm_compute; reflexivity |]. split; [vm_compute; reflexivity |].
  exact (estimators_agree_on_frames 1920 1080 (PyFloat 29.97) (PyInt 600) 100 _ _
           eq_refl eq_refl).
Defined.

(** ** The strict order of nonnegative floats *)

Lemma SFcompare_antisym (x y : spec_float) :
  SFcompare y x = option_map CompOpp (SFcompare x y).
Proof.
  destruct x as [[ | ] | [ | ] | | sx mx ex], y as [[ | ] | [ | ] | | sy my ey];
    try reflexivity;
    try (destruct sx; reflexivity); try (destruct sy; reflexivity).
  unfold SFcompare. cbn [option_map]. f_equal.
  rewrite (Z.compare_antisym ex ey).
  destruct sx, sy; try reflexivity;
    destruct (ex ?= ey); cbn [CompOpp]; try reflexivity.
  - rewrite (Pos.compare_cont_antisym mx my Eq). reflexivity.
  - rewrite (Pos.compare_cont_antisym mx my Eq). reflexivity.
Qed.

Lemma SFcompare_Eq_rank (x y : spec_float) :
  nonneg_float x -> nonneg_float y -> SFcompare x y = Some Eq ->
  rank x = rank y.
Proof.
  intros Hx Hy.
  destruct x as [sx | sx | | sx mx ex]; cbn [nonneg_float] in Hx;
    [subst sx | subst sx | exfalso; exact Hx | destruct Hx as [-> Hbx]];
    (destruct y as [sy | sy | | sy my ey]; cbn [nonneg_float] in Hy;
     [subst sy | subst sy | exfalso; exact Hy | destruct Hy as [-> Hby]]);
    try reflexivity; try discriminate.
  unfold SFcompare. intros H.
  destruct (Z.compare_spec ex ey) as [-> | _ | _]; try discriminate H.
  assert (Hm : Pos.compare_cont Eq mx my = Eq) by congruence.
  rewrite Pos.compare_cont_spec in Hm. unfold Pos.switch_Eq in Hm.
  destruct (mx ?= my)%positive eqn:Hc; try discriminate Hm.
  apply Pos.compare_eq in Hc. now subst my.
Qed.

Lemma SFltb_rank_lt (x y : spec_float) :
  nonneg_float x -> nonneg_float y -> rank x < rank y -> SFltb x y = true.
Proof.
  intros Hx Hy Hlt.
  pose proof (SFleb_rank x y Hx Hy ltac:(zlia)) as Hle.
  pose proof (SFcompare_Eq_rank x y Hx Hy) as Heq.
  unfold SFleb in Hle. unfold SFltb.
  destruct (SFcompare x y) as [[ | | ] |]; try discriminate Hle;
    [| reflexivity].
  specialize (Heq eq_refl). zlia.
Qed.

Lemma SFltb_rank_ge (x y : spec_float) :
  nonneg_float x -> nonneg_float y -> rank y <= rank x -> SFltb x y = false.
Proof.
  intros Hx Hy Hle.
  pose proof (SFleb_rank y x Hy Hx Hle) as H.
  unfold SFleb in H. rewrite SFcompare_antisym in H. unfold SFltb.
  destruct (SFcompare x y) as [[ | | ] |]; try reflexivity.
  discriminate H.
Qed.

Lemma nonneg_not_nan (x : spec_float) : nonneg_float x -> SFleb x x = true.
Proof. intros Hx. apply SFleb_rank; auto. zlia. Qed.

(** [max(a, b)] on nonnegative floats is the one of larger rank. *)
Lemma py_max_rank (a b : float) :
  nonneg_float (Prim2SF a) -> nonneg_float (Prim2SF b) ->
  nonneg_float (Prim2SF (py_max a b)) /\
  rank (Prim2SF (py_max a b)) = Z.max (rank (Prim2SF a)) (rank (Prim2SF b)).
Proof.
  intros Ha Hb. unfold py_max. rewrite ltb_spec.
  destruct (Z_lt_le_dec (rank (Prim2SF a)) (rank (Prim2SF b))) as [Hlt | Hge].
  - rewrite SFltb_rank_lt by assumption. split; [assumption | zlia].
  - rewrite SFltb_rank_ge by assumption. split; [assumption | zlia].
Qed.

Lemma SFadd_rank_ge_r (x y : spec_float) :
  nonneg_float x -> nonneg_float y -> rank y <= rank (SFadd prec emax x y).
Proof.
  intros Hx Hy. destruct (SFadd_nonneg x y Hx Hy) as [_ ->].
  pose proof (rank_le_top y Hy) as Hle.
  destruct (is_inf x || is_inf y) eqn:Hxy; [assumption |].
  apply orb_false_iff in Hxy. destruct Hxy as [Hix Hiy].
  destruct (rank_finite y Hy Hiy) as [Hlt Hrp].
  pose proof (rank_nonneg x). pose proof (rank_nonneg y).
  pose proof (rnd_mono0 1074 (rank y) (rank x + rank y) ltac:(zlia) ltac:(zlia))
    as Hm.
  assert (Hex : rnd 1074 (rank y) = rank y).
  { destruct (Z.eq_dec (rank y) 0) as [-> | Hnz]; [apply rnd_0 |].
    apply rnd_exact; [zlia | assumption]. }
  zlia.
Qed.

(** ** The estimates as nonnegative floats *)

Lemma SFltb_leb (x y : spec_float) : SFltb x y = true -> SFleb x y = true.
Proof.
  unfold SFltb, SFleb. destruct (SFcompare x y) as [[ | | ] |];
    intros H; try discriminate H; reflexivity.
Qed.

Lemma SFltb_pos_trans (p x : spec_float) :
  nonneg_float p -> SFltb p x = true -> SFltb (S754_zero false) x = true.
Proof.
  destruct p as [sp | sp | | sp mp ep]; cbn [nonneg_float]; intros Hp H;
    [subst sp | subst sp | exfalso; exact Hp | destruct Hp as [-> _]].
  - exact H.
  - destruct x as [ | [ | ] | | ]; discriminate H.
  - destruct x as [ | [ | ] | | [ | ] ]; try discriminate H; reflexivity.
Qed.

Lemma Prim2SF_1 : Prim2SF 1 = sf_1.
Proof. reflexivity. Qed.

Lemma float_of_int_1 : float_of_int 1 = Ok 1%float.
Proof. reflexivity. Qed.

Lemma bounded_1 : bounded prec emax 4503599627370496 (-52) = true.
Proof. reflexivity. Qed.

Lemma posfin_1 : posfin sf_1.
Proof. apply posfin_finite. exact bounded_1. Qed.

Lemma units_1 : units sf_1 = 2 ^ 1074.
Proof.
  cbn [units sf_1]. change 4503599627370496 with (2 ^ 52).
  rewrite <- Z.pow_add_r by zlia. reflexivity.
Qed.

(** Multiplication by [1.0] keeps the rank. *)
Lemma SFmul_1_rank (x : spec_float) :
  nonneg_float x -> rank (SFmul prec emax x sf_1) = rank x.
Proof.
  intros Hx. destruct posfin_1 as (H1 & Hi1 & Hr1).
  destruct (SFmul_nonneg x sf_1 Hx H1) as [_ ->];
    [auto | rewrite Hi1; discriminate |].
  destruct (is_inf x) eqn:Hi; cbn [orb].
  - symmetry. now apply rank_inf.
  - rewrite Hi1. destruct (rank_finite x Hx Hi) as [Hlt Hfit].
    change (rank sf_1) with (units sf_1). rewrite units_1.
    pose proof (rank_nonneg x) as H0.
    destruct (Z.eq_dec (rank x) 0) as [-> | Hnz].
    + rewrite Z.mul_0_l, rnd_0. zlia.
    + change 2148 with (1074 + 1074). rewrite rnd_scale by zlia.
      rewrite rnd_exact by (zlia || assumption). zlia.
Qed.

Lemma rank_0_1_le_1 : rank sf_0_1 <= rank sf_1.
Proof.
  change (rank sf_0_1) with (units sf_0_1).
  change (rank sf_1) with (units sf_1). rewrite units_1.
  cbn [units sf_0_1]. change (-56 + 1074) with 1018.
  replace (2 ^ 1074) with (2 ^ 56 * 2 ^ 1018)
    by (rewrite <- Z.pow_add_r by zlia; reflexivity).
  apply Z.mul_le_mono_nonneg_r; [apply Z.pow_nonneg; zlia |].
  change (2 ^ 56) with 72057594037927936. zlia.
Qed.

(** Multiplication by [0.1] does not increase a nonnegative float. *)
Lemma SFmul_0_1_le (x : spec_float) :
  nonneg_float x -> rank (SFmul prec emax x sf_0_1) <= rank x.
Proof.
  intros Hx. rewrite <- (SFmul_1_rank x Hx).
  apply SFmul_posfin_mono;
    auto using posfin_0_1, posfin_1, rank_0_1_le_1. zlia.
Qed.

Section Estimates.

Variables F C : spec_float.
Hypothesis HF : nonneg_float F.
Hypothesis HC : posfin C.

Lemma nonneg_F2 : nonneg_float (SFmul prec emax F sf_2).
Proof. apply SFmul_posfin; auto using posfin_2. Qed.

Lemma nonneg_extracted : nonneg_float (SFmul prec emax F C).
Proof. now apply SFmul_posfin. Qed.

Lemma nonneg_sbs : nonneg_float (SFmul prec emax (SFmul prec emax F sf_2) C).
Proof. apply SFmul_posfin; auto using nonneg_F2. Qed.

Lemma nonneg_video : nonneg_float (video_sf F C).
Proof. apply SFmul_posfin; auto using nonneg_sbs, posfin_0_1. Qed.

Lemma nonneg_old_total : nonneg_float (old_total_sf F C).
Proof.
  apply SFadd_nonneg_float; auto using nonneg_extracted, nonneg_sbs.
Qed.

Lemma rank_F_le_F2 : rank F <= rank (SFmul prec emax F sf_2).
Proof.
  apply Z.le_trans with (rank (SFmul prec emax F sf_1));
    [rewrite SFmul_1_rank by assumption; zlia |].
  apply SFmul_posfin_mono; auto using posfin_1, posfin_2; [zlia |].
  change (rank sf_1) with (units sf_1).
  change (rank sf_2) with (units sf_2). rewrite units_1, units_2.
  apply pow2_le. zlia.
Qed.

Lemma rank_extracted_le_sbs :
  rank (SFmul prec emax F C)
  <= rank (SFmul prec emax (SFmul prec emax F sf_2) C).
Proof.
  apply SFmul_posfin_mono; auto using nonneg_F2, rank_F_le_F2. zlia.
Qed.

Lemma rank_video_le_sbs :
  rank (video_sf F C) <= rank (SFmul prec emax (SFmul prec emax F sf_2) C).
Proof. apply SFmul_0_1_le. exact nonneg_sbs. Qed.

Lemma rank_old_total_le_peak : rank (old_total_sf F C) <= rank (peak_sf F C).
Proof.
  unfold peak_sf. apply SFadd_rank_ge_l.
  - exact nonneg_old_total.
  - exact nonneg_video.
Qed.

Lemma rank_video_le_old_total : rank (video_sf F C) <= rank (old_total_sf F C).
Proof.
  pose proof rank_video_le_sbs as H1.
  pose proof (SFadd_rank_ge_r _ _ nonneg_extracted nonneg_sbs) as H2.
  unfold old_total_sf. zlia.
Qed.

Section Frames.

Variable K : spec_float.
Hypothesis HK : posfin K.

Lemma nonneg_videos : nonneg_float (SFmul prec emax (video_sf F C) K).
Proof. apply SFmul_posfin; auto using nonneg_video. Qed.

Lemma nonneg_assembly : nonneg_float (assembly_sf F C K).
Proof. apply SFadd_nonneg_float; exact nonneg_videos. Qed.

End Frames.

End Estimates.

Lemma old_total_sf_mono (F T T' : spec_float) :
  nonneg_float F -> posfin T -> posfin T' -> rank T <= rank T' ->
  rank (SFmul prec emax F T) <= rank (SFmul prec emax F T') /\
  rank (SFmul prec emax (SFmul prec emax F sf_2) T)
  <= rank (SFmul prec emax (SFmul prec emax F sf_2) T') /\
  rank (old_total_sf F T) <= rank (old_total_sf F T').
Proof.
  intros HF HT HT' Hle.
  pose proof (nonneg_F2 F HF) as HF2.
  assert (H1 : rank (SFmul prec emax F T) <= rank (SFmul prec emax F T'))
    by (apply SFmul_posfin_mono; auto; zlia).
  assert (H2 : rank (SFmul prec emax (SFmul prec emax F sf_2) T)
               <= rank (SFmul prec emax (SFmul prec emax F sf_2) T'))
    by (apply SFmul_posfin_mono; auto; zlia).
  split; [assumption |]. split; [assumption |].
  apply SFadd_mono; auto using nonneg_extracted, nonneg_sbs.
Qed.

Lemma assembly_sf_mono (F C K K' : spec_float) :
  nonneg_float F -> posfin C -> posfin K -> posfin K' -> rank K <= rank K' ->
  rank (SFmul prec emax (video_sf F C) K)
  <= rank (SFmul prec emax (video_sf F C) K') /\
  rank (assembly_sf F C K) <= rank (assembly_sf F C K').
Proof.
  intros HF HC HK HK' Hle.
  assert (H1 : rank (SFmul prec emax (video_sf F C) K)
               <= rank (SFmul prec emax (video_sf F C) K'))
    by (apply SFmul_posfin_mono; auto using nonneg_video; zlia).
  split; [assumption |].
  apply SFadd_mono; auto using nonneg_videos.
Qed.

(** The old record in [SpecFloat] terms. *)
Lemma old_sf (w h : Z) (fps d : num) (r : Old.estimate) :
  0 < w -> 0 < h -> estimate_storage_old_approach w h fps d = Ok r ->
  1 <= Old.total_frames r ->
  exists f t,
    frame_size w h = Ok f /\ float_of_int (Old.total_frames r) = Ok t /\
    nonneg_float (Prim2SF f) /\ 0 < rank (Prim2SF f) /\
    posfin (Prim2SF t) /\ 2 ^ 1074 <= rank (Prim2SF t) /\
    Prim2SF (Old.extracted_frames_mb r)
    = SFmul prec emax (Prim2SF f) (Prim2SF t) /\
    Prim2SF (Old.sbs_frames_mb r)
    = SFmul prec emax (SFmul prec emax (Prim2SF f) sf_2) (Prim2SF t) /\
    Prim2SF (Old.total_peak_mb r) = old_total_sf (Prim2SF f) (Prim2SF t).
Proof.
  intros Hw Hh H Hn. apply old_Ok in H.
  destruct H as (p & f & t & _ & _ & Hf & _ & Ht & He & Hs & Htot).
  exists f, t.
  destruct (frame_size_nonneg w h f Hw Hh Hf) as [HF HrF].
  assert (Hn0 : 0 < Old.total_frames r) by zlia.
  pose proof (float_of_int_posfin _ t Hn0 Ht) as HT.
  destruct (float_of_int_pos _ t Hn0 Ht) as (_ & _ & _ & HT1).
  repeat (split; [assumption |]).
  rewrite Htot, He, Hs. unfold old_total_sf.
  now rewrite Prim2SF_add, !Prim2SF_mul, Prim2SF_2.
Qed.

(** The chunked record in [SpecFloat] terms. *)
Lemma chunked_sf (w h : Z) (fps d : num) (cs : Z) (r : Chunked.estimate) :
  0 < w -> 0 < h -> 1 <= cs ->
  estimate_storage_chunked_approach w h fps d cs = Ok r ->
  exists f c,
    frame_size w h = Ok f /\ float_of_int cs = Ok c /\
    nonneg_float (Prim2SF f) /\ 0 < rank (Prim2SF f) /\
    posfin (Prim2SF c) /\ 2 ^ 1074 <= rank (Prim2SF c) /\
    Prim2SF (Chunked.peak_chunk_mb r) = peak_sf (Prim2SF f) (Prim2SF c) /\
    Chunked.total_peak_mb r =
      py_max (Chunked.peak_chunk_mb r)
        (Chunked.max_chunk_videos_mb r + Chunked.max_chunk_videos_mb r)%float
    /\
    Chunked.total_chunks r = (Chunked.total_frames r + cs - 1) / cs /\
    exists t,
      float_of_int (Chunked.total_chunks r) = Ok t /\
      Prim2SF (Chunked.max_chunk_videos_mb r)
      = SFmul prec emax (video_sf (Prim2SF f) (Prim2SF c)) (Prim2SF t) /\
      Prim2SF (Chunked.max_chunk_videos_mb r
               + Chunked.max_chunk_videos_mb r)%float
      = assembly_sf (Prim2SF f) (Prim2SF c) (Prim2SF t).
Proof.
  intros Hw Hh Hcs H. apply chunked_Ok in H.
  destruct H as (p & f & c & t & _ & _ & _ & Htc & _ & Hf & _ &
                 Hc & Ht & Hpk & Hmcv & Htot).
  exists f, c.
  destruct (frame_size_nonneg w h f Hw Hh Hf) as [HF HrF].
  pose proof (float_of_int_posfin cs c ltac:(zlia) Hc) as HC.
  destruct (float_of_int_pos cs c ltac:(zlia) Hc) as (_ & _ & _ & HC1).
  repeat (split; [assumption |]).
  split; [rewrite Hpk; apply Prim2SF_peak |].
  split; [assumption |]. split; [assumption |].
  exists t. split; [assumption |].
  assert (Hm : Prim2SF (Chunked.max_chunk_videos_mb r)
               = SFmul prec emax (video_sf (Prim2SF f) (Prim2SF c))
                   (Prim2SF t)).
  { rewrite Hmcv. unfold video_sf.
    now rewrite !Prim2SF_mul, Prim2SF_2, Prim2SF_0_1. }
  split; [assumption |].
  unfold assembly_sf. now rewrite Prim2SF_add, Hm.
Qed.

Lemma peak_sf_pos (F C : spec_float) :
  nonneg_float F -> 0 < rank F -> posfin C -> 2 ^ 1074 <= rank C ->
  0 < rank (SFmul prec emax F C) /\ 0 < rank (peak_sf F C).
Proof.
  intros HF HrF HC HC1.
  pose proof (SFmul_rank_pos F C HF HrF HC HC1) as Hpa.
  pose proof (SFadd_rank_ge_l _ _ (nonneg_extracted F C HF HC)
                (nonneg_sbs F C HF HC)) as H1.
  pose proof (SFadd_rank_ge_l _ _ (nonneg_old_total F C HF HC)
                (nonneg_video F C HF HC)) as H3.
  unfold peak_sf, old_total_sf, video_sf in *. zlia.
Qed.

(** X4: for a frame of positive width and height and a chunk size of at
    least 1, the chunked estimate is never zero, negative or a NaN:
    [peak_chunk_mb] is strictly positive and [total_peak_mb] is at least
    [peak_chunk_mb], whatever [fps] and [duration_seconds] are. *)
Theorem chunked_peak_is_positive
    (w h : Z) (fps d : num) (cs : Z) (r : Chunked.estimate) :
  0 < w -> 0 < h -> 1 <= cs ->
  estimate_storage_chunked_approach w h fps d cs = Ok r ->
  (0 <? Chunked.peak_chunk_mb r)%float = true /\
  (Chunked.peak_chunk_mb r <=? Chunked.total_peak_mb r)%float = true /\
  (0 <? Chunked.total_peak_mb r)%float = true.
Proof.
  intros Hw Hh Hcs H.
  destruct (chunked_sf w h fps d cs r Hw Hh Hcs H)
    as (f & c & _ & _ & HF & HrF & HC & HC1 & Hpk & Htot & _).
  pose proof (peak_sf_nonneg _ _ HF HC) as HP.
  destruct (peak_sf_pos _ _ HF HrF HC HC1) as [_ Hpos].
  assert (H0 : (0 <? Chunked.peak_chunk_mb r)%float = true).
  { rewrite ltb_spec, Hpk. change (Prim2SF 0) with (S754_zero false).
    now apply SFltb_zero_pos. }
  split; [assumption |].
  rewrite Htot. unfold py_max.
  destruct (Chunked.peak_chunk_mb r
            <? Chunked.max_chunk_videos_mb r
               + Chunked.max_chunk_videos_mb r)%float eqn:Hlt.
  - rewrite ltb_spec in Hlt. split.
    + rewrite leb_spec. now apply SFltb_leb.
    + rewrite ltb_spec. change (Prim2SF 0) with (S754_zero false).
      apply (SFltb_pos_trans (Prim2SF (Chunked.peak_chunk_mb r)));
        [now rewrite Hpk | assumption].
  - split; [| assumption].
    rewrite leb_spec, Hpk. now apply nonneg_not_nan.
Qed.

(** X4 on the first scenario. *)
Lemma chunked_peak_is_positive_witness :
  exists r,
    estimate_storage_chunked_approach 1920 1080 (PyInt 30) (PyInt 600) 100
      = Ok r /\
    (0 <? Chunked.peak_chunk_mb r)%float = true /\
    (Chunked.peak_chunk_mb r <=? Chunked.total_peak_mb r)%float = true /\
    (0 <? Chunked.total_peak_mb r)%float = true.
Proof.
  eexists. split; [vm_compute; reflexivity |].
  exact (chunked_peak_is_positive 1920 1080 (PyInt 30) (PyInt 600) 100 _
           ltac:(zlia) ltac:(zlia) ltac:(zlia) eq_refl).
Defined.

(** X5: with at least one frame of positive width and height, the old
    estimates are positive and ordered:
    [0 < extracted_frames_mb <= sbs_frames_mb <= total_peak_mb]. *)
Theorem old_estimates_are_ordered
    (w h : Z) (fps d : num) (r : Old.estimate) :
  0 < w -> 0 < h -> estimate_storage_old_approach w h fps d = Ok r ->
  1 <= Old.total_frames r ->
  (0 <? Old.extracted_frames_mb r)%float = true /\
  (Old.extracted_frames_mb r <=? Old.sbs_frames_mb r)%float = true /\
  (Old.sbs_frames_mb r <=? Old.total_peak_mb r)%float = true.
Proof.
  intros Hw Hh H Hn.
  destruct (old_sf w h fps d r Hw Hh H Hn)
    as (f & t & _ & _ & HF & HrF & HT & HT1 & He & Hs & Htot).
  pose proof (nonneg_extracted _ _ HF HT) as HE.
  pose proof (nonneg_sbs _ _ HF HT) as HS.
  pose proof (nonneg_old_total _ _ HF HT) as HO.
  rewrite ltb_spec, !leb_spec, He, Hs, Htot.
  change (Prim2SF 0) with (S754_zero false).
  split; [| split].
  - apply SFltb_zero_pos; [assumption |]. now apply SFmul_rank_pos.
  - apply SFleb_rank; auto using rank_extracted_le_sbs.
  - apply SFleb_rank; auto. unfold old_total_sf. now apply SFadd_rank_ge_r.
Qed.

(** X5 on the first scenario. *)
Lemma old_estimates_are_ordered_witness :
  exists r,
    estimate_storage_old_approach 1920 1080 (PyInt 30) (PyInt 600) = Ok r /\
    (0 <? Old.extracted_frames_mb r)%float = true /\
    (Old.extracted_frames_mb r <=? Old.sbs_frames_mb r)%float = true /\
    (Old.sbs_frames_mb r <=? Old.total_peak_mb r)%float = true.
Proof.
  eexists. split; [vm_compute; reflexivity |].
  exact (old_estimates_are_ordered 1920 1080 (PyInt 30) (PyInt 600) _
           ltac:(zlia) ltac:(zlia) eq_refl ltac:(vm_compute; discriminate)).
Defined.

(** X6: the old estimates grow with the number of frames: for the same
    frame, a video with more frames has estimates at least as large. *)
Theorem old_estimates_grow_with_frames
    (w h : Z) (fps1 d1 fps2 d2 : num) (r1 r2 : Old.estimate) :
  0 < w -> 0 < h ->
  estimate_storage_old_approach w h fps1 d1 = Ok r1 ->
  estimate_storage_old_approach w h fps2 d2 = Ok r2 ->
  1 <= Old.total_frames r1 <= Old.total_frames r2 ->
  (Old.extracted_frames_mb r1 <=? Old.extracted_frames_mb r2)%float = true /\
  (Old.sbs_frames_mb r1 <=? Old.sbs_frames_mb r2)%float = true /\
  (Old.total_peak_mb r1 <=? Old.total_peak_mb r2)%float = true.
Proof.
  intros Hw Hh H1 H2 [Hn1 Hn].
  destruct (old_sf w h fps1 d1 r1 Hw Hh H1 Hn1)
    as (f & t1 & Hf & Ht1 & HF & _ & HT1 & _ & He1 & Hs1 & Htot1).
  destruct (old_sf w h fps2 d2 r2 Hw Hh H2 ltac:(zlia))
    as (f' & t2 & Hf' & Ht2 & _ & _ & HT2 & _ & He2 & Hs2 & Htot2).
  rewrite Hf in Hf'. apply Ok_inj in Hf'. subst f'.
  assert (Hnn : 0 < Old.total_frames r1 <= Old.total_frames r2) by zlia.
  pose proof (float_of_int_mono _ _ t1 t2 Hnn Ht1 Ht2) as Hle.
  destruct (old_total_sf_mono _ _ _ HF HT1 HT2 Hle) as (Ha & Hb & Hc).
  rewrite !leb_spec, He1, He2, Hs1, Hs2, Htot1, Htot2.
  split; [| split]; apply SFleb_rank;
    auto using nonneg_extracted, nonneg_sbs, nonneg_old_total.
Qed.

(** X6 on ten minutes against one hour of 1080p. *)
Lemma old_estimates_grow_with_frames_witness :
  exists r1 r2,
    estimate_storage_old_approach 1920 1080 (PyInt 30) (PyInt 600) = Ok r1 /\
    estimate_storage_old_approach 1920 1080 (PyInt 30) (PyInt 3600) = Ok r2 /\
    (Old.total_peak_mb r1 <=? Old.total_peak_mb r2)%float = true.
Proof.
  eexists. eexists.
  split; [vm_compute; reflexivity |]. split; [vm_compute; reflexivity |].
  exact (proj2 (proj2
           (old_estimates_grow_with_frames 1920 1080
              (PyInt 30) (PyInt 600) (PyInt 30) (PyInt 3600) _ _
              ltac:(zlia) ltac:(zlia) eq_refl eq_refl
              ltac:(split; vm_compute; discriminate)))).
Defined.

Lemma ceil_div_one (n c : Z) : 1 <= n <= c -> (n + c - 1) / c = 1.
Proof.
  intros H. symmetry. apply (Z.div_unique _ _ 1 (n - 1)); zlia.
Qed.

(** X7: a video of positive width and height that fits in one chunk
    ([1 <= total_frames <= chunk_size]) is one chunk, its chunked peak is
    [peak_chunk_mb], and the chunked approach saves nothing: the old
    [total_peak_mb] is at most the chunked one. *)
Theorem one_chunk_saves_nothing
    (w h : Z) (fps d : num) (cs : Z) (o : Old.estimate) (c : Chunked.estimate) :
  0 < w -> 0 < h ->
  estimate_storage_old_approach w h fps d = Ok o ->
  estimate_storage_chunked_approach w h fps d cs = Ok c ->
  1 <= Old.total_frames o <= cs ->
  Chunked.total_chunks c = 1 /\
  Chunked.total_peak_mb c = Chunked.peak_chunk_mb c /\
  (Old.total_peak_mb o <=? Chunked.total_peak_mb c)%float = true.
Proof.
  intros Hw Hh Ho Hc [Hn1 Hn].
  destruct (agree_on_frames w h fps d cs o c Ho Hc) as [Hfr _].
  destruct (old_sf w h fps d o Hw Hh Ho Hn1)
    as (f & t & Hf & Ht & HF & HrF & HT & _ & _ & _ & Htot).
  destruct (chunked_sf w h fps d cs c Hw Hh ltac:(zlia) Hc)
    as (f' & g & Hf' & Hg & _ & _ & HC & _ & Hpk & Hmax & Htc &
        k & Hk & _ & Hasm).
  rewrite Hf in Hf'. apply Ok_inj in Hf'. subst f'.
  rewrite Hfr, ceil_div_one in Htc by zlia.
  rewrite Htc, float_of_int_1 in Hk. apply Ok_inj in Hk. subst k.
  rewrite Prim2SF_1 in Hasm.
  set (F := Prim2SF f) in *. set (C := Prim2SF g) in *.
  pose proof (peak_sf_nonneg F C HF HC) as HP.
  pose proof (nonneg_video F C HF HC) as HV.
  pose proof (nonneg_old_total F C HF HC) as HA.
  assert (Hx : rank (assembly_sf F C sf_1) <= rank (peak_sf F C)).
  { unfold assembly_sf, peak_sf.
    pose proof (SFmul_1_rank _ HV) as H1.
    apply SFadd_mono; auto using nonneg_videos, posfin_1.
    - rewrite H1. apply rank_video_le_old_total; assumption.
    - rewrite H1. apply Z.le_refl. }
  assert (Heq : Chunked.total_peak_mb c = Chunked.peak_chunk_mb c).
  { rewrite Hmax. unfold py_max. rewrite ltb_spec, Hasm, Hpk.
    rewrite SFltb_rank_ge; auto using nonneg_assembly, posfin_1. }
  split; [assumption |]. split; [assumption |].
  rewrite Heq, leb_spec, Htot, Hpk.
  apply SFleb_rank; auto using nonneg_old_total.
  assert (Hnn : 0 < Old.total_frames o <= cs) by zlia.
  pose proof (float_of_int_mono _ _ t g Hnn Ht Hg) as Hle.
  destruct (old_total_sf_mono F _ _ HF HT HC Hle) as (_ & _ & Hm).
  pose proof (rank_old_total_le_peak F C HF HC). fold C in Hm. zlia.
Qed.

(** X7 on 60 frames in chunks of 100. *)
Lemma one_chunk_saves_nothing_witness :
  exists o c,
    estimate_storage_old_approach 1920 1080 (PyInt 30) (PyInt 2) = Ok o /\
    estimate_storage_chunked_approach 1920 1080 (PyInt 30) (PyInt 2) 100
      = Ok c /\
    Chunked.total_chunks c = 1 /\
    Chunked.total_peak_mb c = Chunked.peak_chunk_mb c /\
    (Old.total_peak_mb o <=? Chunked.total_peak_mb c)%float = true.
Proof.
  eexists. eexists.
  split; [vm_compute; reflexivity |]. split; [vm_compute; reflexivity |].
  exact (one_chunk_saves_nothing 1920 1080 (PyInt 30) (PyInt 2) 100 _ _
           ltac:(zlia) ltac:(zlia) eq_refl eq_refl
           ltac:(split; vm_compute; discriminate)).
Defined.

(** X8: the chunked total grows with the number of frames: for the same
    frame and chunk size, a video with more frames has at least as many
    chunks and a [total_peak_mb] at least as large. *)
Theorem chunked_total_grows_with_frames
    (w h cs : Z) (fps1 d1 fps2 d2 : num) (r1 r2 : Chunked.estimate) :
  0 < w -> 0 < h -> 1 <= cs ->
  estimate_storage_chunked_approach w h fps1 d1 cs = Ok r1 ->
  estimate_storage_chunked_approach w h fps2 d2 cs = Ok r2 ->
  1 <= Chunked.total_frames r1 <= Chunked.total_frames r2 ->
  Chunked.total_chunks r1 <= Chunked.total_chunks r2 /\
  (Chunked.max_chunk_videos_mb r1 <=? Chunked.max_chunk_videos_mb r2)%float
  = true /\
  (Chunked.total_peak_mb r1 <=? Chunked.total_peak_mb r2)%float = true.
Proof.
  intros Hw Hh Hcs H1 H2 [Hn1 Hn].
  destruct (chunked_sf w h fps1 d1 cs r1 Hw Hh Hcs H1)
    as (f & c & Hf & Hc & HF & _ & HC & _ & Hpk1 & Hmax1 & Htc1 &
        k1 & Hk1 & Hm1 & Ha1).
  destruct (chunked_sf w h fps2 d2 cs r2 Hw Hh Hcs H2)
    as (f' & c' & Hf' & Hc' & _ & _ & _ & _ & Hpk2 & Hmax2 & Htc2 &
        k2 & Hk2 & Hm2 & Ha2).
  rewrite Hf in Hf'. apply Ok_inj in Hf'. subst f'.
  rewrite Hc in Hc'. apply Ok_inj in Hc'. subst c'.
  assert (Hk0 : 1 <= Chunked.total_chunks r1).
  { rewrite Htc1. apply Z.div_le_lower_bound; zlia. }
  assert (Hkk : Chunked.total_chunks r1 <= Chunked.total_chunks r2).
  { rewrite Htc1, Htc2. apply Z.div_le_mono; zlia. }
  assert (Hk1' : 0 < Chunked.total_chunks r1) by zlia.
  assert (Hk2' : 0 < Chunked.total_chunks r2) by zlia.
  pose proof (float_of_int_posfin _ k1 Hk1' Hk1) as HK1.
  pose proof (float_of_int_posfin _ k2 Hk2' Hk2) as HK2.
  pose proof (float_of_int_mono _ _ k1 k2 (conj Hk1' Hkk) Hk1 Hk2) as Hle.
  destruct (assembly_sf_mono _ _ _ _ HF HC HK1 HK2 Hle) as [Hv Ha].
  pose proof (peak_sf_nonneg _ _ HF HC) as HP.
  split; [assumption |]. split.
  - rewrite leb_spec, Hm1, Hm2.
    apply SFleb_rank; auto using nonneg_videos.
  - rewrite Hmax1, Hmax2, leb_spec.
    destruct (py_max_rank (Chunked.peak_chunk_mb r1)
                (Chunked.max_chunk_videos_mb r1
                 + Chunked.max_chunk_videos_mb r1)%float) as [Hx1 Hr1];
      [now rewrite Hpk1 | rewrite Ha1; now apply nonneg_assembly |].
    destruct (py_max_rank (Chunked.peak_chunk_mb r2)
                (Chunked.max_chunk_videos_mb r2
                 + Chunked.max_chunk_videos_mb r2)%float) as [Hx2 Hr2];
      [now rewrite Hpk2 | rewrite Ha2; now apply nonneg_assembly |].
    apply SFleb_rank; [assumption | assumption |].
    rewrite Hr1, Hr2, Hpk1, Hpk2, Ha1, Ha2. zlia.
Qed.

(** X8 on ten minutes against one hour of 1080p. *)
Lemma chunked_total_grows_with_frames_witness :
  exists r1 r2,
    estimate_storage_chunked_approach 1920 1080 (PyInt 30) (PyInt 600) 100
      = Ok r1 /\
    estimate_storage_chunked_approach 1920 1080 (PyInt 30) (PyInt 3600) 100
      = Ok r2 /\
    Chunked.total_chunks r1 <= Chunked.total_chunks r2 /\
    (Chunked.max_chunk_videos_mb r1 <=? Chunked.max_chunk_videos_mb r2)%float
    = true /\
    (Chunked.total_peak_mb r1 <=? Chunked.total_peak_mb r2)%float = true.
Proof.
  eexists. eexists.
  split; [vm_compute; reflexivity |]. split; [vm_compute; reflexivity |].
  exact (chunked_total_grows_with_frames 1920 1080 100
           (PyInt 30) (PyInt 600) (PyInt 30) (PyInt 3600) _ _
           ltac:(zlia) ltac:(zlia) ltac:(zlia) eq_refl eq_refl
           ltac:(split; vm_compute; discriminate)).
Defined.

(** ** The relative error of a rounding *)

(** In the normal range a rounding is within one part in [2^52] of its
    argument; one part in 1024 is all the estimates need. *)
Lemma rnd_rel (u V : Z) :
  1074 <= u -> 0 < V -> -1074 <= Zdigits2 V - u - 53 ->
  1023 * V <= 1024 * (rnd u V * 2 ^ (u - 1074)) <= 1025 * V.
Proof.
  intros Hu HV Hn. unfold rnd. rewrite fexp64.
  pose proof (Zdigits2_bounds V HV) as [Hlo _].
  set (d := Zdigits2 V) in *.
  replace (Z.max (d - u - 53) (-1074)) with (d - u - 53) by zlia.
  replace (d - u - 53 + u) with (d - 53) by zlia.
  rewrite <- Z.mul_assoc, <- Z.pow_add_r by zlia.
  replace (d - u - 53 + 1074 + (u - 1074)) with (d - 53) by zlia.
  pose proof (nearest_even_bounds V (d - 53) ltac:(zlia)) as [Hn1 Hn2].
  pose proof (pow2_pos (d - 53) ltac:(zlia)) as HP.
  replace (d - 1) with (52 + (d - 53)) in Hlo by zlia.
  rewrite Z.pow_add_r in Hlo by zlia. change (2 ^ 52) with 4503599627370496 in Hlo.
  pose proof (Z.div_mod V (2 ^ (d - 53)) ltac:(zlia)) as Hdm.
  pose proof (Z.mod_pos_bound V (2 ^ (d - 53)) HP) as Hm.
  set (Pk := 2 ^ (d - 53)) in *.
  set (n := nearest_even V (d - 53)) in *.
  assert (H1 : V / Pk * Pk <= n * Pk) by (apply Z.mul_le_mono_nonneg_r; zlia).
  assert (H2 : n * Pk <= (V / Pk + 1) * Pk)
    by (apply Z.mul_le_mono_nonneg_r; zlia).
  zlia.
Qed.

Lemma rnd_rel_int (V : Z) :
  2 ^ 52 <= V -> 1023 * V <= 1024 * rnd 1074 V <= 1025 * V.
Proof.
  intros HV. assert (H0 : 0 < V) by (change (2 ^ 52) with 4503599627370496 in HV; zlia).
  pose proof (Zdigits2_mono (2 ^ 52) V ltac:(zlia)) as Hd.
  rewrite Zdigits2_pow2 in Hd by zlia.
  pose proof (rnd_rel 1074 V ltac:(zlia) H0 ltac:(zlia)) as H.
  change (1074 - 1074) with 0 in H. rewrite Z.pow_0_r, Z.mul_1_r in H.
  exact H.
Qed.

Lemma rnd_rel_mul (V : Z) :
  2 ^ 1126 <= V ->
  1023 * V <= 1024 * (rnd 2148 V * 2 ^ 1074) <= 1025 * V.
Proof.
  intros HV. pose proof (pow2_pos 1126 ltac:(zlia)) as HP.
  assert (H0 : 0 < V) by zlia.
  pose proof (Zdigits2_mono (2 ^ 1126) V ltac:(zlia)) as Hd.
  rewrite Zdigits2_pow2 in Hd by zlia.
  exact (rnd_rel 2148 V ltac:(zlia) H0 ltac:(zlia)).
Qed.

(** ** Ranks of products and sums *)

Lemma rint_eq (z : Z) : rint z = rnd 1074 (z * 2 ^ 1074).
Proof. reflexivity. Qed.

Lemma rmul_eq (a b : Z) : rmul a b = rnd 2148 (a * b).
Proof. reflexivity. Qed.

Lemma radd_eq (a b : Z) : radd a b = rnd 1074 (a + b).
Proof. reflexivity. Qed.

Lemma video_rank_eq (f c : Z) :
  video_rank f c = rmul (rmul (2 * f) c) (units sf_0_1).
Proof. reflexivity. Qed.

Lemma peak_rank_eq (f c : Z) :
  peak_rank f c = radd (radd (rmul f c) (rmul (2 * f) c)) (video_rank f c).
Proof. reflexivity. Qed.

Lemma assembly_rank_eq (f c k : Z) :
  assembly_rank f c k
  = radd (rmul (video_rank f c) k) (rmul (video_rank f c) k).
Proof. reflexivity. Qed.

Lemma old_total_rank_eq (f t : Z) :
  old_total_rank f t = radd (rmul f t) (rmul (2 * f) t).
Proof. reflexivity. Qed.

Lemma mul_pow2_lower (x y a b : Z) :
  0 <= a -> 0 <= b -> 2 ^ a <= x -> 2 ^ b <= y -> 2 ^ (a + b) <= x * y.
Proof.
  intros Ha Hb Hx Hy. rewrite Z.pow_add_r by assumption.
  pose proof (pow2_pos a Ha). pose proof (pow2_pos b Hb).
  apply Z.mul_le_mono_nonneg; zlia.
Qed.

Lemma rmul_lower (x y a b : Z) :
  0 <= a -> 0 <= b -> 1074 <= a + b -> 2 ^ a <= x -> 2 ^ b <= y ->
  2 ^ (a + b - 1074) <= rmul x y.
Proof.
  intros Ha Hb Hab Hx Hy. unfold rmul.
  pose proof (mul_pow2_lower x y a b Ha Hb Hx Hy) as Hxy.
  pose proof (pow2_pos (a + b) ltac:(zlia)) as HP.
  pose proof (rnd_mono0 2148 (2 ^ (a + b)) (x * y) ltac:(zlia) ltac:(zlia)) as H.
  rewrite rnd_pow2 in H by zlia.
  replace (a + b - (2148 - 1074)) with (a + b - 1074) in H by zlia. exact H.
Qed.

Lemma rmul_rel (x y a b : Z) :
  0 <= a -> 0 <= b -> 1126 <= a + b -> 2 ^ a <= x -> 2 ^ b <= y ->
  1023 * (x * y) <= 1024 * (rmul x y * 2 ^ 1074) <= 1025 * (x * y).
Proof.
  intros Ha Hb Hab Hx Hy. unfold rmul. apply rnd_rel_mul.
  pose proof (mul_pow2_lower x y a b Ha Hb Hx Hy) as Hxy.
  pose proof (pow2_le 1126 (a + b) ltac:(zlia)). zlia.
Qed.

Lemma rmul_double (x y a b : Z) :
  0 <= a -> 0 <= b -> 1126 <= a + b -> 2 ^ a <= x -> 2 ^ b <= y ->
  rmul (2 * x) y = 2 * rmul x y.
Proof.
  intros Ha Hb Hab Hx Hy. unfold rmul.
  pose proof (mul_pow2_lower x y a b Ha Hb Hx Hy) as Hxy.
  pose proof (pow2_le 1126 (a + b) ltac:(zlia)) as Hle.
  pose proof (pow2_pos 1126 ltac:(zlia)) as HP.
  assert (H0 : 0 < x * y) by zlia.
  pose proof (Zdigits2_mono (2 ^ 1126) (x * y) ltac:(zlia)) as Hd.
  rewrite Zdigits2_pow2 in Hd by zlia.
  replace (2 * x * y) with (2 * (x * y)) by zlia.
  apply rnd_double; zlia.
Qed.

Lemma rmul_mono (x y x' y' : Z) :
  0 <= x <= x' -> 0 <= y <= y' -> rmul x y <= rmul x' y'.
Proof.
  intros Hx Hy. unfold rmul. apply rnd_mono0; [zlia |].
  split; [apply Z.mul_nonneg_nonneg; zlia |].
  apply Z.mul_le_mono_nonneg; zlia.
Qed.

Lemma radd_mono (x y x' y' : Z) :
  0 <= x <= x' -> 0 <= y <= y' -> radd x y <= radd x' y'.
Proof. intros Hx Hy. unfold radd. apply rnd_mono0; zlia. Qed.

Lemma radd_rel (x y : Z) :
  2 ^ 52 <= x + y ->
  1023 * (x + y) <= 1024 * radd x y <= 1025 * (x + y).
Proof. intros H. unfold radd. now apply rnd_rel_int. Qed.

Lemma rint_lower (z : Z) : 1 <= z -> 2 ^ 1074 <= rint z.
Proof.
  intros Hz. unfold rint.
  pose proof (pow2_pos 1074 ltac:(zlia)) as HP.
  pose proof (rnd_mono0 1074 (2 ^ 1074) (z * 2 ^ 1074) ltac:(zlia)
                ltac:(split; [zlia | znia])) as H.
  rewrite rnd_pow2 in H by zlia.
  replace (1074 - (1074 - 1074)) with 1074 in H by zlia. exact H.
Qed.

Lemma rint_rel (z : Z) :
  1 <= z ->
  1023 * (z * 2 ^ 1074) <= 1024 * rint z <= 1025 * (z * 2 ^ 1074).
Proof.
  intros Hz. unfold rint. apply rnd_rel_int.
  pose proof (pow2_le 52 1074 ltac:(zlia)).
  pose proof (pow2_pos 1074 ltac:(zlia)). znia.
Qed.

Lemma rint_double_le (c T : Z) : 1 <= c -> 2 * c <= T -> 2 * rint c <= rint T.
Proof.
  intros Hc HT. unfold rint.
  pose proof (pow2_pos 1074 ltac:(zlia)) as HP.
  assert (H0 : 0 < c * 2 ^ 1074) by znia.
  pose proof (pow2_le 52 1074 ltac:(zlia)) as H52.
  pose proof (Zdigits2_mono (2 ^ 52) (c * 2 ^ 1074) ltac:(znia)) as Hd.
  rewrite Zdigits2_pow2 in Hd by zlia.
  rewrite <- rnd_double by zlia.
  apply rnd_mono0; [zlia | znia].
Qed.

(** ** A long video *)

Lemma units_0_1_bounds : 2 ^ 1070 <= units sf_0_1 /\ 8 * units sf_0_1 <= 2 ^ 1074.
Proof.
  cbn [units sf_0_1]. change (-56 + 1074) with 1018.
  replace (2 ^ 1070) with (2 ^ 52 * 2 ^ 1018)
    by (rewrite <- Z.pow_add_r by zlia; reflexivity).
  replace (2 ^ 1074) with (2 ^ 56 * 2 ^ 1018)
    by (rewrite <- Z.pow_add_r by zlia; reflexivity).
  change (2 ^ 52) with 4503599627370496.
  change (2 ^ 56) with 72057594037927936.
  pose proof (pow2_pos 1018 ltac:(zlia)). zlia.
Qed.

(** The ranks of the two estimates, for a frame of rank [f] (at least
    [2^-20]), chunks of [c] frames and [T >= 2 * c] frames in [K] chunks:
    every chunked quantity is below the old total. *)
Lemma long_video_ranks (f c T K : Z) :
  2 ^ 1054 <= f -> 1 <= c -> 2 * c <= T -> 1 <= K -> c * K <= T + c - 1 ->
  let O := old_total_rank f (rint T) in
  rmul f (rint T) <= O /\
  rmul (2 * f) (rint T) <= O /\
  rmul f (rint c) <= O /\
  rmul (2 * f) (rint c) <= O /\
  radd (rmul f (rint c)) (rmul (2 * f) (rint c)) <= O /\
  video_rank f (rint c) <= O /\
  rmul (video_rank f (rint c)) (rint K) <= O /\
  peak_rank f (rint c) < O /\
  assembly_rank f (rint c) (rint K) < O.
Proof.
  intros Hf Hc HT HK HcK.
  cbv zeta.
  rewrite old_total_rank_eq, peak_rank_eq, assembly_rank_eq, !video_rank_eq.
  pose proof (rint_lower c Hc) as Hrc_lo.
  pose proof (rint_rel c Hc) as [_ Hrc_rel].
  pose proof (rint_lower T ltac:(zlia)) as Ht_lo.
  pose proof (rint_rel T ltac:(zlia)) as [Ht_rel _].
  pose proof (rint_double_le c T Hc HT) as Ht2.
  pose proof (rint_lower K HK) as Hk_lo.
  pose proof (rint_rel K HK) as [_ Hk_rel].
  set (rc := rint c) in *. set (t := rint T) in *. set (k := rint K) in *.
  destruct units_0_1_bounds as [Hr01_lo Hr01_hi].
  set (r01 := units sf_0_1) in *.
  (* the products with the frame size *)
  pose proof (rmul_lower f rc 1054 1074 ltac:(zlia) ltac:(zlia) ltac:(zlia)
                Hf Hrc_lo) as He1_lo.
  change (1054 + 1074 - 1074) with 1054 in He1_lo.
  pose proof (rmul_rel f rc 1054 1074 ltac:(zlia) ltac:(zlia) ltac:(zlia)
                Hf Hrc_lo) as [_ He1_rel].
  pose proof (rmul_double f rc 1054 1074 ltac:(zlia) ltac:(zlia) ltac:(zlia)
                Hf Hrc_lo) as Hs1.
  pose proof (rmul_rel f t 1054 1074 ltac:(zlia) ltac:(zlia) ltac:(zlia)
                Hf Ht_lo) as [Heo_rel _].
  pose proof (rmul_double f t 1054 1074 ltac:(zlia) ltac:(zlia) ltac:(zlia)
                Hf Ht_lo) as Hso.
  pose proof (pow2_pos 1054 ltac:(zlia)) as HP1054.
  pose proof (pow2_pos 1074 ltac:(zlia)) as HU.
  assert (Heo2 : 2 * rmul f rc <= rmul f t).
  { rewrite <- Hs1, !rmul_eq. apply rnd_mono0; [zlia |].
    pose proof (Z.mul_le_mono_nonneg_l _ _ f ltac:(zlia) Ht2).
    assert (0 <= f * rc) by (apply Z.mul_nonneg_nonneg; zlia).
    zlia. }
  rewrite Hs1, Hso.
  set (e1 := rmul f rc) in *. set (eo := rmul f t) in *.
  (* the old total *)
  pose proof (pow2_le 52 1054 ltac:(zlia)) as H52.
  pose proof (radd_rel eo (2 * eo) ltac:(zlia)) as [HO_rel _].
  set (O := radd eo (2 * eo)) in *.
  (* the chunk *)
  pose proof (radd_rel e1 (2 * e1) ltac:(zlia)) as [Ha1_lo Ha1_rel].
  assert (Ha1_O : radd e1 (2 * e1) <= O)
    by (apply radd_mono; zlia).
  set (a1 := radd e1 (2 * e1)) in *.
  assert (H2e1 : 2 ^ 1055 <= 2 * e1).
  { change 1055 with (1 + 1054). rewrite Z.pow_add_r by zlia.
    change (2 ^ 1) with 2. zlia. }
  pose proof (rmul_lower (2 * e1) r01 1055 1070 ltac:(zlia) ltac:(zlia)
                ltac:(zlia) H2e1 Hr01_lo) as Hrv_lo.
  change (1055 + 1070 - 1074) with 1051 in Hrv_lo.
  pose proof (rmul_rel (2 * e1) r01 1055 1070 ltac:(zlia) ltac:(zlia)
                ltac:(zlia) H2e1 Hr01_lo) as [_ Hrv_rel].
  set (rv := rmul (2 * e1) r01) in *.
  pose proof (pow2_pos 1051 ltac:(zlia)) as HP1051.
  assert (Hrv : 4096 * rv <= 1025 * e1).
  { assert (H : (8192 * rv) * 2 ^ 1074 <= (2050 * e1) * 2 ^ 1074).
    { pose proof (Z.mul_le_mono_nonneg_l _ _ (2050 * e1) ltac:(zlia) Hr01_hi).
      zlia. }
    apply Z.mul_le_mono_pos_r in H; zlia. }
  pose proof (pow2_le 52 1051 ltac:(zlia)) as H52'.
  pose proof (radd_rel a1 rv ltac:(zlia)) as [_ HP_rel].
  set (P := radd a1 rv) in *.
  (* the assembly *)
  pose proof (rmul_lower rv k 1051 1074 ltac:(zlia) ltac:(zlia) ltac:(zlia)
                Hrv_lo Hk_lo) as HrM_lo.
  change (1051 + 1074 - 1074) with 1051 in HrM_lo.
  pose proof (rmul_rel rv k 1051 1074 ltac:(zlia) ltac:(zlia) ltac:(zlia)
                Hrv_lo Hk_lo) as [_ HrM_rel].
  set (rM := rmul rv k) in *.
  pose proof (radd_rel rM rM ltac:(zlia)) as [_ HX_rel].
  set (X := radd rM rM) in *.
  set (U := 2 ^ 1074) in *.
  assert (HrM1 : 1048576 * rM <= 1050625 * (rv * K)).
  { assert (H : (1048576 * rM) * U <= (1050625 * (rv * K)) * U).
    { pose proof (Z.mul_le_mono_nonneg_l _ _ (1025 * rv) ltac:(zlia) Hk_rel).
      zlia. }
    apply Z.mul_le_mono_pos_r in H; zlia. }
  assert (He1f : 1048576 * e1 <= 1050625 * (f * c)).
  { assert (H : (1048576 * e1) * U <= (1050625 * (f * c)) * U).
    { pose proof (Z.mul_le_mono_nonneg_l _ _ (1025 * f) ltac:(zlia) Hrc_rel).
      zlia. }
    apply Z.mul_le_mono_pos_r in H; zlia. }
  assert (Heof : 1046529 * (f * T) <= 1048576 * eo).
  { assert (H : (1046529 * (f * T)) * U <= (1048576 * eo) * U).
    { pose proof (Z.mul_le_mono_nonneg_l _ _ (1023 * f) ltac:(zlia) Ht_rel).
      zlia. }
    apply Z.mul_le_mono_pos_r in H; zlia. }
  assert (HfT : 0 < f * T) by (apply Z.mul_pos_pos; zlia).
  assert (HfcK : 2 * (f * c * K) <= 3 * (f * T)).
  { pose proof (Z.mul_le_mono_nonneg_l (2 * (c * K)) (3 * T) f ltac:(zlia)
                  ltac:(zlia)). zlia. }
  assert (HrvK : 4096 * (rv * K) <= 1025 * (e1 * K)).
  { pose proof (Z.mul_le_mono_nonneg_r _ _ K ltac:(zlia) Hrv). zlia. }
  assert (He1K : 1048576 * (e1 * K) <= 1050625 * (f * c * K)).
  { pose proof (Z.mul_le_mono_nonneg_r _ _ K ltac:(zlia) He1f). zlia. }
  repeat split; zlia.
Qed.

(** ** Finite products and sums *)

Lemma rank_sf_2 : rank sf_2 = units sf_2.
Proof. reflexivity. Qed.

Lemma rank_sf_0_1 : rank sf_0_1 = units sf_0_1.
Proof. reflexivity. Qed.

Lemma rank_sf_1_2 : rank sf_1_2 = units sf_1_2.
Proof. reflexivity. Qed.

Lemma SFmul_fin (x y : spec_float) :
  nonneg_float x -> nonneg_float y -> is_inf x = false -> is_inf y = false ->
  rmul (rank x) (rank y) < 2 ^ 2098 ->
  nonneg_float (SFmul prec emax x y) /\
  is_inf (SFmul prec emax x y) = false /\
  rank (SFmul prec emax x y) = rmul (rank x) (rank y).
Proof.
  intros Hx Hy Hix Hiy Hlt.
  destruct (SFmul_nonneg x y Hx Hy) as [Hn Hr];
    [rewrite Hix; discriminate | rewrite Hiy; discriminate |].
  rewrite Hix, Hiy in Hr. cbn [orb] in Hr. rewrite <- rmul_eq in Hr.
  assert (Hr' : rank (SFmul prec emax x y) = rmul (rank x) (rank y)) by zlia.
  split; [assumption |]. split; [| assumption].
  apply is_inf_rank; [assumption | zlia].
Qed.

Lemma SFadd_fin (x y : spec_float) :
  nonneg_float x -> nonneg_float y -> is_inf x = false -> is_inf y = false ->
  radd (rank x) (rank y) < 2 ^ 2098 ->
  nonneg_float (SFadd prec emax x y) /\
  is_inf (SFadd prec emax x y) = false /\
  rank (SFadd prec emax x y) = radd (rank x) (rank y).
Proof.
  intros Hx Hy Hix Hiy Hlt.
  destruct (SFadd_nonneg x y Hx Hy) as [Hn Hr].
  rewrite Hix, Hiy in Hr. cbn [orb] in Hr. rewrite <- radd_eq in Hr.
  assert (Hr' : rank (SFadd prec emax x y) = radd (rank x) (rank y)) by zlia.
  split; [assumption |]. split; [| assumption].
  apply is_inf_rank; [assumption | zlia].
Qed.

Lemma SFmul_fin_inv (x y : spec_float) :
  nonneg_float x -> posfin y -> is_inf (SFmul prec emax x y) = false ->
  is_inf x = false /\
  rank (SFmul prec emax x y) = rmul (rank x) (rank y) /\
  rmul (rank x) (rank y) < 2 ^ 2098.
Proof.
  intros Hx Hy Hi. pose proof (SFmul_not_inf x y Hx Hy Hi) as Hix.
  destruct Hy as (Hy & Hiy & Hry).
  destruct (SFmul_nonneg x y Hx Hy) as [Hn Hr];
    [rewrite Hix; discriminate | rewrite Hiy; discriminate |].
  rewrite Hix, Hiy in Hr. cbn [orb] in Hr. rewrite <- rmul_eq in Hr.
  destruct (rank_finite _ Hn Hi) as [Hlt _].
  split; [assumption |]. split; zlia.
Qed.

Lemma SFadd_fin_inv (x y : spec_float) :
  nonneg_float x -> nonneg_float y -> is_inf (SFadd prec emax x y) = false ->
  is_inf x = false /\ is_inf y = false /\
  rank (SFadd prec emax x y) = radd (rank x) (rank y) /\
  radd (rank x) (rank y) < 2 ^ 2098.
Proof.
  intros Hx Hy Hi. destruct (SFadd_not_inf x y Hx Hy Hi) as [Hix Hiy].
  destruct (SFadd_nonneg x y Hx Hy) as [Hn Hr].
  rewrite Hix, Hiy in Hr. cbn [orb] in Hr. rewrite <- radd_eq in Hr.
  destruct (rank_finite _ Hn Hi) as [Hlt _].
  split; [assumption |]. split; [assumption |]. split; zlia.
Qed.

(** The rank of the double of a finite float. *)
Lemma rmul_2 (f : Z) : 0 <= f -> fits f -> rmul f (rank sf_2) = 2 * f.
Proof.
  intros Hf Hfit. rewrite rank_sf_2, units_2.
  rewrite rmul_eq. destruct (Z.eq_dec f 0) as [-> | Hnz].
  - rewrite Z.mul_0_l, rnd_0. reflexivity.
  - replace (f * 2 ^ 1075) with (2 * f * 2 ^ 1074)
      by (change 1075 with (1 + 1074); rewrite Z.pow_add_r by zlia; zlia).
    change 2148 with (1074 + 1074). rewrite rnd_scale by zlia.
    apply rnd_exact; [zlia |]. apply fits_double; [zlia | assumption].
Qed.

(** A video of at least two chunks, in [SpecFloat] terms: when the old total
    is finite, the chunk peak and the storage of the assembly are below
    it. *)
Lemma long_video_sf (F C T K : spec_float) (c n k : Z) :
  nonneg_float F -> 2 ^ 1054 <= rank F ->
  posfin C -> posfin T -> posfin K ->
  rank C = rint c -> rank T = rint n -> rank K = rint k ->
  1 <= c -> 2 * c <= n -> 1 <= k -> c * k <= n + c - 1 ->
  is_inf (old_total_sf F T) = false ->
  rank (peak_sf F C) < rank (old_total_sf F T) /\
  rank (assembly_sf F C K) < rank (old_total_sf F T).
Proof.
  intros HF HrF HC HT HK HrC HrT HrK Hc Hn Hk Hck Hfin.
  pose proof (nonneg_F2 F HF) as HF2.
  pose proof posfin_2 as H2.
  pose proof posfin_0_1 as (H01 & Hi01 & _).
  destruct HC as (HCn & HiC & HC0). destruct HK as (HKn & HiK & HK0).
  assert (HC : posfin C) by (repeat split; assumption).
  assert (HK : posfin K) by (repeat split; assumption).
  (* the old total, from the top *)
  unfold old_total_sf in Hfin.
  destruct (SFadd_fin_inv _ _ (nonneg_extracted F T HF HT)
              (nonneg_sbs F T HF HT) Hfin) as (Hieo & Hiso & HrO & HOlt).
  destruct (SFmul_fin_inv F T HF HT Hieo) as (HiF & Hreo & _).
  destruct (SFmul_fin_inv _ T HF2 HT Hiso) as (HiF2 & Hrso & _).
  destruct (SFmul_fin_inv F sf_2 HF H2 HiF2) as (_ & HrF2 & _).
  destruct (rank_finite F HF HiF) as [_ Hfit].
  rewrite rmul_2 in HrF2 by (assumption || apply rank_nonneg).
  rewrite Hreo, Hrso, HrF2, HrT in HrO, HOlt.
  rewrite <- old_total_rank_eq in HrO, HOlt.
  unfold old_total_sf. rewrite HrO.
  destruct (long_video_ranks (rank F) c n k HrF Hc Hn Hk Hck)
    as (_ & _ & He1 & Hs1 & Ha1 & Hv & Hm & HP & HX).
  rewrite peak_rank_eq in HP. rewrite assembly_rank_eq in HX.
  set (O := old_total_rank (rank F) (rint n)) in *.
  (* the chunked estimate, from the bottom *)
  destruct (SFmul_fin F C HF HCn HiF HiC) as (HE1n & HiE1 & HrE1);
    [rewrite HrC; zlia |].
  destruct (SFmul_fin _ C HF2 HCn HiF2 HiC) as (HS1n & HiS1 & HrS1);
    [rewrite HrF2, HrC; zlia |].
  rewrite HrF2, HrC in HrS1. rewrite HrC in HrE1.
  destruct (SFadd_fin _ _ HE1n HS1n HiE1 HiS1) as (HA1n & HiA1 & HrA1);
    [rewrite HrE1, HrS1; zlia |].
  rewrite HrE1, HrS1 in HrA1.
  destruct (SFmul_fin _ sf_0_1 HS1n H01 HiS1 Hi01) as (HVn & HiV & HrV);
    [rewrite HrS1, rank_sf_0_1, <- video_rank_eq; zlia |].
  rewrite HrS1, rank_sf_0_1, <- video_rank_eq in HrV.
  fold (video_sf F C) in HVn, HiV, HrV.
  split.
  - unfold peak_sf. fold (video_sf F C).
    destruct (SFadd_fin _ _ HA1n HVn HiA1 HiV) as (_ & _ & HrP);
      [rewrite HrA1, HrV; zlia |].
    rewrite HrP, HrA1, HrV. exact HP.
  - unfold assembly_sf.
    destruct (SFmul_fin _ K HVn HKn HiV HiK) as (HMn & HiM & HrM);
      [rewrite HrV, HrK; zlia |].
    rewrite HrV, HrK in HrM.
    destruct (SFadd_fin _ _ HMn HMn HiM HiM) as (_ & _ & HrX);
      [rewrite HrM; zlia |].
    rewrite HrX, HrM. exact HX.
Qed.

Lemma frame_size_rank_lower (w h : Z) (f : float) :
  0 < w -> 0 < h -> frame_size w h = Ok f -> 2 ^ 1054 <= rank (Prim2SF f).
Proof.
  intros Hw Hh H.
  assert (HX : 0 < w * h * 3) by znia.
  destruct (frame_size_sf w h f H)
    as [[H0 _] | [[_ ->] | (_ & m & e & -> & Hb & Hd & He)]]; [zlia | |].
  - cbn [rank]. apply pow2_le. zlia.
  - cbn [rank units].
    pose proof (Zdigits2_bounds (Zpos m) ltac:(zlia)) as [Hlo _].
    rewrite Hd in Hlo. change (53 - 1) with 52 in Hlo.
    pose proof (pow2_le 1002 (e + 1074) ltac:(zlia)) as Hle.
    pose proof (pow2_pos 1002 ltac:(zlia)) as HP.
    replace (2 ^ 1054) with (2 ^ 52 * 2 ^ 1002)
      by (rewrite <- Z.pow_add_r by zlia; reflexivity).
    apply Z.mul_le_mono_nonneg; zlia.
Qed.

(** X9: a video of at least two chunks ([total_frames >= 2 * chunk_size])
    never takes more storage with the chunked approach, and takes strictly
    less whenever the old total is finite. *)
Theorem long_video_saves_storage
    (w h : Z) (fps d : num) (cs : Z) (o : Old.estimate) (c : Chunked.estimate) :
  0 < w -> 0 < h -> 1 <= cs ->
  estimate_storage_old_approach w h fps d = Ok o ->
  estimate_storage_chunked_approach w h fps d cs = Ok c ->
  2 * cs <= Old.total_frames o ->
  (Chunked.total_peak_mb c <=? Old.total_peak_mb o)%float = true /\
  ((Old.total_peak_mb o <? infinity)%float = true ->
   (Chunked.total_peak_mb c <? Old.total_peak_mb o)%float = true).
Proof.
  intros Hw Hh Hcs Ho Hc Hn.
  destruct (agree_on_frames w h fps d cs o c Ho Hc) as [Hfr _].
  destruct (old_sf w h fps d o Hw Hh Ho ltac:(zlia))
    as (f & t & Hf & Ht & HF & _ & HT & _ & _ & _ & Htot).
  destruct (chunked_sf w h fps d cs c Hw Hh Hcs Hc)
    as (f' & g & Hf' & Hg & _ & _ & HC & _ & Hpk & Hmax & Htc &
        k & Hk & _ & Hasm).
  rewrite Hf in Hf'. apply Ok_inj in Hf'. subst f'.
  rewrite Hfr in Htc.
  assert (Hk1 : 1 <= Chunked.total_chunks c).
  { rewrite Htc. apply Z.div_le_lower_bound; zlia. }
  assert (Hck : cs * Chunked.total_chunks c <= Old.total_frames o + cs - 1).
  { rewrite Htc. apply Z.mul_div_le. zlia. }
  assert (Hk0 : 0 < Chunked.total_chunks c) by zlia.
  pose proof (float_of_int_posfin _ k Hk0 Hk) as HK.
  destruct (float_of_int_pos cs g ltac:(zlia) Hg) as (_ & _ & HrC & _).
  assert (Hn0 : 0 < Old.total_frames o) by zlia.
  destruct (float_of_int_pos _ t Hn0 Ht) as (_ & _ & HrT & _).
  destruct (float_of_int_pos _ k Hk0 Hk) as (_ & _ & HrK & _).
  pose proof (frame_size_rank_lower w h f Hw Hh Hf) as HrF.
  set (F := Prim2SF f) in *. set (C := Prim2SF g) in *.
  set (T := Prim2SF t) in *. set (K := Prim2SF k) in *.
  pose proof (peak_sf_nonneg F C HF HC) as HP.
  pose proof (nonneg_assembly F C HF HC K HK) as HX.
  pose proof (nonneg_old_total F T HF HT) as HO.
  destruct (py_max_rank (Chunked.peak_chunk_mb c)
              (Chunked.max_chunk_videos_mb c
               + Chunked.max_chunk_videos_mb c)%float) as [Hnew Hrnew];
    [now rewrite Hpk | now rewrite Hasm |].
  rewrite <- Hmax, Hpk, Hasm in Hrnew. rewrite <- Hmax in Hnew.
  rewrite leb_spec, !ltb_spec, Htot.
  change (Prim2SF infinity) with (S754_infinity false).
  destruct (is_inf (old_total_sf F T)) eqn:Hinf.
  - split.
    + apply SFleb_rank; [assumption | assumption |].
      rewrite (rank_inf _ Hinf). now apply rank_le_top.
    + intros Hlt. apply (SFltb_inf_not_inf _ HO) in Hlt. congruence.
  - destruct (long_video_sf F C T K cs (Old.total_frames o)
                (Chunked.total_chunks c) HF HrF HC HT HK HrC HrT HrK
                Hcs Hn Hk1 Hck Hinf) as [H1 H2].
    split.
    + apply SFleb_rank; [assumption | assumption | zlia].
    + intros _. apply SFltb_rank_lt; [assumption | assumption | zlia].
Qed.

(** X9 on the first scenario. *)
Lemma long_video_saves_storage_witness :
  exists o c,
    estimate_storage_old_approach 1920 1080 (PyInt 30) (PyInt 600) = Ok o /\
    estimate_storage_chunked_approach 1920 1080 (PyInt 30) (PyInt 600) 100
      = Ok c /\
    (Chunked.total_peak_mb c <? Old.total_peak_mb o)%float = true.
Proof.
  eexists. eexists.
  split; [vm_compute; reflexivity |]. split; [vm_compute; reflexivity |].
  exact (proj2
           (long_video_saves_storage 1920 1080 (PyInt 30) (PyInt 600) 100 _ _
              ltac:(zlia) ltac:(zlia) ltac:(zlia) eq_refl eq_refl
              ltac:(vm_compute; discriminate))
           eq_refl).
Defined.

(** ** The most that chunks can save *)

Lemma units_0_1_lower : 2 ^ 1074 <= 10 * units sf_0_1.
Proof.
  cbn [units sf_0_1]. change (-56 + 1074) with 1018.
  replace (2 ^ 1074) with (2 ^ 56 * 2 ^ 1018)
    by (rewrite <- Z.pow_add_r by zlia; reflexivity).
  change (2 ^ 56) with 72057594037927936.
  pose proof (pow2_pos 1018 ltac:(zlia)). zlia.
Qed.

(** The ranks of the two estimates for [n] frames in [k] chunks of [c]
    frames ([n <= c * k]): the old total is at most 8 times the storage of
    the assembly. *)
Lemma savings_bound_ranks (f c n k : Z) :
  2 ^ 1054 <= f -> 1 <= c -> 1 <= n -> 1 <= k -> n <= c * k ->
  old_total_rank f (rint n) <= 8 * assembly_rank f (rint c) (rint k).
Proof.
  intros Hf Hc Hn Hk Hnck.
  rewrite old_total_rank_eq, assembly_rank_eq, !video_rank_eq.
  pose proof (rint_lower c Hc) as Hrc_lo.
  pose proof (rint_rel c Hc) as [Hrc_rel _].
  pose proof (rint_lower n Hn) as Ht_lo.
  pose proof (rint_rel n Hn) as [_ Ht_rel].
  pose proof (rint_lower k Hk) as Hk_lo.
  pose proof (rint_rel k Hk) as [Hk_rel _].
  set (rc := rint c) in *. set (t := rint n) in *. set (rk := rint k) in *.
  destruct units_0_1_bounds as [Hr01_lo _].
  pose proof units_0_1_lower as Hr01_10.
  set (r01 := units sf_0_1) in *.
  pose proof (rmul_lower f rc 1054 1074 ltac:(zlia) ltac:(zlia) ltac:(zlia)
                Hf Hrc_lo) as He1_lo.
  change (1054 + 1074 - 1074) with 1054 in He1_lo.
  pose proof (rmul_rel f rc 1054 1074 ltac:(zlia) ltac:(zlia) ltac:(zlia)
                Hf Hrc_lo) as [He1_rel _].
  pose proof (rmul_double f rc 1054 1074 ltac:(zlia) ltac:(zlia) ltac:(zlia)
                Hf Hrc_lo) as Hs1.
  pose proof (rmul_lower f t 1054 1074 ltac:(zlia) ltac:(zlia) ltac:(zlia)
                Hf Ht_lo) as Heo_lo.
  change (1054 + 1074 - 1074) with 1054 in Heo_lo.
  pose proof (rmul_rel f t 1054 1074 ltac:(zlia) ltac:(zlia) ltac:(zlia)
                Hf Ht_lo) as [_ Heo_rel].
  pose proof (rmul_double f t 1054 1074 ltac:(zlia) ltac:(zlia) ltac:(zlia)
                Hf Ht_lo) as Hso.
  pose proof (pow2_pos 1054 ltac:(zlia)) as HP1054.
  pose proof (pow2_pos 1074 ltac:(zlia)) as HU.
  rewrite Hs1, Hso.
  set (e1 := rmul f rc) in *. set (eo := rmul f t) in *.
  pose proof (pow2_le 52 1054 ltac:(zlia)) as H52.
  pose proof (radd_rel eo (2 * eo) ltac:(zlia)) as [_ HO_rel].
  set (O := radd eo (2 * eo)) in *.
  assert (H2e1 : 2 ^ 1055 <= 2 * e1).
  { change 1055 with (1 + 1054). rewrite Z.pow_add_r by zlia.
    change (2 ^ 1) with 2. zlia. }
  pose proof (rmul_lower (2 * e1) r01 1055 1070 ltac:(zlia) ltac:(zlia)
                ltac:(zlia) H2e1 Hr01_lo) as Hrv_lo.
  change (1055 + 1070 - 1074) with 1051 in Hrv_lo.
  pose proof (rmul_rel (2 * e1) r01 1055 1070 ltac:(zlia) ltac:(zlia)
                ltac:(zlia) H2e1 Hr01_lo) as [Hrv_rel _].
  set (rv := rmul (2 * e1) r01) in *.
  pose proof (pow2_pos 1051 ltac:(zlia)) as HP1051.
  pose proof (pow2_le 52 1051 ltac:(zlia)) as H52'.
  pose proof (rmul_lower rv rk 1051 1074 ltac:(zlia) ltac:(zlia) ltac:(zlia)
                Hrv_lo Hk_lo) as HrM_lo.
  change (1051 + 1074 - 1074) with 1051 in HrM_lo.
  pose proof (rmul_rel rv rk 1051 1074 ltac:(zlia) ltac:(zlia) ltac:(zlia)
                Hrv_lo Hk_lo) as [HrM_rel _].
  set (rM := rmul rv rk) in *.
  pose proof (radd_rel rM rM ltac:(zlia)) as [HX_rel _].
  set (X := radd rM rM) in *.
  set (U := 2 ^ 1074) in *.
  (* the assembly from below *)
  assert (Hrv : 1023 * e1 <= 5120 * rv).
  { assert (H : (2046 * e1) * U <= (10240 * rv) * U).
    { pose proof (Z.mul_le_mono_nonneg_l _ _ (2046 * e1) ltac:(zlia)
                    Hr01_10).
      zlia. }
    apply Z.mul_le_mono_pos_r in H; zlia. }
  assert (HrM1 : 1046529 * (rv * k) <= 1048576 * rM).
  { assert (H : (1046529 * (rv * k)) * U <= (1048576 * rM) * U).
    { pose proof (Z.mul_le_mono_nonneg_l _ _ (1023 * rv) ltac:(zlia) Hk_rel).
      zlia. }
    apply Z.mul_le_mono_pos_r in H; zlia. }
  assert (He1f : 1046529 * (f * c) <= 1048576 * e1).
  { assert (H : (1046529 * (f * c)) * U <= (1048576 * e1) * U).
    { pose proof (Z.mul_le_mono_nonneg_l _ _ (1023 * f) ltac:(zlia) Hrc_rel).
      zlia. }
    apply Z.mul_le_mono_pos_r in H; zlia. }
  assert (HrvK : 1023 * (e1 * k) <= 5120 * (rv * k)).
  { pose proof (Z.mul_le_mono_nonneg_r _ _ k ltac:(zlia) Hrv). zlia. }
  assert (He1K : 1046529 * (f * c * k) <= 1048576 * (e1 * k)).
  { pose proof (Z.mul_le_mono_nonneg_r _ _ k ltac:(zlia) He1f). zlia. }
  assert (Hfn : f * n <= f * c * k).
  { pose proof (Z.mul_le_mono_nonneg_l _ _ f ltac:(zlia) Hnck). zlia. }
  (* the old total from above *)
  assert (Heof : 1048576 * eo <= 1050625 * (f * n)).
  { assert (H : (1048576 * eo) * U <= (1050625 * (f * n)) * U).
    { pose proof (Z.mul_le_mono_nonneg_l _ _ (1025 * f) ltac:(zlia) Ht_rel).
      zlia. }
    apply Z.mul_le_mono_pos_r in H; zlia. }
  assert (HfT : 0 < f * n) by (apply Z.mul_pos_pos; zlia).
  zlia.
Qed.

Lemma radd_ge_l (x y : Z) : 0 <= x -> fits x -> 0 <= y -> x <= radd x y.
Proof.
  intros Hx Hfit Hy. rewrite radd_eq.
  pose proof (rnd_mono0 1074 x (x + y) ltac:(zlia) ltac:(zlia)) as Hm.
  destruct (Z.eq_dec x 0) as [-> | Hnz].
  - apply rnd_nonneg; zlia.
  - rewrite rnd_exact in Hm by (zlia || assumption). exact Hm.
Qed.

Lemma radd_ge_r (x y : Z) : 0 <= x -> 0 <= y -> fits y -> y <= radd x y.
Proof.
  intros Hx Hy Hfit. rewrite radd_eq.
  pose proof (rnd_mono0 1074 y (x + y) ltac:(zlia) ltac:(zlia)) as Hm.
  destruct (Z.eq_dec y 0) as [-> | Hnz].
  - apply rnd_nonneg; zlia.
  - rewrite rnd_exact in Hm by (zlia || assumption). exact Hm.
Qed.

Lemma rmul_nonneg (x y : Z) : 0 <= x -> 0 <= y -> 0 <= rmul x y /\ fits (rmul x y).
Proof.
  intros Hx Hy. rewrite rmul_eq.
  assert (0 <= x * y) by (apply Z.mul_nonneg_nonneg; assumption).
  split; [apply rnd_nonneg; zlia | apply fits_rnd; zlia].
Qed.

(** The old total is at most its rank without overflow. *)
Lemma old_total_rank_le (F T : spec_float) :
  nonneg_float F -> is_inf F = false ->
  is_inf (SFmul prec emax F sf_2) = false -> posfin T ->
  rank (old_total_sf F T) <= old_total_rank (rank F) (rank T).
Proof.
  intros HF HiF HiF2 HT.
  pose proof (nonneg_F2 F HF) as HF2.
  pose proof (nonneg_extracted F T HF HT) as HE.
  pose proof (nonneg_sbs F T HF HT) as HS.
  pose proof (nonneg_old_total F T HF HT) as HO.
  destruct (SFmul_fin_inv F sf_2 HF posfin_2 HiF2) as (_ & HrF2 & _).
  destruct (rank_finite F HF HiF) as [_ Hfit].
  pose proof (rank_nonneg F) as Hf0. pose proof (rank_nonneg T) as Ht0.
  rewrite rmul_2 in HrF2 by assumption.
  destruct HT as (HTn & HiT & _).
  destruct (SFmul_nonneg F T HF HTn) as [_ HrE];
    [rewrite HiF; discriminate | rewrite HiT; discriminate |].
  destruct (SFmul_nonneg _ T HF2 HTn) as [_ HrS];
    [rewrite HiF2; discriminate | rewrite HiT; discriminate |].
  rewrite HiF, HiT in HrE. rewrite HiF2, HiT, HrF2 in HrS.
  cbn [orb] in HrE, HrS.
  rewrite <- rmul_eq in HrE, HrS.
  destruct (rmul_nonneg (rank F) (rank T) Hf0 Ht0) as [He0 Hefit].
  destruct (rmul_nonneg (2 * rank F) (rank T) ltac:(zlia) Ht0)
    as [Hs0 Hsfit].
  pose proof (radd_ge_l _ _ He0 Hefit Hs0) as Hge1.
  pose proof (radd_ge_r _ _ He0 Hs0 Hsfit) as Hge2.
  pose proof (rank_le_top _ HO) as Htop.
  rewrite old_total_rank_eq.
  set (eo := rmul (rank F) (rank T)) in *.
  set (so := rmul (2 * rank F) (rank T)) in *.
  destruct (Z_lt_le_dec eo (2 ^ 2098)) as [He | He]; [| zlia].
  destruct (Z_lt_le_dec so (2 ^ 2098)) as [Hs | Hs]; [| zlia].
  assert (HrE' : rank (SFmul prec emax F T) = eo) by zlia.
  assert (HrS' : rank (SFmul prec emax (SFmul prec emax F sf_2) T) = so)
    by zlia.
  destruct (SFadd_nonneg _ _ HE HS) as [_ HrO].
  rewrite (is_inf_rank _ HE), (is_inf_rank _ HS) in HrO by zlia.
  cbn [orb] in HrO. rewrite HrE', HrS' in HrO.
  rewrite <- radd_eq in HrO. unfold old_total_sf. zlia.
Qed.

(** The rank of a finite storage of the assembly. *)
Lemma assembly_rank_fin (F C K : spec_float) :
  nonneg_float F -> posfin C -> posfin K ->
  is_inf (assembly_sf F C K) = false ->
  is_inf F = false /\ is_inf (SFmul prec emax F sf_2) = false /\
  rank (assembly_sf F C K) = assembly_rank (rank F) (rank C) (rank K).
Proof.
  intros HF HC HK Hfin.
  pose proof (nonneg_F2 F HF) as HF2.
  pose proof (nonneg_sbs F C HF HC) as HS.
  pose proof (nonneg_video F C HF HC) as HV.
  pose proof (nonneg_videos F C HF HC K HK) as HM.
  unfold assembly_sf in *.
  destruct (SFadd_fin_inv _ _ HM HM Hfin) as (HiM & _ & HrX & _).
  destruct (SFmul_fin_inv _ K HV HK HiM) as (HiV & HrM & _).
  unfold video_sf in HiV.
  destruct (SFmul_fin_inv _ sf_0_1 HS posfin_0_1 HiV) as (HiS & HrV & _).
  destruct (SFmul_fin_inv _ C HF2 HC HiS) as (HiF2 & HrS & _).
  destruct (SFmul_fin_inv F sf_2 HF posfin_2 HiF2) as (HiF & HrF2 & _).
  destruct (rank_finite F HF HiF) as [_ Hfit].
  rewrite rmul_2 in HrF2 by (assumption || apply rank_nonneg).
  split; [assumption |]. split; [assumption |].
  rewrite HrX, HrM. unfold video_sf.
  rewrite HrV, HrS, HrF2, rank_sf_0_1, assembly_rank_eq, video_rank_eq.
  reflexivity.
Qed.

Lemma Prim2SF_8 : Prim2SF 8 = sf_8.
Proof. reflexivity. Qed.

Lemma posfin_8 : posfin sf_8.
Proof. apply posfin_finite. reflexivity. Qed.

(** Multiplication by [8.0] is exact, up to overflow. *)
Lemma SFmul_8_rank (x : spec_float) :
  nonneg_float x ->
  nonneg_float (SFmul prec emax sf_8 x) /\
  rank (SFmul prec emax sf_8 x) = Z.min (8 * rank x) (2 ^ 2098).
Proof.
  intros Hx. destruct posfin_8 as (H8 & Hi8 & Hr8).
  destruct (SFmul_nonneg sf_8 x H8 Hx) as [Hn Hr];
    [rewrite Hi8; discriminate | auto |].
  split; [assumption |]. rewrite Hr, Hi8. cbn [orb].
  pose proof (rank_nonneg x) as H0.
  pose proof (pow2_pos 2098 ltac:(zlia)) as Htop.
  destruct (is_inf x) eqn:Hi.
  - rewrite (rank_inf _ Hi). zlia.
  - destruct (rank_finite x Hx Hi) as [_ Hfit]. f_equal.
    change (rank sf_8) with (units sf_8).
    destruct (Z.eq_dec (rank x) 0) as [-> | Hnz].
    + rewrite Z.mul_0_r, rnd_0. reflexivity.
    + replace (units sf_8 * rank x) with (8 * rank x * 2 ^ 1074).
      2:{ cbn [units sf_8]. change (-49 + 1074) with 1025.
          change 4503599627370496 with (2 ^ 52).
          rewrite <- Z.pow_add_r by zlia. change (52 + 1025) with (3 + 1074).
          rewrite Z.pow_add_r by zlia. change (2 ^ 3) with 8. zlia. }
      change 2148 with (1074 + 1074). rewrite rnd_scale by zlia.
      apply rnd_exact; [zlia |].
      replace (8 * rank x) with (2 * (2 * (2 * rank x))) by zlia.
      repeat (apply fits_double; [zlia |]). assumption.
Qed.

(** X10: the chunked approach never saves more than seven eighths: for a
    video of at least one frame, the old total is at most 8 times the
    chunked total. *)
Theorem savings_are_bounded
    (w h : Z) (fps d : num) (cs : Z) (o : Old.estimate) (c : Chunked.estimate) :
  0 < w -> 0 < h -> 1 <= cs ->
  estimate_storage_old_approach w h fps d = Ok o ->
  estimate_storage_chunked_approach w h fps d cs = Ok c ->
  1 <= Old.total_frames o ->
  (Old.total_peak_mb o <=? 8 * Chunked.total_peak_mb c)%float = true.
Proof.
  intros Hw Hh Hcs Ho Hc Hn.
  destruct (agree_on_frames w h fps d cs o c Ho Hc) as [Hfr _].
  destruct (old_sf w h fps d o Hw Hh Ho Hn)
    as (f & t & Hf & Ht & HF & _ & HT & _ & _ & _ & Htot).
  destruct (chunked_sf w h fps d cs c Hw Hh Hcs Hc)
    as (f' & g & Hf' & Hg & _ & _ & HC & _ & Hpk & Hmax & Htc &
        k & Hk & _ & Hasm).
  rewrite Hf in Hf'. apply Ok_inj in Hf'. subst f'.
  rewrite Hfr in Htc.
  assert (Hk1 : 1 <= Chunked.total_chunks c).
  { rewrite Htc. apply Z.div_le_lower_bound; zlia. }
  assert (Hck : Old.total_frames o <= cs * Chunked.total_chunks c).
  { rewrite Htc.
    pose proof (Z.div_mod (Old.total_frames o + cs - 1) cs ltac:(zlia)).
    pose proof (Z.mod_pos_bound (Old.total_frames o + cs - 1) cs
                  ltac:(zlia)).
    zlia. }
  assert (Hk0 : 0 < Chunked.total_chunks c) by zlia.
  pose proof (float_of_int_posfin _ k Hk0 Hk) as HK.
  destruct (float_of_int_pos cs g ltac:(zlia) Hg) as (_ & _ & HrC & _).
  assert (Hn0 : 0 < Old.total_frames o) by zlia.
  destruct (float_of_int_pos _ t Hn0 Ht) as (_ & _ & HrT & _).
  destruct (float_of_int_pos _ k Hk0 Hk) as (_ & _ & HrK & _).
  rewrite <- rint_eq in HrC, HrT, HrK.
  pose proof (frame_size_rank_lower w h f Hw Hh Hf) as HrF.
  set (F := Prim2SF f) in *. set (C := Prim2SF g) in *.
  set (T := Prim2SF t) in *. set (K := Prim2SF k) in *.
  pose proof (peak_sf_nonneg F C HF HC) as HP.
  pose proof (nonneg_assembly F C HF HC K HK) as HX.
  pose proof (nonneg_old_total F T HF HT) as HO.
  destruct (py_max_rank (Chunked.peak_chunk_mb c)
              (Chunked.max_chunk_videos_mb c
               + Chunked.max_chunk_videos_mb c)%float) as [Hnew Hrnew];
    [now rewrite Hpk | now rewrite Hasm |].
  rewrite <- Hmax, Hpk, Hasm in Hrnew. rewrite <- Hmax in Hnew.
  destruct (SFmul_8_rank _ Hnew) as [H8n H8r].
  rewrite leb_spec, Htot, Prim2SF_mul, Prim2SF_8.
  apply SFleb_rank; [assumption | assumption |].
  rewrite H8r, Hrnew.
  pose proof (rank_le_top _ HO) as Htop.
  pose proof (pow2_pos 2098 ltac:(zlia)) as Hpos.
  pose proof (rank_nonneg (peak_sf F C)) as HP0.
  destruct (is_inf (assembly_sf F C K)) eqn:Hinf.
  - rewrite (rank_inf _ Hinf). zlia.
  - destruct (assembly_rank_fin F C K HF HC HK Hinf) as (HiF & HiF2 & HrX).
    pose proof (old_total_rank_le F T HF HiF HiF2 HT) as Hle.
    pose proof (savings_bound_ranks (rank F) cs (Old.total_frames o)
                  (Chunked.total_chunks c) HrF Hcs Hn Hk1 Hck) as Hb.
    rewrite HrX, HrC, HrK. rewrite HrT in Hle. zlia.
Qed.

(** X10 on the first scenario. *)
Lemma savings_are_bounded_witness :
  exists o c,
    estimate_storage_old_approach 1920 1080 (PyInt 30) (PyInt 600) = Ok o /\
    estimate_storage_chunked_approach 1920 1080 (PyInt 30) (PyInt 600) 100
      = Ok c /\
    (Old.total_peak_mb o <=? 8 * Chunked.total_peak_mb c)%float = true.
Proof.
  eexists. eexists.
  split; [vm_compute; reflexivity |]. split; [vm_compute; reflexivity |].
  exact (savings_are_bounded 1920 1080 (PyInt 30) (PyInt 600) 100 _ _
           ltac:(zlia) ltac:(zlia) ltac:(zlia) eq_refl eq_refl
           ltac:(vm_compute; discriminate)).
Defined.

(** ** A larger frame *)

(** The rank of the frame size: the rounded product by [1.2], divided by
    [2^20] without a rounding, or an infinity. *)
Lemma frame_size_rank (w h : Z) (f : float) :
  0 < w * h * 3 -> frame_size w h = Ok f ->
  nonneg_float (Prim2SF f) /\
  rank (Prim2SF f)
  = if rmul (rint (w * h * 3)) (units sf_1_2) <? 2 ^ 2098
    then rmul (rint (w * h * 3)) (units sf_1_2) / 2 ^ 20
    else 2 ^ 2098.
Proof.
  intros HX H. apply frame_size_Ok in H. destruct H as (x & Hx & ->).
  destruct (float_of_int_pos _ x HX Hx) as (HXn & HiX & HrX & HX1).
  rewrite Prim2SF_div, Prim2SF_mul, Prim2SF_1_2, Prim2SF_MiB.
  rewrite <- rint_eq in HrX. rewrite <- HrX.
  set (X := Prim2SF x) in *.
  destruct (posfin_finite 5404319552844595 (-52) eq_refl) as (H12 & Hi12 & _).
  fold sf_1_2 in H12, Hi12.
  pose proof units_1_2_lower as Hlo.
  destruct (SFmul_nonneg X sf_1_2 HXn H12) as [HYn HrY];
    [rewrite HiX; discriminate | rewrite Hi12; discriminate |].
  rewrite HiX, Hi12 in HrY. cbn [orb] in HrY.
  rewrite <- rmul_eq in HrY.
  rewrite rank_sf_1_2 in HrY.
  pose proof (rmul_lower (rank X) (units sf_1_2) 1074 1074 ltac:(zlia)
                ltac:(zlia) ltac:(zlia) HX1 Hlo) as Hylo.
  change (1074 + 1074 - 1074) with 1074 in Hylo.
  set (y := rmul (rank X) (units sf_1_2)) in *.
  pose proof (pow2_pos 2098 ltac:(zlia)) as Htop.
  destruct (Z.ltb_spec y (2 ^ 2098)) as [Hlt | Hge].
  - assert (HrY' : rank (SFmul prec emax X sf_1_2) = y) by zlia.
    destruct (SFmul prec emax X sf_1_2) as [sy | sy | | sy my ey];
      cbn [nonneg_float rank] in HYn, HrY'.
    + cbn [units] in HrY'. pose proof (pow2_pos 1074 ltac:(zlia)). zlia.
    + zlia.
    + contradiction.
    + destruct HYn as [-> Hb]. rewrite <- HrY' in Hylo.
      destruct (normal_of_lower false my ey Hb Hylo) as [Hd He].
      rewrite SFdiv_MiB by (assumption || zlia).
      cbn [nonneg_float rank units]. split.
      * split; [reflexivity |]. apply bounded_spec in Hb.
        apply bounded_spec. zlia.
      * rewrite <- HrY'. cbn [units].
        replace (ey + 1074) with (ey - 20 + 1074 + 20) by zlia.
        rewrite (Z.pow_add_r 2 (ey - 20 + 1074) 20) by zlia.
        rewrite Z.mul_assoc.
        rewrite Z.div_mul; [reflexivity | apply Z.pow_nonzero; zlia].
  - assert (HrY' : rank (SFmul prec emax X sf_1_2) = 2 ^ 2098) by zlia.
    pose proof (inf_of_rank _ HYn HrY') as Hi.
    destruct (SFmul prec emax X sf_1_2) as [sy | sy | | sy my ey];
      try discriminate Hi.
    cbn [nonneg_float] in HYn. subst sy.
    unfold sf_MiB. cbn [SFdiv xorb nonneg_float rank]. split; reflexivity.
Qed.

Lemma rint_mono (z z' : Z) : 0 <= z <= z' -> rint z <= rint z'.
Proof.
  intros Hz. rewrite !rint_eq. apply rnd_mono0; [zlia |].
  pose proof (pow2_pos 1074 ltac:(zlia)).
  split; [apply Z.mul_nonneg_nonneg; zlia |].
  apply Z.mul_le_mono_nonneg_r; zlia.
Qed.

Lemma rint_nonneg (z : Z) : 0 <= z -> 0 <= rint z.
Proof.
  intros Hz. rewrite rint_eq. apply rnd_nonneg; [zlia |].
  pose proof (pow2_pos 1074 ltac:(zlia)). apply Z.mul_nonneg_nonneg; zlia.
Qed.

(** The frame size grows with the number of pixels. *)
Lemma frame_size_mono (w h w' h' : Z) (f f' : float) :
  0 < w -> 0 < h -> w * h <= w' * h' ->
  frame_size w h = Ok f -> frame_size w' h' = Ok f' ->
  nonneg_float (Prim2SF f) /\ nonneg_float (Prim2SF f') /\
  rank (Prim2SF f) <= rank (Prim2SF f').
Proof.
  intros Hw Hh Hle Hf Hf'.
  assert (HX : 0 < w * h * 3) by znia.
  destruct (frame_size_rank w h f HX Hf) as [Hn Hr].
  destruct (frame_size_rank w' h' f' ltac:(zlia) Hf') as [Hn' Hr'].
  split; [assumption |]. split; [assumption |].
  rewrite Hr, Hr'.
  pose proof (rint_nonneg (w * h * 3) ltac:(zlia)) as H0.
  pose proof (rint_mono (w * h * 3) (w' * h' * 3) ltac:(zlia)) as Hm.
  pose proof units_1_2_lower as Hlo.
  pose proof (pow2_pos 1074 ltac:(zlia)) as HU.
  pose proof (rmul_mono (rint (w * h * 3)) (units sf_1_2)
                (rint (w' * h' * 3)) (units sf_1_2)
                ltac:(zlia) ltac:(zlia)) as Hy.
  assert (Hy0 : 0 <= rmul (rint (w * h * 3)) (units sf_1_2)).
  { rewrite rmul_eq. apply rnd_nonneg; [zlia |].
    apply Z.mul_nonneg_nonneg; zlia. }
  set (y := rmul (rint (w * h * 3)) (units sf_1_2)) in *.
  set (y' := rmul (rint (w' * h' * 3)) (units sf_1_2)) in *.
  pose proof (pow2_pos 20 ltac:(zlia)) as H20.
  destruct (Z.ltb_spec y (2 ^ 2098)) as [Hlt | Hge];
    destruct (Z.ltb_spec y' (2 ^ 2098)) as [Hlt' | Hge']; try zlia.
  - apply Z.div_le_mono; zlia.
  - pose proof (Z.div_le_upper_bound y (2 ^ 20) y ltac:(zlia)
                  ltac:(change (2 ^ 20) with 1048576; zlia)). zlia.
Qed.

Section LargerFrame.

Variables F F' : spec_float.
Hypothesis HF : nonneg_float F.
Hypothesis HF' : nonneg_float F'.
Hypothesis Hle : rank F <= rank F'.

Lemma rank_F2_mono :
  rank (SFmul prec emax F sf_2) <= rank (SFmul prec emax F' sf_2).
Proof. apply SFmul_posfin_mono; auto using posfin_2. zlia. Qed.

Lemma old_total_sf_mono_F (T : spec_float) :
  posfin T -> rank (old_total_sf F T) <= rank (old_total_sf F' T).
Proof.
  intros HT. unfold old_total_sf.
  apply SFadd_mono; auto using nonneg_extracted, nonneg_sbs.
  - apply SFmul_posfin_mono; auto. zlia.
  - apply SFmul_posfin_mono; auto using nonneg_F2, rank_F2_mono. zlia.
Qed.

Lemma video_sf_mono_F (C : spec_float) :
  posfin C -> rank (video_sf F C) <= rank (video_sf F' C).
Proof.
  intros HC. unfold video_sf.
  apply SFmul_posfin_mono; auto using nonneg_sbs, posfin_0_1; [| zlia].
  apply SFmul_posfin_mono; auto using nonneg_F2, rank_F2_mono. zlia.
Qed.

Lemma peak_sf_mono_F (C : spec_float) :
  posfin C -> rank (peak_sf F C) <= rank (peak_sf F' C).
Proof.
  intros HC. unfold peak_sf.
  apply SFadd_mono.
  - exact (nonneg_old_total F C HF HC).
  - exact (nonneg_old_total F' C HF' HC).
  - exact (nonneg_video F C HF HC).
  - exact (nonneg_video F' C HF' HC).
  - exact (old_total_sf_mono_F C HC).
  - exact (video_sf_mono_F C HC).
Qed.

Lemma assembly_sf_mono_F (C K : spec_float) :
  posfin C -> posfin K ->
  rank (assembly_sf F C K) <= rank (assembly_sf F' C K).
Proof.
  intros HC HK. unfold assembly_sf.
  assert (H : rank (SFmul prec emax (video_sf F C) K)
              <= rank (SFmul prec emax (video_sf F' C) K)).
  { apply SFmul_posfin_mono; auto using nonneg_video, video_sf_mono_F.
    zlia. }
  apply SFadd_mono; auto using nonneg_videos.
Qed.

End LargerFrame.

(** X11: the estimates grow with the frame: for the same video and chunk
    size, a frame at least as wide and as high has a frame size, an old
    total, a chunk peak and a chunked total at least as large. *)
Theorem estimates_grow_with_frame
    (w h w' h' : Z) (fps d : num) (cs : Z)
    (o o' : Old.estimate) (c c' : Chunked.estimate) :
  0 < w <= w' -> 0 < h <= h' -> 1 <= cs ->
  estimate_storage_old_approach w h fps d = Ok o ->
  estimate_storage_old_approach w' h' fps d = Ok o' ->
  estimate_storage_chunked_approach w h fps d cs = Ok c ->
  estimate_storage_chunked_approach w' h' fps d cs = Ok c' ->
  1 <= Old.total_frames o ->
  (Old.frame_size_mb o <=? Old.frame_size_mb o')%float = true /\
  (Old.total_peak_mb o <=? Old.total_peak_mb o')%float = true /\
  (Chunked.peak_chunk_mb c <=? Chunked.peak_chunk_mb c')%float = true /\
  (Chunked.total_peak_mb c <=? Chunked.total_peak_mb c')%float = true.
Proof.
  intros [Hw Hww] [Hh Hhh] Hcs Ho Ho' Hc Hc' Hn.
  destruct (agree_on_frames w h fps d cs o c Ho Hc) as [Hfr _].
  destruct (agree_on_frames w' h' fps d cs o' c' Ho' Hc') as [Hfr' _].
  assert (Hn' : Old.total_frames o' = Old.total_frames o).
  { apply old_Ok in Ho, Ho'.
    destruct Ho as (p & _ & _ & Hp & Hi & _).
    destruct Ho' as (p' & _ & _ & Hp' & Hi' & _).
    rewrite Hp in Hp'. apply Ok_inj in Hp'. subst p'.
    rewrite Hi in Hi'. now apply Ok_inj in Hi'. }
  assert (Hf0 : exists f, frame_size w h = Ok f /\ Old.frame_size_mb o = f).
  { apply old_Ok in Ho. destruct Ho as (_ & f & _ & _ & _ & Hf & Hfo & _).
    now exists f. }
  assert (Hf0' : exists f, frame_size w' h' = Ok f /\ Old.frame_size_mb o' = f).
  { apply old_Ok in Ho'. destruct Ho' as (_ & f & _ & _ & _ & Hf & Hfo & _).
    now exists f. }
  destruct Hf0 as (f0 & Hf0 & Hfo). destruct Hf0' as (f0' & Hf0' & Hfo').
  destruct (old_sf w h fps d o Hw Hh Ho Hn)
    as (f & t & Hf & Ht & _ & _ & HT & _ & _ & _ & Htot).
  destruct (old_sf w' h' fps d o' ltac:(zlia) ltac:(zlia) Ho' ltac:(zlia))
    as (f' & t' & Hf' & Ht' & _ & _ & _ & _ & _ & _ & Htot').
  rewrite Hn', Ht in Ht'. apply Ok_inj in Ht'. subst t'.
  rewrite Hf in Hf0. apply Ok_inj in Hf0. subst f0.
  rewrite Hf' in Hf0'. apply Ok_inj in Hf0'. subst f0'.
  destruct (chunked_sf w h fps d cs c Hw Hh Hcs Hc)
    as (f1 & g & Hf1 & Hg & _ & _ & HC & _ & Hpk & Hmax & Htc &
        k & Hk & _ & Hasm).
  destruct (chunked_sf w' h' fps d cs c' ltac:(zlia) ltac:(zlia) Hcs Hc')
    as (f1' & g' & Hf1' & Hg' & _ & _ & _ & _ & Hpk' & Hmax' & Htc' &
        k' & Hk' & _ & Hasm').
  rewrite Hf in Hf1. apply Ok_inj in Hf1. subst f1.
  rewrite Hf' in Hf1'. apply Ok_inj in Hf1'. subst f1'.
  rewrite Hg in Hg'. apply Ok_inj in Hg'. subst g'.
  rewrite Hfr', Hn', <- Hfr, <- Htc in Htc'.
  rewrite Htc', Hk in Hk'. apply Ok_inj in Hk'. subst k'.
  assert (Hk1 : 0 < Chunked.total_chunks c).
  { rewrite Htc, Hfr. apply Z.div_str_pos. zlia. }
  pose proof (float_of_int_posfin _ k Hk1 Hk) as HK.
  assert (Hwh : w * h <= w' * h') by (apply Z.mul_le_mono_nonneg; zlia).
  destruct (frame_size_mono w h w' h' f f' Hw Hh Hwh Hf Hf')
    as (HF & HF' & Hle).
  rewrite Hfo, Hfo', !leb_spec, Htot, Htot', Hpk, Hpk'.
  split; [now apply SFleb_rank |].
  split; [apply SFleb_rank; auto using nonneg_old_total, old_total_sf_mono_F |].
  split; [apply SFleb_rank; auto using peak_sf_nonneg, peak_sf_mono_F |].
  rewrite Hmax, Hmax'.
  destruct (py_max_rank (Chunked.peak_chunk_mb c)
              (Chunked.max_chunk_videos_mb c
               + Chunked.max_chunk_videos_mb c)%float) as [Hx Hr];
    [rewrite Hpk; now apply peak_sf_nonneg
    | rewrite Hasm; now apply nonneg_assembly |].
  destruct (py_max_rank (Chunked.peak_chunk_mb c')
              (Chunked.max_chunk_videos_mb c'
               + Chunked.max_chunk_videos_mb c')%float) as [Hx' Hr'];
    [rewrite Hpk'; now apply peak_sf_nonneg
    | rewrite Hasm'; now apply nonneg_assembly |].
  apply SFleb_rank; [assumption | assumption |].
  rewrite Hr, Hr', Hpk, Hpk', Hasm, Hasm'.
  pose proof (peak_sf_mono_F _ _ HF HF' Hle _ HC).
  pose proof (assembly_sf_mono_F _ _ HF HF' Hle _ _ HC HK). zlia.
Qed.

(** X11 on 1080p against 4K. *)
Lemma estimates_grow_with_frame_witness :
  exists o o' c c',
    estimate_storage_old_approach 1920 1080 (PyInt 30) (PyInt 600) = Ok o /\
    estimate_storage_old_approach 3840 2160 (PyInt 30) (PyInt 600) = Ok o' /\
    estimate_storage_chunked_approach 1920 1080 (PyInt 30) (PyInt 600) 100
      = Ok c /\
    estimate_storage_chunked_approach 3840 2160 (PyInt 30) (PyInt 600) 100
      = Ok c' /\
    (Old.total_peak_mb o <=? Old.total_peak_mb o')%float = true /\
    (Chunked.total_peak_mb c <=? Chunked.total_peak_mb c')%float = true.
Proof.
  do 4 eexists.
  split; [vm_compute; reflexivity |]. split; [vm_compute; reflexivity |].
  split; [vm_compute; reflexivity |]. split; [vm_compute; reflexivity |].
  destruct (estimates_grow_with_frame 1920 1080 3840 2160
              (PyInt 30) (PyInt 600) 100 _ _ _ _
              ltac:(zlia) ltac:(zlia) ltac:(zlia)
              eq_refl eq_refl eq_refl eq_refl
              ltac:(vm_compute; discriminate)) as (_ & H1 & _ & H2).
  split; [exact H1 | exact H2].
Defined.

(** ** Twice the pixels *)

(** In the normal range every operation of the estimators commutes with a
    doubling: twice the pixels give exactly twice each estimate, as long as
    nothing overflows. *)

Lemma fits_divide (y a j : Z) :
  fits y -> 0 <= a -> 2 ^ a <= y -> 0 <= j <= a - 52 -> y mod 2 ^ j = 0.
Proof.
  intros Hfit Ha Hy Hj. unfold fits in Hfit.
  pose proof (pow2_pos a Ha) as HP.
  pose proof (Zdigits2_mono (2 ^ a) y ltac:(zlia)) as Hd.
  rewrite Zdigits2_pow2 in Hd by zlia.
  set (t := Z.max 0 (Zdigits2 y - 53)) in *.
  apply Z.mod_divide in Hfit; [| apply Z.pow_nonzero; zlia].
  destruct Hfit as [M HM]. rewrite HM.
  replace t with ((t - j) + j) by zlia.
  rewrite Z.pow_add_r by zlia. rewrite Z.mul_assoc.
  apply Z.mod_mul. apply Z.pow_nonzero; zlia.
Qed.

(** The rank of a finite frame size, without the division. *)
Lemma frame_size_rank_fin (w h : Z) (f : float) :
  0 < w * h * 3 -> frame_size w h = Ok f -> is_inf (Prim2SF f) = false ->
  rank (Prim2SF f) * 2 ^ 20 = rmul (rint (w * h * 3)) (units sf_1_2).
Proof.
  intros HX Hf Hi. destruct (frame_size_rank w h f HX Hf) as [Hn Hr].
  destruct (rank_finite _ Hn Hi) as [Hlt _].
  pose proof (rint_lower (w * h * 3) ltac:(zlia)) as Hrx.
  pose proof (rmul_lower _ _ 1074 1074 ltac:(zlia) ltac:(zlia) ltac:(zlia)
                Hrx units_1_2_lower) as Hylo.
  change (1074 + 1074 - 1074) with 1074 in Hylo.
  pose proof (rint_nonneg (w * h * 3) ltac:(zlia)) as Hx0.
  pose proof (pow2_pos 1074 ltac:(zlia)) as HU.
  destruct (rmul_nonneg (rint (w * h * 3)) (units sf_1_2) Hx0
              ltac:(pose proof units_1_2_lower; zlia)) as [_ Hfit].
  pose proof (fits_divide _ 1074 20 Hfit ltac:(zlia) Hylo ltac:(zlia)) as Hdiv.
  set (y := rmul (rint (w * h * 3)) (units sf_1_2)) in *.
  destruct (Z.ltb_spec y (2 ^ 2098)) as [Hy | Hy]; [| zlia].
  rewrite Hr. pose proof (pow2_pos 20 ltac:(zlia)) as H20.
  pose proof (Z.div_mod y (2 ^ 20) ltac:(zlia)) as Hdm.
  rewrite Hdiv in Hdm. zlia.
Qed.

Lemma rint_double (z : Z) : 1 <= z -> rint (2 * z) = 2 * rint z.
Proof.
  intros Hz. rewrite !rint_eq.
  pose proof (pow2_pos 1074 ltac:(zlia)) as HP.
  assert (H0 : 0 < z * 2 ^ 1074) by (apply Z.mul_pos_pos; zlia).
  pose proof (pow2_le 52 1074 ltac:(zlia)) as H52.
  assert (Hle : 2 ^ 52 <= z * 2 ^ 1074).
  { pose proof (Z.mul_le_mono_nonneg_r 1 z (2 ^ 1074) ltac:(zlia) Hz). zlia. }
  pose proof (Zdigits2_mono (2 ^ 52) (z * 2 ^ 1074)
                ltac:(split; [apply pow2_pos; zlia | exact Hle])) as Hd.
  rewrite Zdigits2_pow2 in Hd by zlia.
  rewrite <- rnd_double by zlia. f_equal. zlia.
Qed.

Lemma radd_double (x y : Z) :
  0 <= x -> 0 <= y -> 2 ^ 52 <= x + y ->
  radd (2 * x) (2 * y) = 2 * radd x y.
Proof.
  intros Hx Hy Hxy. rewrite !radd_eq.
  pose proof (Zdigits2_mono (2 ^ 52) (x + y)
                ltac:(split; [apply pow2_pos; zlia | exact Hxy])) as Hd.
  rewrite Zdigits2_pow2 in Hd by zlia.
  assert (H0 : 0 < x + y)
    by (change (2 ^ 52) with 4503599627370496 in Hxy; zlia).
  rewrite <- rnd_double by zlia. f_equal. zlia.
Qed.

(** Doubling the rank of the frame size doubles the ranks of the
    estimates. *)
Lemma doubling_ranks (f c k t : Z) :
  2 ^ 1054 <= f -> 2 ^ 1074 <= c -> 2 ^ 1074 <= k -> 2 ^ 1074 <= t ->
  peak_rank (2 * f) c = 2 * peak_rank f c /\
  assembly_rank (2 * f) c k = 2 * assembly_rank f c k /\
  old_total_rank (2 * f) t = 2 * old_total_rank f t.
Proof.
  intros Hf Hc Hk Ht.
  rewrite !peak_rank_eq, !assembly_rank_eq, !old_total_rank_eq, !video_rank_eq.
  destruct units_0_1_bounds as [Hr01 _].
  pose proof (pow2_pos 1054 ltac:(zlia)) as HP1054.
  pose proof (pow2_le 52 1054 ltac:(zlia)) as H52.
  pose proof (pow2_le 52 1051 ltac:(zlia)) as H52'.
  assert (H2f : 2 ^ 1055 <= 2 * f).
  { change 1055 with (1 + 1054). rewrite Z.pow_add_r by zlia.
    change (2 ^ 1) with 2. zlia. }
  (* the products *)
  pose proof (rmul_double f c 1054 1074 ltac:(zlia) ltac:(zlia) ltac:(zlia)
                Hf Hc) as He.
  pose proof (rmul_double (2 * f) c 1055 1074 ltac:(zlia) ltac:(zlia)
                ltac:(zlia) H2f Hc) as Hs.
  pose proof (rmul_double f t 1054 1074 ltac:(zlia) ltac:(zlia) ltac:(zlia)
                Hf Ht) as Heo.
  pose proof (rmul_double (2 * f) t 1055 1074 ltac:(zlia) ltac:(zlia)
                ltac:(zlia) H2f Ht) as Hso.
  pose proof (rmul_lower f c 1054 1074 ltac:(zlia) ltac:(zlia) ltac:(zlia)
                Hf Hc) as He_lo.
  change (1054 + 1074 - 1074) with 1054 in He_lo.
  pose proof (rmul_lower f t 1054 1074 ltac:(zlia) ltac:(zlia) ltac:(zlia)
                Hf Ht) as Heo_lo.
  change (1054 + 1074 - 1074) with 1054 in Heo_lo.
  rewrite Hs, Hso, He, Heo.
  set (e := rmul f c) in *. set (eo := rmul f t) in *.
  assert (H2e : 2 ^ 1055 <= 2 * e).
  { change 1055 with (1 + 1054). rewrite Z.pow_add_r by zlia.
    change (2 ^ 1) with 2. zlia. }
  pose proof (rmul_double (2 * e) (units sf_0_1) 1055 1070 ltac:(zlia)
                ltac:(zlia) ltac:(zlia) H2e Hr01) as Hv.
  pose proof (rmul_lower (2 * e) (units sf_0_1) 1055 1070 ltac:(zlia)
                ltac:(zlia) ltac:(zlia) H2e Hr01) as Hv_lo.
  change (1055 + 1070 - 1074) with 1051 in Hv_lo.
  rewrite Hv. set (v := rmul (2 * e) (units sf_0_1)) in *.
  pose proof (pow2_pos 1051 ltac:(zlia)) as HP1051.
  pose proof (rmul_double v k 1051 1074 ltac:(zlia) ltac:(zlia) ltac:(zlia)
                Hv_lo Hk) as Hm.
  pose proof (rmul_lower v k 1051 1074 ltac:(zlia) ltac:(zlia) ltac:(zlia)
                Hv_lo Hk) as Hm_lo.
  change (1051 + 1074 - 1074) with 1051 in Hm_lo.
  rewrite Hm. set (m := rmul v k) in *.
  pose proof (radd_double e (2 * e) ltac:(zlia) ltac:(zlia) ltac:(zlia))
    as Ha.
  pose proof (radd_rel e (2 * e) ltac:(zlia)) as [Ha_lo _].
  rewrite Ha. set (a := radd e (2 * e)) in *.
  split; [| split].
  - apply radd_double; zlia.
  - apply radd_double; zlia.
  - apply radd_double; zlia.
Qed.

Lemma peak_rank_fin (F C : spec_float) :
  nonneg_float F -> posfin C -> is_inf (peak_sf F C) = false ->
  rank (peak_sf F C) = peak_rank (rank F) (rank C).
Proof.
  intros HF HC Hfin.
  pose proof (nonneg_F2 F HF) as HF2.
  pose proof (nonneg_extracted F C HF HC) as HE.
  pose proof (nonneg_sbs F C HF HC) as HS.
  pose proof (nonneg_old_total F C HF HC) as HA.
  pose proof (nonneg_video F C HF HC) as HV.
  unfold peak_sf in *. unfold old_total_sf, video_sf in HA, HV.
  destruct (SFadd_fin_inv _ _ HA HV Hfin) as (HiA & HiV & HrP & _).
  destruct (SFadd_fin_inv _ _ HE HS HiA) as (HiE & HiS & HrA & _).
  destruct (SFmul_fin_inv F C HF HC HiE) as (HiF & HrE & _).
  destruct (SFmul_fin_inv _ C HF2 HC HiS) as (HiF2 & HrS & _).
  destruct (SFmul_fin_inv F sf_2 HF posfin_2 HiF2) as (_ & HrF2 & _).
  destruct (SFmul_fin_inv _ sf_0_1 HS posfin_0_1 HiV) as (_ & HrV & _).
  destruct (rank_finite F HF HiF) as [_ Hfit].
  rewrite rmul_2 in HrF2 by (assumption || apply rank_nonneg).
  rewrite HrP, HrA, HrV, HrE, HrS, HrF2, rank_sf_0_1.
  rewrite peak_rank_eq, video_rank_eq. reflexivity.
Qed.

Lemma old_total_rank_fin (F T : spec_float) :
  nonneg_float F -> posfin T -> is_inf (old_total_sf F T) = false ->
  is_inf F = false /\
  rank (old_total_sf F T) = old_total_rank (rank F) (rank T).
Proof.
  intros HF HT Hfin.
  pose proof (nonneg_F2 F HF) as HF2.
  unfold old_total_sf in *.
  destruct (SFadd_fin_inv _ _ (nonneg_extracted F T HF HT)
              (nonneg_sbs F T HF HT) Hfin) as (HiE & HiS & HrO & _).
  destruct (SFmul_fin_inv F T HF HT HiE) as (HiF & HrE & _).
  destruct (SFmul_fin_inv _ T HF2 HT HiS) as (HiF2 & HrS & _).
  destruct (SFmul_fin_inv F sf_2 HF posfin_2 HiF2) as (_ & HrF2 & _).
  destruct (rank_finite F HF HiF) as [_ Hfit].
  rewrite rmul_2 in HrF2 by (assumption || apply rank_nonneg).
  split; [assumption |].
  rewrite HrO, HrE, HrS, HrF2, old_total_rank_eq. reflexivity.
Qed.

(** A finite nonnegative float is the encoding of its rank. *)
Lemma nonneg_encode_rank (x : spec_float) :
  nonneg_float x -> is_inf x = false -> x = encode false (rank x).
Proof.
  destruct x as [s | s | | s m e]; cbn [nonneg_float is_inf];
    intros Hx Hi; try discriminate; try contradiction.
  - subst s. reflexivity.
  - destruct Hx as [-> Hb]. symmetry. now apply encode_units.
Qed.

(** A float of twice the rank is the double. *)
Lemma SFmul_2_double (x y : spec_float) :
  nonneg_float x -> nonneg_float y -> is_inf y = false ->
  0 < rank x -> rank y = 2 * rank x -> y = SFmul prec emax sf_2 x.
Proof.
  intros Hx Hy Hiy Hpos Hr.
  destruct (rank_finite y Hy Hiy) as [Hlt _].
  assert (Hix : is_inf x = false).
  { apply is_inf_rank; [assumption | zlia]. }
  destruct (rank_finite x Hx Hix) as [_ Hfit].
  rewrite (nonneg_encode_rank y Hy Hiy), Hr.
  rewrite (nonneg_encode_rank x Hx Hix) at 2.
  symmetry. now apply SFmul_2_encode.
Qed.

(** X12: twice the pixels, twice the storage, exactly: for the same video
    and chunk size, and frames of positive width and height, a frame of
    twice as many pixels has a frame size, an old total, a chunk peak and a
    chunked total that are the doubles, as binary64 values, of those of the
    smaller frame, as long as the totals of the larger frame are finite. *)
Theorem doubling_pixels_doubles_estimates
    (w h w' h' : Z) (fps d : num) (cs : Z)
    (o o' : Old.estimate) (c c' : Chunked.estimate) :
  0 < w -> 0 < h -> 0 < w' -> 0 < h' -> w' * h' = 2 * (w * h) -> 1 <= cs ->
  estimate_storage_old_approach w h fps d = Ok o ->
  estimate_storage_old_approach w' h' fps d = Ok o' ->
  estimate_storage_chunked_approach w h fps d cs = Ok c ->
  estimate_storage_chunked_approach w' h' fps d cs = Ok c' ->
  1 <= Old.total_frames o ->
  (Old.total_peak_mb o' <? infinity)%float = true ->
  (Chunked.total_peak_mb c' <? infinity)%float = true ->
  Old.frame_size_mb o' = (2 * Old.frame_size_mb o)%float /\
  Old.total_peak_mb o' = (2 * Old.total_peak_mb o)%float /\
  Chunked.peak_chunk_mb c' = (2 * Chunked.peak_chunk_mb c)%float /\
  Chunked.total_peak_mb c' = (2 * Chunked.total_peak_mb c)%float.
Proof.
  intros Hw Hh Hw' Hh' Hpix Hcs Ho Ho' Hc Hc' Hn Hfo Hfc.
  destruct (agree_on_frames w h fps d cs o c Ho Hc) as [Hfr _].
  destruct (agree_on_frames w' h' fps d cs o' c' Ho' Hc') as [Hfr' _].
  assert (Hn' : Old.total_frames o' = Old.total_frames o).
  { apply old_Ok in Ho, Ho'.
    destruct Ho as (p & _ & _ & Hp & Hi & _).
    destruct Ho' as (p' & _ & _ & Hp' & Hi' & _).
    rewrite Hp in Hp'. apply Ok_inj in Hp'. subst p'.
    rewrite Hi in Hi'. now apply Ok_inj in Hi'. }
  assert (Hf0 : exists f, frame_size w h = Ok f /\ Old.frame_size_mb o = f).
  { apply old_Ok in Ho. destruct Ho as (_ & f & _ & _ & _ & Hf & Hfo' & _).
    now exists f. }
  assert (Hf0' : exists f, frame_size w' h' = Ok f /\ Old.frame_size_mb o' = f).
  { apply old_Ok in Ho'. destruct Ho' as (_ & f & _ & _ & _ & Hf & Hfo' & _).
    now exists f. }
  destruct Hf0 as (f0 & Hf0 & Hfso). destruct Hf0' as (f0' & Hf0' & Hfso').
  destruct (old_sf w h fps d o Hw Hh Ho Hn)
    as (f & t & Hf & Ht & HF & HrF0 & HT & HT1 & _ & _ & Htot).
  destruct (old_sf w' h' fps d o' Hw' Hh' Ho' ltac:(zlia))
    as (f' & t' & Hf' & Ht' & HF' & _ & _ & _ & _ & _ & Htot').
  rewrite Hn', Ht in Ht'. apply Ok_inj in Ht'. subst t'.
  rewrite Hf in Hf0. apply Ok_inj in Hf0. subst f0.
  rewrite Hf' in Hf0'. apply Ok_inj in Hf0'. subst f0'.
  destruct (chunked_sf w h fps d cs c Hw Hh Hcs Hc)
    as (f1 & g & Hf1 & Hg & _ & _ & HC & HC1 & Hpk & Hmax & Htc &
        k & Hk & _ & Hasm).
  destruct (chunked_sf w' h' fps d cs c' Hw' Hh' Hcs Hc')
    as (f1' & g' & Hf1' & Hg' & _ & _ & _ & _ & Hpk' & Hmax' & Htc' &
        k' & Hk' & _ & Hasm').
  rewrite Hf in Hf1. apply Ok_inj in Hf1. subst f1.
  rewrite Hf' in Hf1'. apply Ok_inj in Hf1'. subst f1'.
  rewrite Hg in Hg'. apply Ok_inj in Hg'. subst g'.
  rewrite Hfr', Hn', <- Hfr, <- Htc in Htc'.
  rewrite Htc', Hk in Hk'. apply Ok_inj in Hk'. subst k'.
  assert (Hk1 : 0 < Chunked.total_chunks c).
  { rewrite Htc, Hfr. apply Z.div_str_pos. zlia. }
  pose proof (float_of_int_posfin _ k Hk1 Hk) as HK.
  destruct (float_of_int_pos _ k Hk1 Hk) as (_ & _ & _ & HK1).
  assert (HX : 0 < w * h * 3) by znia.
  assert (HX' : w' * h' * 3 = 2 * (w * h * 3)) by zlia.
  pose proof (frame_size_rank_lower w h f Hw Hh Hf) as HrF.
  assert (Hwh : w * h <= w' * h') by zlia.
  destruct (frame_size_mono w h w' h' f f' Hw Hh Hwh Hf Hf')
    as (_ & _ & Hle).
  set (F := Prim2SF f) in *. set (F' := Prim2SF f') in *.
  set (C := Prim2SF g) in *. set (T := Prim2SF t) in *.
  set (K := Prim2SF k) in *.
  pose proof (pow2_pos 2098 ltac:(zlia)) as Htop.
  pose proof (pow2_pos 1054 ltac:(zlia)) as HP1054.
  (* the old totals *)
  pose proof (nonneg_old_total F T HF HT) as HO.
  pose proof (nonneg_old_total F' T HF' HT) as HO'.
  rewrite ltb_spec, Htot' in Hfo.
  change (Prim2SF infinity) with (S754_infinity false) in Hfo.
  apply (SFltb_inf_not_inf _ HO') in Hfo.
  destruct (old_total_rank_fin F' T HF' HT Hfo) as [HiF' HrO'].
  destruct (rank_finite _ HF' HiF') as [HltF' _].
  assert (HiF : is_inf F = false) by (apply is_inf_rank; [assumption | zlia]).
  (* the frame size *)
  assert (HrFF : rank F' = 2 * rank F).
  { pose proof (frame_size_rank_fin w h f HX Hf HiF) as H1.
    pose proof (frame_size_rank_fin w' h' f' ltac:(zlia) Hf' HiF') as H2.
    rewrite HX', rint_double in H2 by zlia.
    pose proof (rint_lower (w * h * 3) ltac:(zlia)) as Hrx.
    rewrite (rmul_double _ _ 1074 1074) in H2
      by (zlia || assumption || exact units_1_2_lower).
    fold F in H1. fold F' in H2. rewrite <- H1 in H2.
    pose proof (pow2_pos 20 ltac:(zlia)) as H20.
    apply (Z.mul_cancel_r _ _ (2 ^ 20)); zlia. }
  destruct (doubling_ranks (rank F) (rank C) (rank K) (rank T)
              HrF HC1 HK1 HT1) as (HdP & HdX & HdO).
  rewrite <- HrFF in HdP, HdX, HdO.
  destruct (rank_finite _ HO' Hfo) as [HltO' _].
  pose proof (old_total_sf_mono_F F F' HF HF' Hle T HT) as HleO.
  assert (HiO : is_inf (old_total_sf F T) = false)
    by (apply is_inf_rank; [assumption | zlia]).
  destruct (old_total_rank_fin F T HF HT HiO) as [_ HrO].
  assert (HposO : 0 < rank (old_total_sf F T)).
  { pose proof (SFmul_rank_pos _ _ HF HrF0 HT HT1) as Hpos.
    pose proof (SFadd_rank_ge_l _ _ (nonneg_extracted _ _ HF HT)
                  (nonneg_sbs _ _ HF HT)) as Hge.
    unfold old_total_sf. zlia. }
  (* the chunked totals *)
  pose proof (peak_sf_nonneg F C HF HC) as HP.
  pose proof (peak_sf_nonneg F' C HF' HC) as HP'.
  pose proof (nonneg_assembly F C HF HC K HK) as HA.
  pose proof (nonneg_assembly F' C HF' HC K HK) as HA'.
  destruct (py_max_rank (Chunked.peak_chunk_mb c)
              (Chunked.max_chunk_videos_mb c
               + Chunked.max_chunk_videos_mb c)%float) as [HN HrN];
    [now rewrite Hpk | now rewrite Hasm |].
  destruct (py_max_rank (Chunked.peak_chunk_mb c')
              (Chunked.max_chunk_videos_mb c'
               + Chunked.max_chunk_videos_mb c')%float) as [HN' HrN'];
    [now rewrite Hpk' | now rewrite Hasm' |].
  rewrite <- Hmax, Hpk, Hasm in HrN. rewrite <- Hmax in HN.
  rewrite <- Hmax', Hpk', Hasm' in HrN'. rewrite <- Hmax' in HN'.
  rewrite ltb_spec in Hfc.
  change (Prim2SF infinity) with (S754_infinity false) in Hfc.
  apply (SFltb_inf_not_inf _ HN') in Hfc.
  destruct (rank_finite _ HN' Hfc) as [HltN' _].
  pose proof (rank_nonneg (peak_sf F' C)) as HP0'.
  pose proof (rank_nonneg (assembly_sf F' C K)) as HA0'.
  assert (HiP' : is_inf (peak_sf F' C) = false)
    by (apply is_inf_rank; [assumption | zlia]).
  assert (HiA' : is_inf (assembly_sf F' C K) = false)
    by (apply is_inf_rank; [assumption | zlia]).
  pose proof (peak_sf_mono_F F F' HF HF' Hle C HC) as HleP.
  pose proof (assembly_sf_mono_F F F' HF HF' Hle C K HC HK) as HleA.
  assert (HiP : is_inf (peak_sf F C) = false)
    by (apply is_inf_rank; [assumption | zlia]).
  assert (HiA : is_inf (assembly_sf F C K) = false)
    by (apply is_inf_rank; [assumption | zlia]).
  pose proof (peak_rank_fin F C HF HC HiP) as HrP.
  pose proof (peak_rank_fin F' C HF' HC HiP') as HrP'.
  destruct (assembly_rank_fin F C K HF HC HK HiA) as (_ & _ & HrA).
  destruct (assembly_rank_fin F' C K HF' HC HK HiA') as (_ & _ & HrA').
  destruct (peak_sf_pos F C HF HrF0 HC HC1) as [_ HposP].
  split; [| split; [| split]]; apply Prim2SF_inj;
    rewrite Prim2SF_mul, Prim2SF_2.
  - rewrite Hfso, Hfso'. apply SFmul_2_double; assumption.
  - rewrite Htot, Htot'. apply SFmul_2_double; try assumption. zlia.
  - rewrite Hpk, Hpk'. apply SFmul_2_double; try assumption. zlia.
  - apply SFmul_2_double; try assumption; zlia.
Qed.

(** X12 on 1920x1080 against 3840x1080. *)
Lemma doubling_pixels_doubles_estimates_witness :
  exists o o' c c',
    estimate_storage_old_approach 1920 1080 (PyInt 30) (PyInt 600) = Ok o /\
    estimate_storage_old_approach 3840 1080 (PyInt 30) (PyInt 600) = Ok o' /\
    estimate_storage_chunked_approach 1920 1080 (PyInt 30) (PyInt 600) 100
      = Ok c /\
    estimate_storage_chunked_approach 3840 1080 (PyInt 30) (PyInt 600) 100
      = Ok c' /\
    Old.total_peak_mb o' = (2 * Old.total_peak_mb o)%float /\
    Chunked.total_peak_mb c' = (2 * Chunked.total_peak_mb c)%float.
Proof.
  do 4 eexists.
  split; [vm_compute; reflexivity |]. split; [vm_compute; reflexivity |].
  split; [vm_compute; reflexivity |]. split; [vm_compute; reflexivity |].
  destruct (doubling_pixels_doubles_estimates 1920 1080 3840 1080
              (PyInt 30) (PyInt 600) 100 _ _ _ _
              ltac:(zlia) ltac:(zlia) ltac:(zlia) ltac:(zlia) eq_refl ltac:(zlia)
              eq_refl eq_refl eq_refl eq_refl
              ltac:(vm_compute; discriminate) eq_refl eq_refl)
    as (_ & H1 & _ & H2).
  split; [exact H1 | exact H2].
Defined.

(** ** The report of [print_comparison] *)

Lemma float_div_int_1024 (x : float) :
  float_div_int x 1024 = Ok (x / 1024)%float.
Proof. reflexivity. Qed.

Lemma storage_savings_zero (old new : float) :
  (old =? 0)%float = true ->
  storage_savings old new = Raise ZeroDivisionError.
Proof. intros H. unfold storage_savings, float_div. now rewrite H. Qed.

Lemma storage_savings_nonzero (old new : float) :
  (old =? 0)%float = false ->
  storage_savings old new = Ok (savings_percent old new).
Proof. intros H. unfold storage_savings, float_div. now rewrite H. Qed.

Lemma SFeqb_pos_zero (x : spec_float) :
  nonneg_float x -> 0 < rank x -> SFeqb x (S754_zero false) = false.
Proof.
  destruct x as [s | s | | s m e]; cbn [nonneg_float rank units];
    intros Hx Hr; try contradiction; try zlia.
  - subst s. reflexivity.
  - destruct Hx as [-> _]. reflexivity.
Qed.

Lemma old_total_nonzero (w h : Z) (fps d : num) (o : Old.estimate) :
  0 < w -> 0 < h -> estimate_storage_old_approach w h fps d = Ok o ->
  1 <= Old.total_frames o ->
  (Old.total_peak_mb o =? 0)%float = false.
Proof.
  intros Hw Hh Ho Hn.
  destruct (old_sf w h fps d o Hw Hh Ho Hn)
    as (f & t & _ & _ & HF & HrF & HT & HT1 & _ & _ & Htot).
  rewrite eqb_spec, Htot. change (Prim2SF 0) with (S754_zero false).
  apply SFeqb_pos_zero; [now apply nonneg_old_total |].
  pose proof (SFmul_rank_pos _ _ HF HrF HT HT1) as Hpos.
  pose proof (SFadd_rank_ge_l _ _ (nonneg_extracted _ _ HF HT)
                (nonneg_sbs _ _ HF HT)) as Hge.
  unfold old_total_sf. zlia.
Qed.

Lemma report_old_Ok (s : scenario) (o : Old.estimate) :
  estimate_storage_old_approach (width s) (height s)
    (PyInt (fps s)) (PyInt (duration s)) = Ok o ->
  Old.total_frames o = fps s * duration s.
Proof.
  intros H. apply old_Ok in H.
  destruct H as (p & _ & _ & Hp & Hn & _).
  cbn [py_mul] in Hp. apply Ok_inj in Hp. subst p.
  cbn [py_int] in Hn. now apply Ok_inj in Hn.
Qed.

(** X13: for a scenario with a frame of positive width and height and at
    least one frame, on which the three estimates return, the loop body of
    [print_comparison] raises nothing, the division by the old total in the
    savings included, and prints its 18 lines after what was printed before. *)
Theorem report_completes
    (s : scenario) (out : list string)
    (o : Old.estimate) (n100 n50 : Chunked.estimate) :
  0 < width s -> 0 < height s -> 1 <= fps s * duration s ->
  estimate_storage_old_approach (width s) (height s)
    (PyInt (fps s)) (PyInt (duration s)) = Ok o ->
  estimate_storage_chunked_approach (width s) (height s)
    (PyInt (fps s)) (PyInt (duration s)) 100 = Ok n100 ->
  estimate_storage_chunked_approach (width s) (height s)
    (PyInt (fps s)) (PyInt (duration s)) 50 = Ok n50 ->
  exists lines,
    report s out = ((out ++ lines)%list, Ok tt) /\ List.length lines = 18%nat /\
    nth 10 lines ""
    = "  Storage savings: "
      ++ format_fixed 1 false
           (savings_percent (Old.total_peak_mb o) (Chunked.total_peak_mb n100))
      ++ "%" /\
    nth 14 lines ""
    = "  Storage savings: "
      ++ format_fixed 1 false
           (savings_percent (Old.total_peak_mb o) (Chunked.total_peak_mb n50))
      ++ "%".
Proof.
  intros Hw Hh Hn Ho H100 H50.
  pose proof (report_old_Ok s o Ho) as Hfr.
  pose proof (old_total_nonzero _ _ _ _ o Hw Hh Ho ltac:(zlia)) as Hnz.
  unfold report, print_chunked, io_bind, eval, print.
  rewrite Ho, H100, H50, !float_div_int_1024.
  rewrite !storage_savings_nonzero by assumption.
  eexists. split; [| split; [| split]].
  - rewrite <- !app_assoc. cbn [app]. reflexivity.
  - reflexivity.
  - reflexivity.
  - reflexivity.
Qed.

(** X13 on the first scenario: savings of 86.7%. *)
Lemma report_completes_witness :
  exists lines,
    report {| name := "1080p 30fps 10min";
              width := 1920; height := 1080; fps := 30; duration := 600 |} []
    = (lines, Ok tt) /\
    List.length lines = 18%nat /\
    nth 10 lines "" = "  Storage savings: 86.7%".
Proof.
  destruct (report_completes
              {| name := "1080p 30fps 10min";
                 width := 1920; height := 1080; fps := 30; duration := 600 |}
              [] _ _ _ ltac:(cbn; zlia) ltac:(cbn; zlia) ltac:(cbn; zlia)
              eq_refl eq_refl eq_refl) as (lines & Hr & Hl & H10 & _).
  exists lines. split; [exact Hr |]. split; [exact Hl |].
  rewrite H10. vm_compute. reflexivity.
Defined.

(** ** A scenario without frames *)

Lemma float_of_int_small (z : Z) :
  0 <= z < 2 ^ 1000 -> returns (float_of_int z).
Proof.
  intros [Hz0 Hz]. unfold returns, float_of_int.
  rewrite binary_normalize_rnd.
  replace (Z.abs z) with z by zlia.
  pose proof (pow2_pos 1074 ltac:(zlia)) as HU.
  pose proof (pow2_pos 1000 ltac:(zlia)) as HP.
  assert (HV : 0 <= z * 2 ^ 1074) by (apply Z.mul_nonneg_nonneg; zlia).
  set (N := rnd 1074 (z * 2 ^ 1074)).
  assert (HN : 0 <= N) by (apply rnd_nonneg; zlia).
  assert (Hfit : fits N) by (apply fits_rnd; zlia).
  assert (Hlt : N < 2 ^ 2098).
  { pose proof (rnd_mono0 1074 (z * 2 ^ 1074) (2 ^ 2074) ltac:(zlia)) as Hm.
    rewrite rnd_pow2 in Hm by zlia.
    replace (2074 - (1074 - 1074)) with 2074 in Hm by zlia.
    pose proof (pow2_lt 2074 2098 ltac:(zlia)).
    assert (z * 2 ^ 1074 <= 2 ^ 2074).
    { replace (2 ^ 2074) with (2 ^ 1000 * 2 ^ 1074)
        by (rewrite <- Z.pow_add_r by zlia; reflexivity).
      apply Z.mul_le_mono_nonneg_r; zlia. }
    unfold N. zlia. }
  apply Zle_lt_or_eq in HN. destruct HN as [HN | HN].
  - destruct (encode_finite (z <? 0) N ltac:(zlia) Hfit) as (m & e & -> & _).
    eexists. reflexivity.
  - rewrite <- HN, encode_zero. eexists. reflexivity.
Qed.

Lemma units_1_2_upper : units sf_1_2 <= 2 ^ 1075.
Proof.
  cbn [units sf_1_2]. change (-52 + 1074) with 1022.
  replace (2 ^ 1075) with (2 ^ 53 * 2 ^ 1022)
    by (rewrite <- Z.pow_add_r by zlia; reflexivity).
  apply Z.mul_le_mono_nonneg_r; [apply Z.pow_nonneg; zlia |].
  change (2 ^ 53) with 9007199254740992. zlia.
Qed.

(** A frame of fewer than [2^1000] bytes has a finite size. *)
Lemma frame_size_small (w h : Z) :
  0 < w -> 0 < h -> w * h * 3 < 2 ^ 1000 ->
  exists f, frame_size w h = Ok f /\
            nonneg_float (Prim2SF f) /\ rank (Prim2SF f) < 2 ^ 2097.
Proof.
  intros Hw Hh Hsmall.
  assert (HX : 0 < w * h * 3) by znia.
  destruct (float_of_int_small (w * h * 3) ltac:(zlia)) as [x Hx].
  exists (x * 1.2 / 1048576)%float.
  split; [now apply frame_size_returns |].
  destruct (float_of_int_pos _ x HX Hx) as (HXn & HiX & HrX & HX1).
  rewrite Prim2SF_div, Prim2SF_mul, Prim2SF_1_2, Prim2SF_MiB.
  set (X := Prim2SF x) in *.
  destruct (posfin_finite 5404319552844595 (-52) eq_refl) as (H12 & Hi12 & _).
  fold sf_1_2 in H12, Hi12.
  pose proof units_1_2_lower as Hlo. pose proof units_1_2_upper as Hhi.
  rewrite <- rank_sf_1_2 in Hlo, Hhi.
  assert (Hrx : rank X <= 2 ^ 2074).
  { rewrite HrX.
    pose proof (rnd_mono0 1074 (w * h * 3 * 2 ^ 1074) (2 ^ 2074)
                  ltac:(zlia)) as Hm.
    rewrite rnd_pow2 in Hm by zlia.
    replace (2074 - (1074 - 1074)) with 2074 in Hm by zlia.
    apply Hm. pose proof (pow2_pos 1074 ltac:(zlia)).
    replace (2 ^ 2074) with (2 ^ 1000 * 2 ^ 1074)
      by (rewrite <- Z.pow_add_r by zlia; reflexivity).
    split; [apply Z.mul_nonneg_nonneg; zlia |].
    apply Z.mul_le_mono_nonneg_r; zlia. }
  assert (Hup : rmul (rank X) (rank sf_1_2) <= 2 ^ 2075).
  { pose proof (rmul_mono (rank X) (rank sf_1_2) (2 ^ 2074) (2 ^ 1075)
                  ltac:(split; [apply rank_nonneg | assumption])
                  ltac:(split; [apply rank_nonneg | exact Hhi])) as Hm.
    rewrite (rmul_eq (2 ^ 2074)) in Hm. rewrite <- Z.pow_add_r in Hm by zlia.
    rewrite rnd_pow2 in Hm by zlia.
    change (2074 + 1075 - (2148 - 1074)) with 2075 in Hm. exact Hm. }
  pose proof (pow2_lt 2075 2098 ltac:(zlia)) as Htop.
  destruct (SFmul_fin X sf_1_2 HXn H12 HiX Hi12 ltac:(zlia))
    as (HYn & HiY & HrY).
  pose proof (rmul_lower (rank X) (rank sf_1_2) 1074 1074 ltac:(zlia)
                ltac:(zlia) ltac:(zlia) HX1 Hlo) as HYlo.
  change (1074 + 1074 - 1074) with 1074 in HYlo. rewrite <- HrY in HYlo.
  destruct (SFmul prec emax X sf_1_2) as [sy | sy | | sy my ey];
    cbn [nonneg_float is_inf rank] in HYn, HiY, HYlo.
  - cbn [units] in HYlo. pose proof (pow2_pos 1074 ltac:(zlia)). zlia.
  - discriminate HiY.
  - contradiction.
  - destruct HYn as [-> Hb].
    destruct (normal_of_lower false my ey Hb HYlo) as [Hd He].
    rewrite SFdiv_MiB by (assumption || zlia).
    cbn [nonneg_float rank units]. split.
    + split; [reflexivity |]. apply bounded_spec in Hb. apply bounded_spec.
      zlia.
    + cbn [rank units] in HrY.
      pose proof (pow2_le (ey - 20 + 1074) (ey + 1074) ltac:(zlia)) as Hle.
      pose proof (Z.mul_le_mono_nonneg_l _ _ (Zpos my) ltac:(zlia) Hle).
      pose proof (pow2_lt 2075 2097 ltac:(zlia)). zlia.
Qed.

Lemma old_zero_frames (w h : Z) (fps d : Z) (f : float) :
  fps * d = 0 -> frame_size w h = Ok f ->
  nonneg_float (Prim2SF f) -> rank (Prim2SF f) < 2 ^ 2097 ->
  estimate_storage_old_approach w h (PyInt fps) (PyInt d)
  = Ok (Old.Build 0 f 0 0 0).
Proof.
  intros Hz Hf HF HrF.
  pose proof (pow2_lt 2097 2098 ltac:(zlia)) as Htop.
  assert (HiF : is_inf (Prim2SF f) = false)
    by (apply is_inf_rank; [assumption | zlia]).
  rewrite (old_returns w h (PyInt fps) (PyInt d) (PyInt (fps * d)) 0 f 0);
    try reflexivity; [| now rewrite Hz | assumption].
  assert (H0 : (f * 0)%float = 0%float).
  { apply Prim2SF_inj. rewrite Prim2SF_mul.
    change (Prim2SF 0) with (S754_zero false). now apply SFmul_zero_r. }
  assert (H1 : (f * 2 * 0)%float = 0%float).
  { apply Prim2SF_inj. rewrite !Prim2SF_mul, Prim2SF_2.
    change (Prim2SF 0) with (S754_zero false).
    pose proof (nonneg_F2 _ HF) as HF2.
    apply SFmul_zero_r; [assumption |].
    destruct posfin_2 as (H2n & Hi2 & _).
    destruct (rank_finite _ HF HiF) as [_ Hfit].
    destruct (SFmul_fin _ sf_2 HF H2n HiF Hi2) as (_ & Hi & _);
      [| exact Hi].
    rewrite rmul_2 by (assumption || apply rank_nonneg).
    replace (2 ^ 2098) with (2 * 2 ^ 2097)
      by (change 2098 with (1 + 2097); rewrite Z.pow_add_r by zlia;
          reflexivity).
    zlia. }
  rewrite H0, H1. reflexivity.
Qed.

(** X14: for a scenario without frames ([fps * duration = 0]) and a frame of
    positive width and height (and fewer than [2^1000] bytes), the loop body
    of [print_comparison] prints ten lines, the old peak as
    [0.0 MB (0.0 GB)] among them, and then raises [ZeroDivisionError]: the
    first savings figure divides by the old total, which is zero. *)
Theorem report_zero_frames (s : scenario) (out : list string) :
  0 < width s -> 0 < height s -> width s * height s * 3 < 2 ^ 1000 ->
  fps s * duration s = 0 ->
  exists lines,
    report s out = ((out ++ lines)%list, Raise ZeroDivisionError) /\
    List.length lines = 10%nat /\
    nth 2 lines "" = "Total frames: 0" /\
    nth 6 lines "" = "  Peak storage: 0.0 MB (0.0 GB)".
Proof.
  intros Hw Hh Hsmall Hz.
  destruct (frame_size_small _ _ Hw Hh Hsmall) as (f & Hf & HF & HrF).
  pose proof (old_zero_frames _ _ _ _ f Hz Hf HF HrF) as Ho.
  assert (Hx : returns (float_of_int (width s * height s * 3))).
  { apply frame_size_float_of_int. now exists f. }
  destruct Hx as [x Hx].
  assert (H100 : returns (estimate_storage_chunked_approach (width s) (height s)
                            (PyInt (fps s)) (PyInt (duration s)) 100)).
  { apply (chunked_returns _ _ _ _ _ (PyInt (fps s * duration s)) 0 x 100 0);
      try reflexivity; [zlia | now rewrite Hz | assumption]. }
  assert (H50 : returns (estimate_storage_chunked_approach (width s) (height s)
                           (PyInt (fps s)) (PyInt (duration s)) 50)).
  { apply (chunked_returns _ _ _ _ _ (PyInt (fps s * duration s)) 0 x 50 0);
      try reflexivity; [zlia | now rewrite Hz | assumption]. }
  destruct H100 as [n100 H100]. destruct H50 as [n50 H50].
  unfold report, print_chunked, io_bind, eval, print.
  rewrite Ho, H100, H50, !float_div_int_1024.
  cbn [Old.total_peak_mb Old.total_frames Old.frame_size_mb].
  rewrite storage_savings_zero by reflexivity.
  eexists. split; [| split; [| split]].
  - rewrite <- !app_assoc. cbn [app]. reflexivity.
  - reflexivity.
  - reflexivity.
  - reflexivity.
Qed.

(** X14 on a 1080p scenario of zero seconds. *)
Lemma report_zero_frames_witness :
  exists lines,
    report {| name := "empty";
              width := 1920; height := 1080; fps := 30; duration := 0 |} []
    = (lines, Raise ZeroDivisionError) /\
    List.length lines = 10%nat /\
    nth 6 lines "" = "  Peak storage: 0.0 MB (0.0 GB)".
Proof.
  destruct (report_zero_frames
              {| name := "empty";
                 width := 1920; height := 1080; fps := 30; duration := 0 |}
              [] ltac:(cbn; zlia) ltac:(cbn; zlia)
              ltac:(vm_compute; reflexivity) eq_refl)
    as (lines & Hr & Hl & _ & H6).
  exists lines. split; [exact Hr |]. split; [exact Hl | exact H6].
Defined.

(** X15: run on an empty output, [print_comparison] raises nothing and
    prints the 75 lines of [printed_comparison]: the title, and for each of
    the four scenarios the frames, the frame size, the old peak and, for
    chunks of 100 and of 50 frames, the chunked peak and savings of 86.7%. *)
Theorem print_comparison_output :
  print_comparison [] = (printed_comparison, Ok tt).
Proof. vm_compute. reflexivity. Qed.


(** * The maximum, the exceptions and a video without frames *)

(** ** The builtin [max] *)

Lemma SFcompare_some (x y : spec_float) :
  x <> S754_nan -> y <> S754_nan -> exists c, SFcompare x y = Some c.
Proof.
  intros Hx Hy.
  destruct x as [sx | sx | | sx mx ex]; [| | now contradiction Hx |];
    (destruct y as [sy | sy | | sy my ey]; [| | now contradiction Hy |]);
    cbn [SFcompare]; eauto;
    try (destruct sx; eauto; fail); try (destruct sy; eauto; fail);
    destruct sx, sy; eauto.
Qed.

Lemma SFleb_refl (x : spec_float) : x <> S754_nan -> SFleb x x = true.
Proof.
  intros Hx. pose proof (proj2 (SFeqb_refl x) Hx) as H.
  unfold SFeqb in H. unfold SFleb.
  destruct (SFcompare x x) as [[ | | ] |]; try discriminate H; reflexivity.
Qed.

Lemma SFltb_false_leb (x y : spec_float) :
  x <> S754_nan -> y <> S754_nan -> SFltb x y = false -> SFleb y x = true.
Proof.
  intros Hx Hy H. destruct (SFcompare_some x y Hx Hy) as [c Hc].
  unfold SFleb. rewrite SFcompare_antisym, Hc. unfold SFltb in H.
  rewrite Hc in H. destruct c; try discriminate H; reflexivity.
Qed.

Lemma is_nan_false (g : float) : is_nan g = false <-> Prim2SF g <> S754_nan.
Proof.
  pose proof (is_nan_spec g) as H. destruct (is_nan g).
  - split; [discriminate |]. intros Hn. exfalso. apply Hn. now apply H.
  - split; [| reflexivity]. intros _ Hn. apply H in Hn. discriminate Hn.
Qed.

(** [max(a, b)] is one of its arguments; it is at least both when neither
    is a NaN, and it is [a] when one of them is. *)
Lemma py_max_spec (a b : float) :
  (py_max a b = a \/ py_max a b = b) /\
  (is_nan a = false -> is_nan b = false ->
   (a <=? py_max a b)%float = true /\ (b <=? py_max a b)%float = true) /\
  (is_nan a = true \/ is_nan b = true -> py_max a b = a).
Proof.
  unfold py_max. split; [| split].
  - destruct (a <? b)%float; auto.
  - intros Ha Hb. apply is_nan_false in Ha. apply is_nan_false in Hb.
    destruct (a <? b)%float eqn:Hlt; rewrite ltb_spec in Hlt;
      rewrite !leb_spec.
    + split; [now apply SFltb_leb | now apply SFleb_refl].
    + split; [now apply SFleb_refl | now apply SFltb_false_leb].
  - intros H. destruct (a <? b)%float eqn:Hlt; [| reflexivity].
    exfalso. rewrite ltb_spec in Hlt. unfold SFltb in Hlt.
    destruct H as [H | H]; apply is_nan_spec in H; rewrite H in Hlt.
    + discriminate Hlt.
    + destruct (Prim2SF a) as [ | [ | ] | | [ | ] ]; discriminate Hlt.
Qed.

Lemma nonneg_is_nan (g : float) : nonneg_float (Prim2SF g) -> is_nan g = false.
Proof.
  intros H. apply is_nan_false. intros Hn. rewrite Hn in H. exact H.
Qed.

Lemma total_chunks_pos (n cs : Z) : 1 <= cs -> 1 <= n -> 1 <= (n + cs - 1) / cs.
Proof. intros Hcs Hn. apply Z.div_le_lower_bound; zlia. Qed.

(** C2: the record returned by the chunked estimator satisfies the formulas
    [chunk_extracted_mb = frame_size_mb * chunk_size],
    [chunk_sbs_mb = 2 * frame_size_mb * chunk_size],
    [chunk_video_mb = 0.1 * chunk_sbs_mb],
    [peak_chunk_mb = chunk_extracted_mb + chunk_sbs_mb + chunk_video_mb],
    [max_chunk_videos_mb = chunk_video_mb * total_chunks] and
    [final_video_mb = max_chunk_videos_mb] in binary64 arithmetic, and its
    [total_peak_mb] is the larger of [peak_chunk_mb] and
    [max_chunk_videos_mb + final_video_mb]: it is one of the two and at least
    both. Only a NaN escapes the order, and then [total_peak_mb] is
    [peak_chunk_mb]; for positive [width] and [height] and
    [chunk_size >= 1] the peak is no NaN, and with at least one frame the
    assembly is none either. *)
Theorem chunked_total_peak_formula
    (w h : Z) (fps d : num) (cs : Z) (r : Chunked.estimate) :
  estimate_storage_chunked_approach w h fps d cs = Ok r ->
  exists chunkSize totalChunks
         chunkExtractedMb chunkSbsMb chunkVideoMb finalVideoMb assemblyMb
         : float,
    float_of_int cs = Ok chunkSize /\
    float_of_int (Chunked.total_chunks r) = Ok totalChunks /\
    chunkExtractedMb = (Chunked.frame_size_mb r * chunkSize)%float /\
    chunkSbsMb = (2 * Chunked.frame_size_mb r * chunkSize)%float /\
    chunkVideoMb = (0.1 * chunkSbsMb)%float /\
    Chunked.peak_chunk_mb r =
      (chunkExtractedMb + chunkSbsMb + chunkVideoMb)%float /\
    Chunked.max_chunk_videos_mb r = (chunkVideoMb * totalChunks)%float /\
    finalVideoMb = Chunked.max_chunk_videos_mb r /\
    assemblyMb = (Chunked.max_chunk_videos_mb r + finalVideoMb)%float /\
    (Chunked.total_peak_mb r = Chunked.peak_chunk_mb r \/
     Chunked.total_peak_mb r = assemblyMb) /\
    (is_nan (Chunked.peak_chunk_mb r) = false -> is_nan assemblyMb = false ->
     (Chunked.peak_chunk_mb r <=? Chunked.total_peak_mb r)%float = true /\
     (assemblyMb <=? Chunked.total_peak_mb r)%float = true) /\
    (is_nan (Chunked.peak_chunk_mb r) = true \/ is_nan assemblyMb = true ->
     Chunked.total_peak_mb r = Chunked.peak_chunk_mb r) /\
    (0 < w -> 0 < h -> 1 <= cs ->
     is_nan (Chunked.peak_chunk_mb r) = false /\
     (1 <= Chunked.total_frames r -> is_nan assemblyMb = false)).
Proof.
  intros H. pose proof H as H'. apply chunked_Ok in H.
  destruct H as (p & f & c & t & _ & _ & _ & Htc & _ & _ & Hf & Hc & Ht &
                 Hpeak & Hmcv & Htotal).
  exists c, t, (f * c)%float, (f * 2 * c)%float, (f * 2 * c * 0.1)%float,
    (Chunked.max_chunk_videos_mb r),
    (Chunked.max_chunk_videos_mb r + Chunked.max_chunk_videos_mb r)%float.
  rewrite Hf.
  rewrite (fmul_comm 2 f), (fmul_comm 0.1 (f * 2 * c)).
  destruct (py_max_spec (Chunked.peak_chunk_mb r)
              (Chunked.max_chunk_videos_mb r
               + Chunked.max_chunk_videos_mb r)%float) as (Hone & Hup & Hnan).
  rewrite <- Htotal in Hone, Hup, Hnan.
  repeat (split; [assumption || reflexivity |]).
  intros Hw Hh Hcs.
  destruct (chunked_sf w h fps d cs r Hw Hh Hcs H')
    as (f' & c' & _ & Hc' & HF & _ & HC & _ & Hpk & _ & _ & t' & Ht' & _ &
        Hasm).
  split.
  - apply nonneg_is_nan. rewrite Hpk. now apply peak_sf_nonneg.
  - intros Hn. apply nonneg_is_nan. rewrite Hasm.
    apply nonneg_assembly; [assumption | assumption |].
    apply (float_of_int_posfin (Chunked.total_chunks r)); [| assumption].
    rewrite Htc. pose proof (total_chunks_pos _ cs Hcs Hn). zlia.
Qed.

(** C2 on the first scenario with chunks of 100 frames, where the assembly
    is the larger term: 51257.8125 against a chunk peak of 2278.125. *)
Lemma chunked_total_peak_formula_witness :
  exists r,
    estimate_storage_chunked_approach 1920 1080 (PyInt 30) (PyInt 600) 100
      = Ok r /\
    (Chunked.peak_chunk_mb r <? Chunked.total_peak_mb r)%float = true /\
    (Chunked.max_chunk_videos_mb r + Chunked.max_chunk_videos_mb r
     <=? Chunked.total_peak_mb r)%float = true /\
    Chunked.total_peak_mb r = 51257.8125%float.
Proof.
  eexists. split; [vm_compute; reflexivity |].
  split; [vm_compute; reflexivity |]. split; [| vm_compute; reflexivity].
  destruct (chunked_total_peak_formula 1920 1080 (PyInt 30) (PyInt 600) 100
              _ eq_refl)
    as (c & t & ce & csb & cv & fin & asm & _ & _ & _ & _ & _ & _ & _ &
        Hfin & Hasm & _ & Hup & _).
  subst fin asm. exact (proj2 (Hup eq_refl eq_refl)).
Defined.

(** ** The overflows of the chunked estimator *)

Lemma float_of_int_cases (z : Z) :
  returns (float_of_int z) \/ raises (float_of_int z) OverflowError.
Proof.
  destruct (float_of_int z) as [g | e] eqn:H.
  - left. now exists g.
  - right. apply float_of_int_exn in H. now subst e.
Qed.

Lemma int_of_float_OverflowError (g : float) :
  int_of_float g = Raise OverflowError <-> is_infinity g = true.
Proof.
  unfold int_of_float, is_infinity. rewrite eqb_spec, abs_spec.
  destruct (Prim2SF g) as [s | s | | s m e]; cbn [SFabs];
    split; intros H; try discriminate H; reflexivity.
Qed.

(** A product of two numbers raises only when an int meets a float and is
    too large to be converted. *)
Lemma py_mul_OverflowError (a b : num) :
  raises (py_mul a b) OverflowError <->
  (exists x g, a = PyInt x /\ b = PyFloat g /\
               raises (float_of_int x) OverflowError) \/
  (exists f y, a = PyFloat f /\ b = PyInt y /\
               raises (float_of_int y) OverflowError).
Proof.
  unfold raises. split.
  - destruct a as [x | f], b as [y | g]; cbn [py_mul]; intros H;
      try discriminate H.
    + left. exists x, g. repeat split.
      apply bind_Raise in H. destruct H as [H | (v & _ & H)];
        [assumption | discriminate H].
    + right. exists f, y. repeat split.
      apply bind_Raise in H. destruct H as [H | (v & _ & H)];
        [assumption | discriminate H].
  - intros [(x & g & -> & -> & H) | (f & y & -> & -> & H)];
      cbn [py_mul]; rewrite H; reflexivity.
Qed.

Lemma frame_size_OverflowError (w h : Z) :
  raises (frame_size w h) OverflowError <->
  raises (float_of_int (w * h * 3)) OverflowError.
Proof.
  unfold raises. split; intros H.
  - destruct (float_of_int_cases (w * h * 3)) as [Hx | Hx]; [| exact Hx].
    apply frame_size_float_of_int in Hx. destruct Hx as [f Hf].
    rewrite Hf in H. discriminate H.
  - destruct (frame_size w h) as [f | e] eqn:Hf.
    + assert (Hx : returns (float_of_int (w * h * 3)))
        by (apply frame_size_float_of_int; now exists f).
      destruct Hx as [x Hx]. rewrite Hx in H. discriminate H.
    + apply frame_size_exn in Hf. now subst e.
Qed.

(** C8, as stated, fails: with chunk size 100 the estimator raises
    [OverflowError] for the floats [fps = 1e308], [duration_seconds = 10.0],
    whose product is infinite, and for the int [fps = 10 ** 400] with the
    float [duration_seconds = 1e-300], where the product cannot even be
    formed. *)
Lemma chunked_overflow_with_valid_chunk_size :
  1 <= 100 /\
  estimate_storage_chunked_approach 1920 1080 (PyFloat 1e308) (PyFloat 10) 100
  = Raise OverflowError /\
  estimate_storage_chunked_approach 1920 1080 (PyInt (10 ^ 400))
    (PyFloat 1e-300) 100
  = Raise OverflowError.
Proof. split; [lia | split; vm_compute; reflexivity]. Qed.

(** C8, amended: with a chunk size of at least 1 the ceiling division is
    defined and the chunked estimator never raises [ZeroDivisionError]. It
    raises [ValueError] exactly when [fps * duration_seconds] is a NaN. It
    raises [OverflowError] exactly when [fps * duration_seconds] cannot be
    formed because one factor is an int too large to convert and the other
    a float, or the product is an infinite float, or
    [int(fps * duration_seconds)] has a value and one of the ints
    [width * height * 3], [chunk_size] and [total_chunks] is too large to
    convert to a float. In every other case it returns a record. *)
Theorem chunked_never_divides_by_zero
    (w h : Z) (fps d : num) (cs : Z) :
  1 <= cs ->
  (forall n, int_floordiv (n + cs - 1) cs = Ok ((n + cs - 1) / cs)) /\
  ~ raises (estimate_storage_chunked_approach w h fps d cs) ZeroDivisionError /\
  (raises (estimate_storage_chunked_approach w h fps d cs) ValueError <->
   exists g, py_mul fps d = Ok (PyFloat g) /\ is_nan g = true) /\
  (raises (estimate_storage_chunked_approach w h fps d cs) OverflowError <->
   (exists x g, fps = PyInt x /\ d = PyFloat g /\
                raises (float_of_int x) OverflowError) \/
   (exists f y, fps = PyFloat f /\ d = PyInt y /\
                raises (float_of_int y) OverflowError) \/
   (exists g, py_mul fps d = Ok (PyFloat g) /\ is_infinity g = true) \/
   (exists p n, py_mul fps d = Ok p /\ py_int p = Ok n /\
                (raises (float_of_int (w * h * 3)) OverflowError \/
                 raises (float_of_int cs) OverflowError \/
                 raises (float_of_int ((n + cs - 1) / cs)) OverflowError))) /\
  (returns (estimate_storage_chunked_approach w h fps d cs) <->
   exists p n, py_mul fps d = Ok p /\ py_int p = Ok n /\
               returns (float_of_int (w * h * 3)) /\
               returns (float_of_int cs) /\
               returns (float_of_int ((n + cs - 1) / cs))) /\
  (returns (estimate_storage_chunked_approach w h fps d cs) \/
   raises (estimate_storage_chunked_approach w h fps d cs) OverflowError \/
   raises (estimate_storage_chunked_approach w h fps d cs) ValueError).
Proof.
  intros Hcs. assert (Hnz : cs <> 0) by lia.
  split; [| split; [| split; [| split; [| split]]]].
  - intros n. now apply int_floordiv_Ok.
  - intros H. apply (chunked_exn w h fps d cs _ Hnz) in H.
    destruct H; discriminate.
  - rewrite <- total_frames_ValueError. unfold raises. split.
    + intros H. rewrite chunked_bind in H.
      apply bind_Raise in H. destruct H as [H | (n & _ & H)]; [exact H |].
      rewrite int_floordiv_Ok in H by assumption. cbn [bind] in H.
      apply bind_Raise in H. destruct H as [H | (f & _ & H)].
      { apply frame_size_exn in H. discriminate H. }
      apply bind_Raise in H. destruct H as [H | (c & _ & H)].
      { apply float_of_int_exn in H. discriminate H. }
      apply bind_Raise in H. destruct H as [H | (t & _ & H)].
      { apply float_of_int_exn in H. discriminate H. }
      discriminate H.
    + intros H. rewrite chunked_bind, H. reflexivity.
  - rewrite <- or_assoc, <- py_mul_OverflowError. unfold raises. split.
    + intros H. rewrite chunked_bind in H.
      apply bind_Raise in H. destruct H as [H | (n & Hn & H)].
      { apply bind_Raise in H. destruct H as [H | (p & Hp & H)].
        - left. exact H.
        - right. left. destruct p as [z | g]; [discriminate H |].
          exists g. split; [assumption |].
          now apply int_of_float_OverflowError. }
      right. right.
      apply bind_Ok in Hn. destruct Hn as (p & Hp & Hn).
      exists p, n. split; [assumption |]. split; [assumption |].
      rewrite int_floordiv_Ok in H by assumption. cbn [bind] in H.
      apply bind_Raise in H. destruct H as [H | (f & _ & H)].
      { left. now apply frame_size_OverflowError. }
      apply bind_Raise in H. destruct H as [H | (c & _ & H)];
        [right; left; exact H |].
      apply bind_Raise in H. destruct H as [H | (t & _ & H)];
        [right; right; exact H | discriminate H].
    + rewrite chunked_bind.
      intros [H | [(g & Hp & Hg) | (p & n & Hp & Hn & H)]].
      * rewrite H. reflexivity.
      * rewrite Hp. cbn [bind py_int].
        apply int_of_float_OverflowError in Hg. rewrite Hg. reflexivity.
      * rewrite Hp. cbn [bind]. rewrite Hn. cbn [bind].
        rewrite int_floordiv_Ok by assumption. cbn [bind].
        destruct (frame_size w h) as [f | e] eqn:Hf;
          [| apply frame_size_exn in Hf; now subst e].
        cbn [bind].
        destruct (float_of_int cs) as [c | e] eqn:Hc;
          [| apply float_of_int_exn in Hc; now subst e].
        cbn [bind].
        destruct (float_of_int ((n + cs - 1) / cs)) as [t | e] eqn:Ht;
          [| apply float_of_int_exn in Ht; now subst e].
        exfalso. destruct H as [H | [H | H]]; try discriminate H.
        apply frame_size_OverflowError in H. unfold raises in H.
        rewrite Hf in H. discriminate H.
  - split.
    + intros [r H]. apply chunked_Ok in H.
      destruct H as (p & f & c & t & Hp & Hn & _ & Htc & _ & Hf & _ &
                     Hc & Ht & _).
      exists p, (Chunked.total_frames r).
      split; [assumption |]. split; [assumption |]. split; [| split].
      * apply frame_size_float_of_int. now exists f.
      * now exists c.
      * rewrite <- Htc. now exists t.
    + intros (p & n & Hp & Hn & [x Hx] & [c Hc] & [t Ht]).
      now apply (chunked_returns w h fps d cs p n x c t).
  - destruct (estimate_storage_chunked_approach w h fps d cs) as [r | e] eqn:H.
    + left. now exists r.
    + right. destruct (chunked_exn w h fps d cs e Hnz H) as [-> | ->];
        [left | right]; reflexivity.
Qed.

(** The amended C8 on an int too large for the product, and on the first
    scenario. *)
Lemma chunked_never_divides_by_zero_witness :
  raises (estimate_storage_chunked_approach 1920 1080 (PyInt (10 ^ 400))
            (PyFloat 1e-300) 100) OverflowError /\
  returns (estimate_storage_chunked_approach 1920 1080
             (PyInt 30) (PyInt 600) 100).
Proof.
  split.
  - apply (chunked_never_divides_by_zero 1920 1080
             (PyInt (10 ^ 400)) (PyFloat 1e-300) 100 ltac:(lia)).
    left. exists (10 ^ 400), 1e-300%float.
    split; [reflexivity | split; [reflexivity | vm_compute; reflexivity]].
  - apply (chunked_never_divides_by_zero 1920 1080
             (PyInt 30) (PyInt 600) 100 ltac:(lia)).
    exists (PyInt (30 * 600)), (30 * 600).
    split; [reflexivity | split; [reflexivity |]].
    repeat split; eexists; vm_compute; reflexivity.
Defined.

(** ** Half an ulp *)

(** A rounding to nearest moves its argument by at most half a unit of the
    last place, which in the normal range is one part in [2^53]. *)
Lemma nearest_even_half (m k : Z) :
  0 <= k -> 2 * Z.abs (nearest_even m k * 2 ^ k - m) <= 2 ^ k.
Proof.
  intros Hk. unfold nearest_even.
  pose proof (pow2_pos k Hk) as HP.
  pose proof (Z.div_mod m (2 ^ k) ltac:(lia)) as Hdm.
  pose proof (Z.mod_pos_bound m (2 ^ k) HP) as Hm.
  set (P := 2 ^ k) in *. set (q := m / P) in *. set (r := m mod P) in *.
  destruct (Z.compare_spec (2 * r) P) as [He | Hl | Hg];
    [destruct (Z.even q) | |]; lia.
Qed.

Lemma rnd_rel53 (u V : Z) :
  1074 <= u -> 0 < V -> -1074 <= Zdigits2 V - u - 53 ->
  (2 ^ 53 - 1) * V <= 2 ^ 53 * (rnd u V * 2 ^ (u - 1074)) <= (2 ^ 53 + 1) * V.
Proof.
  intros Hu HV Hn. unfold rnd. rewrite fexp64.
  pose proof (Zdigits2_bounds V HV) as [Hlo _].
  set (d := Zdigits2 V) in *.
  replace (Z.max (d - u - 53) (-1074)) with (d - u - 53) by zlia.
  replace (d - u - 53 + u) with (d - 53) by zlia.
  rewrite <- Z.mul_assoc, <- Z.pow_add_r by zlia.
  replace (d - u - 53 + 1074 + (u - 1074)) with (d - 53) by zlia.
  pose proof (nearest_even_half V (d - 53) ltac:(zlia)) as Hh.
  pose proof (pow2_pos (d - 53) ltac:(zlia)) as HP.
  replace (d - 1) with (52 + (d - 53)) in Hlo by zlia.
  rewrite Z.pow_add_r in Hlo by zlia.
  change (2 ^ 52) with 4503599627370496 in Hlo.
  change (2 ^ 53) with 9007199254740992.
  set (Pk := 2 ^ (d - 53)) in *.
  set (n := nearest_even V (d - 53)) in *.
  zlia.
Qed.

Lemma rint_rel53 (z : Z) :
  1 <= z ->
  (2 ^ 53 - 1) * (z * 2 ^ 1074) <= 2 ^ 53 * rint z
  <= (2 ^ 53 + 1) * (z * 2 ^ 1074).
Proof.
  intros Hz. rewrite rint_eq.
  pose proof (pow2_le 52 1074 ltac:(zlia)) as H52.
  pose proof (pow2_pos 1074 ltac:(zlia)) as HP.
  assert (HV : 2 ^ 52 <= z * 2 ^ 1074) by znia.
  assert (H0 : 0 < z * 2 ^ 1074)
    by (change (2 ^ 52) with 4503599627370496 in HV; zlia).
  pose proof (Zdigits2_mono (2 ^ 52) (z * 2 ^ 1074) ltac:(zlia)) as Hd.
  rewrite Zdigits2_pow2 in Hd by zlia.
  pose proof (rnd_rel53 1074 _ ltac:(zlia) H0 ltac:(zlia)) as H.
  change (1074 - 1074) with 0 in H. rewrite Z.pow_0_r, Z.mul_1_r in H.
  exact H.
Qed.

Lemma radd_rel53 (x y : Z) :
  2 ^ 52 <= x + y ->
  (2 ^ 53 - 1) * (x + y) <= 2 ^ 53 * radd x y <= (2 ^ 53 + 1) * (x + y).
Proof.
  intros HV. rewrite radd_eq.
  assert (H0 : 0 < x + y) by (change (2 ^ 52) with 4503599627370496 in HV; zlia).
  pose proof (Zdigits2_mono (2 ^ 52) (x + y) ltac:(zlia)) as Hd.
  rewrite Zdigits2_pow2 in Hd by zlia.
  pose proof (rnd_rel53 1074 _ ltac:(zlia) H0 ltac:(zlia)) as H.
  change (1074 - 1074) with 0 in H. rewrite Z.pow_0_r, Z.mul_1_r in H.
  exact H.
Qed.

Lemma rmul_rel53 (x y a b : Z) :
  0 <= a -> 0 <= b -> 1126 <= a + b -> 2 ^ a <= x -> 2 ^ b <= y ->
  (2 ^ 53 - 1) * (x * y) <= 2 ^ 53 * (rmul x y * 2 ^ 1074)
  <= (2 ^ 53 + 1) * (x * y).
Proof.
  intros Ha Hb Hab Hx Hy. rewrite rmul_eq.
  pose proof (mul_pow2_lower x y a b Ha Hb Hx Hy) as Hxy.
  pose proof (pow2_le 1126 (a + b) ltac:(zlia)) as Hle.
  pose proof (pow2_pos 1126 ltac:(zlia)) as HP.
  assert (H0 : 0 < x * y) by zlia.
  pose proof (Zdigits2_mono (2 ^ 1126) (x * y) ltac:(zlia)) as Hd.
  rewrite Zdigits2_pow2 in Hd by zlia.
  exact (rnd_rel53 2148 (x * y) ltac:(zlia) H0 ltac:(zlia)).
Qed.

Lemma units_0_1_upper53 :
  2 ^ 53 * (10 * units sf_0_1) <= (2 ^ 53 + 1) * 2 ^ 1074.
Proof.
  cbn [units sf_0_1]. change (-56 + 1074) with 1018.
  replace (2 ^ 1074) with (2 ^ 56 * 2 ^ 1018)
    by (rewrite <- Z.pow_add_r by zlia; reflexivity).
  pose proof (pow2_pos 1018 ltac:(zlia)) as HP.
  change (2 ^ 53) with 9007199254740992.
  change (2 ^ 56) with 72057594037927936. znia.
Qed.

(** ** The chunk peak against [3.2 * frame_size_mb * chunk_size] *)

(** The five roundings of [f * c + f * 2 * c + f * 2 * c * 0.1], the
    conversion of the chunk size and the rounding of the literal [0.1] keep
    the peak within one part in [2^50] of the exact [3.2 * f * c]. *)
Lemma peak_rank_rel (f c : Z) :
  2 ^ 1054 <= f -> 1 <= c ->
  2 ^ 50 * Z.abs (10 * peak_rank f (rint c) - 32 * (f * c)) <= 32 * (f * c).
Proof.
  intros Hf Hc.
  rewrite peak_rank_eq, video_rank_eq.
  pose proof (rint_lower c Hc) as HC_lo.
  pose proof (rint_rel53 c Hc) as [HC1 HC2].
  set (C := rint c) in *.
  pose proof (pow2_pos 1074 ltac:(zlia)) as Hq.
  pose proof (pow2_pos 1054 ltac:(zlia)) as Hq'.
  pose proof (pow2_le 52 1054 ltac:(zlia)) as H52.
  change (2 ^ 52) with 4503599627370496 in H52.
  (* the extracted frames *)
  pose proof (rmul_lower f C 1054 1074 ltac:(zlia) ltac:(zlia) ltac:(zlia)
                Hf HC_lo) as Ha_lo.
  change (1054 + 1074 - 1074) with 1054 in Ha_lo.
  pose proof (rmul_rel53 f C 1054 1074 ltac:(zlia) ltac:(zlia) ltac:(zlia)
                Hf HC_lo) as [Ha1 Ha2].
  rewrite (rmul_double f C 1054 1074) by (assumption || zlia).
  set (a := rmul f C) in *.
  assert (HfC1 : f * ((2 ^ 53 - 1) * (c * 2 ^ 1074)) <= f * (2 ^ 53 * C))
    by (apply Z.mul_le_mono_nonneg_l; zlia).
  assert (HfC2 : f * (2 ^ 53 * C) <= f * ((2 ^ 53 + 1) * (c * 2 ^ 1074)))
    by (apply Z.mul_le_mono_nonneg_l; zlia).
  change (2 ^ 53) with 9007199254740992 in *.
  assert (HA1 : (9007199254740992 - 1) * (9007199254740992 - 1) * (f * c)
                <= 9007199254740992 * 9007199254740992 * a).
  { apply (Z.mul_le_mono_pos_r _ _ (2 ^ 1074) Hq). zlia. }
  assert (HA2 : 9007199254740992 * 9007199254740992 * a
                <= (9007199254740992 + 1) * (9007199254740992 + 1) * (f * c)).
  { apply (Z.mul_le_mono_pos_r _ _ (2 ^ 1074) Hq). zlia. }
  clear HfC1 HfC2 Ha1 Ha2 HC1 HC2.
  (* the chunk video *)
  destruct units_0_1_bounds as [Hu_lo _].
  pose proof units_0_1_lower as Hu1. pose proof units_0_1_upper53 as Hu2.
  change (2 ^ 53) with 9007199254740992 in Hu2.
  assert (Hb_lo : 2 ^ 1054 <= 2 * a) by zlia.
  pose proof (rmul_rel53 (2 * a) (units sf_0_1) 1054 1070 ltac:(zlia)
                ltac:(zlia) ltac:(zlia) Hb_lo Hu_lo) as [Hv1 Hv2].
  change (2 ^ 53) with 9007199254740992 in Hv1, Hv2.
  set (U := units sf_0_1) in *.
  set (v := rmul (2 * a) U) in *.
  assert (HbU1 : 2 * a * 2 ^ 1074 <= 2 * a * (10 * U))
    by (apply Z.mul_le_mono_nonneg_l; zlia).
  assert (HbU2 : 2 * a * (9007199254740992 * (10 * U))
                 <= 2 * a * ((9007199254740992 + 1) * 2 ^ 1074))
    by (apply Z.mul_le_mono_nonneg_l; zlia).
  assert (HV1 : (9007199254740992 - 1) * (2 * a)
                <= 10 * 9007199254740992 * v).
  { apply (Z.mul_le_mono_pos_r _ _ (2 ^ 1074) Hq). zlia. }
  assert (HV2 : 10 * 9007199254740992 * 9007199254740992 * v
                <= (9007199254740992 + 1) * (9007199254740992 + 1) * (2 * a)).
  { apply (Z.mul_le_mono_pos_r _ _ (2 ^ 1074) Hq). zlia. }
  clear HbU1 HbU2 Hv1 Hv2 Hu1 Hu2 Hu_lo.
  (* the two sums *)
  pose proof (radd_rel53 a (2 * a) ltac:(zlia)) as [Hs1 Hs2].
  change (2 ^ 53) with 9007199254740992 in Hs1, Hs2.
  set (s := radd a (2 * a)) in *.
  assert (Hv0 : 0 <= v) by zlia.
  pose proof (radd_rel53 s v ltac:(zlia)) as [Hp1 Hp2].
  change (2 ^ 53) with 9007199254740992 in Hp1, Hp2.
  set (p := radd s v) in *.
  change (2 ^ 50) with 1125899906842624.
  assert (HX : 0 <= f * c) by (apply Z.mul_nonneg_nonneg; zlia).
  set (X := f * c) in *.
  clearbody a v s p X C U. clear - HA1 HA2 HV1 HV2 Hs1 Hs2 Hp1 Hp2 HX.
  lia.
Qed.

(** ** Ranks as rationals *)

(** The exact value of a finite nonnegative float is its rank over
    [2^1074]. *)
Lemma SF2Q_rank (x : spec_float) :
  nonneg_float x -> is_inf x = false ->
  exists q, SF2Q x = Some q /\ Qnum q * 2 ^ 1074 = rank x * Zpos (Qden q).
Proof.
  intros Hx Hi.
  destruct x as [s | s | | s m e]; cbn [nonneg_float] in Hx;
    [| discriminate Hi | contradiction |].
  - eexists. split; [reflexivity |]. reflexivity.
  - destruct Hx as [-> Hb]. apply bounded_spec in Hb. destruct Hb as [He _].
    assert (Hlo : -1074 <= e) by zlia.
    cbn [SF2Q rank units]. eexists. split; [reflexivity |].
    destruct e as [ | p | p]; cbn [Qnum Qden].
    + rewrite Z.add_0_l. zlia.
    + rewrite Pos2Z.inj_mul, Pos2Z.inj_pow, Z.pow_add_r by zlia. zlia.
    + rewrite Pos2Z.inj_pow.
      replace (2 ^ 1074) with (2 ^ (Zneg p + 1074) * 2 ^ Zpos p)
        by (rewrite <- Z.pow_add_r by zlia; f_equal; zlia).
      set (A := 2 ^ (Zneg p + 1074)). set (B := 2 ^ Zpos p). zlia.
Qed.

Lemma rel_bound_Q (qt qf : Q) (P F c : Z) :
  Qnum qt * 2 ^ 1074 = P * Zpos (Qden qt) ->
  Qnum qf * 2 ^ 1074 = F * Zpos (Qden qf) ->
  2 ^ 50 * Z.abs (10 * P - 32 * (F * c)) <= 32 * (F * c) ->
  (Qabs (qt - 3.2 * qf * inject_Z c) <= 3.2 * qf * inject_Z c * (1 # 2 ^ 50))%Q.
Proof.
  intros Ht Hf H.
  pose proof (pow2_pos 1074 ltac:(zlia)) as Hq.
  destruct qt as [nt dt], qf as [nf df]. cbn [Qnum Qden] in Ht, Hf.
  apply Qabs_Qle_condition.
  unfold Qle, Qminus, Qplus, Qopp, Qmult, inject_Z. cbn [Qnum Qden].
  rewrite !Pos2Z.inj_mul.
  change (Z.pos (2 ^ 50)) with 1125899906842624.
  change (2 ^ 50) with 1125899906842624 in H.
  pose proof (Pos2Z.is_pos dt) as HA. pose proof (Pos2Z.is_pos df) as HB.
  set (A := Z.pos dt) in *. set (B := Z.pos df) in *.
  set (q := 2 ^ 1074) in *. clearbody q A B.
  set (K := 10 * A * B * B).
  assert (HK : 0 <= K) by (unfold K; repeat apply Z.mul_nonneg_nonneg; lia).
  assert (E1 : (nt * (10 * B * 1) + - (32 * nf * c) * A)
               * (10 * B * 1 * 1125899906842624) * q
               = K * (1125899906842624 * (10 * P - 32 * (F * c)))).
  { transitivity ((nt * q * (10 * B) - 32 * (nf * q) * c * A)
                  * (10 * B * 1125899906842624)); [ring |].
    rewrite Ht, Hf. unfold K. ring. }
  assert (E2 : 32 * nf * c * 1 * (A * (10 * B * 1)) * q
               = K * (32 * (F * c))).
  { transitivity (32 * (nf * q) * c * A * 10 * B); [ring |].
    rewrite Hf. unfold K. ring. }
  split; apply (Z.mul_le_mono_pos_r _ _ q Hq).
  - rewrite E1, !Z.mul_opp_l, E2, <- Z.mul_opp_r.
    apply Z.mul_le_mono_nonneg_l; lia.
  - rewrite E1, E2. apply Z.mul_le_mono_nonneg_l; lia.
Qed.

(** ** A video without frames *)

Lemma nonneg_inf (x : spec_float) :
  nonneg_float x -> is_inf x = true -> x = S754_infinity false.
Proof.
  destruct x as [s | s | | s m e]; cbn [nonneg_float is_inf]; intros Hx Hi;
    try discriminate Hi.
  now subst s.
Qed.

(** C10, as stated, fails twice.  For a 1024x768 frame, chunks of 30 and
    zero frames, [total_peak_mb] differs from [3.2 * frame_size_mb * 30]
    however the product is bracketed: the sum of three rounded terms is not
    the rounded product.  And for a frame so large that
    [width * height * 3 * 1.2] overflows, [max_chunk_videos_mb] is the NaN
    [inf * 0], not 0, and so is the old [total_peak_mb]. *)
Lemma zero_frames_peak_is_not_3_2_f_c :
  (exists r,
     estimate_storage_chunked_approach 1024 768 (PyFloat 0.5) (PyInt 1) 30
       = Ok r /\
     Chunked.total_frames r = 0 /\
     (Chunked.total_peak_mb r =? 3.2 * Chunked.frame_size_mb r * 30)%float
     = false /\
     (Chunked.total_peak_mb r =? 3.2 * (Chunked.frame_size_mb r * 30))%float
     = false) /\
  (exists r o,
     estimate_storage_chunked_approach (5 * 10 ^ 307) 1
       (PyFloat 0.5) (PyInt 1) 100 = Ok r /\
     estimate_storage_old_approach (5 * 10 ^ 307) 1
       (PyFloat 0.5) (PyInt 1) = Ok o /\
     Chunked.total_frames r = 0 /\
     is_nan (Chunked.max_chunk_videos_mb r) = true /\
     is_nan (Old.total_peak_mb o) = true).
Proof.
  split.
  - eexists. split; [vm_compute; reflexivity |].
    repeat split; vm_compute; reflexivity.
  - eexists. eexists.
    split; [vm_compute; reflexivity |].
    split; [vm_compute; reflexivity |].
    repeat split; vm_compute; reflexivity.
Qed.

(** C10, amended: when [total_frames] is 0, for positive [width], [height]
    and [chunk_size], the chunked estimator returns [total_chunks = 0] and a
    strictly positive [total_peak_mb = peak_chunk_mb], the binary64 sum
    [f * c + f * 2 * c + f * 2 * c * 0.1]. That sum is finite or
    [+infinity]; when finite, its exact value is within one part in [2^50]
    of the exact product [3.2 * frame_size_mb * chunk_size]. The old
    estimator returns for the same profile. [max_chunk_videos_mb] is a NaN
    exactly when the chunk video [f * 2 * c * 0.1] overflows to infinity;
    otherwise it is 0 and so is the old [total_peak_mb]. The old
    [total_peak_mb] is a NaN exactly when [f * 2] overflows to infinity,
    and 0 otherwise. *)
Theorem zero_frames_estimates
    (w h : Z) (fps d : num) (cs : Z) (r : Chunked.estimate) :
  0 < w -> 0 < h -> 1 <= cs ->
  estimate_storage_chunked_approach w h fps d cs = Ok r ->
  Chunked.total_frames r = 0 ->
  Chunked.total_chunks r = 0 /\
  Chunked.total_peak_mb r = Chunked.peak_chunk_mb r /\
  (0 <? Chunked.total_peak_mb r)%float = true /\
  (exists c, float_of_int cs = Ok c /\
             Chunked.peak_chunk_mb r
             = (Chunked.frame_size_mb r * c
                + Chunked.frame_size_mb r * 2 * c
                + Chunked.frame_size_mb r * 2 * c * 0.1)%float /\
             (is_nan (Chunked.max_chunk_videos_mb r) = true <->
              (Chunked.frame_size_mb r * 2 * c * 0.1)%float = infinity)) /\
  ((Chunked.peak_chunk_mb r <? infinity)%float = true \/
   Chunked.peak_chunk_mb r = infinity) /\
  ((Chunked.peak_chunk_mb r <? infinity)%float = true ->
   exists qf qt,
     Q_of_float (Chunked.frame_size_mb r) = Some qf /\
     Q_of_float (Chunked.total_peak_mb r) = Some qt /\
     (Qabs (qt - 3.2 * qf * inject_Z cs)
      <= 3.2 * qf * inject_Z cs * (1 # 2 ^ 50))%Q) /\
  exists o, estimate_storage_old_approach w h fps d = Ok o /\
            (is_nan (Chunked.max_chunk_videos_mb r) = false ->
             Chunked.max_chunk_videos_mb r = 0%float /\
             Old.total_peak_mb o = 0%float) /\
            (is_nan (Old.total_peak_mb o) = false ->
             Old.total_peak_mb o = 0%float) /\
            (is_nan (Old.total_peak_mb o) = true <->
             (Chunked.frame_size_mb r * 2)%float = infinity).
Proof.
  intros Hw Hh Hcs H Hn0.
  apply chunked_Ok in H.
  destruct H as (p & f & c & t & Hp & Hn & _ & Htc & _ & Hf & Hfs &
                 Hc & Ht & Hpk & Hmcv & Htot).
  rewrite Hn0 in Hn, Htc.
  assert (Htc0 : Chunked.total_chunks r = 0).
  { rewrite Htc. apply Z.div_small. zlia. }
  rewrite Htc0 in Ht. rewrite float_of_int_0 in Ht. apply Ok_inj in Ht.
  subst t.
  destruct (frame_size_nonneg w h f Hw Hh Hf) as [HF HrF].
  pose proof (frame_size_rank_lower w h f Hw Hh Hf) as HF_lo.
  pose proof (float_of_int_posfin cs c ltac:(zlia) Hc) as HC.
  destruct (float_of_int_pos cs c ltac:(zlia) Hc) as (_ & _ & HrC & HC1).
  rewrite <- rint_eq in HrC.
  pose proof posfin_2 as H2. pose proof posfin_0_1 as H01.
  set (F := Prim2SF f) in *. set (C := Prim2SF c) in *.
  pose proof (nonneg_F2 F HF) as HF2.
  pose proof (nonneg_sbs F C HF HC) as Hb.
  pose proof (nonneg_video F C HF HC) as Hv.
  pose proof (peak_sf_nonneg F C HF HC) as HP.
  destruct (peak_sf_pos F C HF HrF HC HC1) as [_ Hpos].
  assert (HV : Prim2SF (f * 2 * c * 0.1) = video_sf F C).
  { unfold video_sf. now rewrite !Prim2SF_mul, Prim2SF_2, Prim2SF_0_1. }
  assert (HM : Prim2SF (Chunked.max_chunk_videos_mb r)
               = SFmul prec emax (video_sf F C) (S754_zero false)).
  { rewrite Hmcv, Prim2SF_mul, HV. reflexivity. }
  (* the chunk video decides between 0 and NaN *)
  assert (Hfin : is_inf (video_sf F C) = false ->
                 Chunked.max_chunk_videos_mb r = 0%float).
  { intros Hi. apply Prim2SF_inj. rewrite HM.
    change (Prim2SF 0) with (S754_zero false). now apply SFmul_zero_r. }
  assert (Hinf : is_inf (video_sf F C) = true ->
                 is_nan (Chunked.max_chunk_videos_mb r) = true).
  { intros Hi. apply is_nan_spec. rewrite HM.
    rewrite (nonneg_inf _ Hv Hi). reflexivity. }
  assert (Htot' : Chunked.total_peak_mb r = Chunked.peak_chunk_mb r).
  { destruct (is_inf (video_sf F C)) eqn:Hi.
    - rewrite Htot.
      apply (py_max_spec (Chunked.peak_chunk_mb r)). right.
      apply is_nan_spec. rewrite Prim2SF_add.
      apply is_nan_spec in Hinf; [| reflexivity]. rewrite Hinf. reflexivity.
    - rewrite Htot, (Hfin eq_refl). change (0 + 0)%float with 0%float.
      unfold py_max. rewrite ltb_spec, Hpk, Prim2SF_peak.
      change (Prim2SF 0) with (S754_zero false).
      now rewrite SFltb_nonneg_zero. }
  split; [assumption |]. split; [assumption |].
  split; [| split; [| split; [| split]]].
  - rewrite Htot', Hpk, ltb_spec, Prim2SF_peak.
    change (Prim2SF 0) with (S754_zero false).
    now apply SFltb_zero_pos.
  - exists c. rewrite Hfs. split; [assumption |]. split; [assumption |].
    split.
    + intros Hnan. destruct (is_inf (video_sf F C)) eqn:Hi.
      * apply Prim2SF_inj. rewrite HV. now apply nonneg_inf.
      * rewrite (Hfin eq_refl) in Hnan. discriminate Hnan.
    + intros E. apply Hinf. rewrite <- HV, E. reflexivity.
  - destruct (is_inf (peak_sf F C)) eqn:Hi.
    + right. apply Prim2SF_inj. rewrite Hpk, Prim2SF_peak.
      now apply nonneg_inf.
    + left. rewrite ltb_spec, Hpk, Prim2SF_peak.
      change (Prim2SF infinity) with (S754_infinity false).
      apply SFltb_rank_lt; [assumption | reflexivity |].
      now apply rank_finite.
  - intros Hlt. rewrite Hpk, ltb_spec, Prim2SF_peak in Hlt.
    change (Prim2SF infinity) with (S754_infinity false) in Hlt.
    apply (SFltb_inf_not_inf _ HP) in Hlt.
    pose proof (peak_rank_fin F C HF HC Hlt) as HrP.
    rewrite HrC in HrP.
    assert (HiF : is_inf F = false).
    { pose proof Hlt as Hi. unfold peak_sf in Hi.
      apply SFadd_not_inf in Hi;
        [| now apply nonneg_old_total | assumption].
      destruct Hi as [_ Hiv].
      pose proof (SFmul_not_inf _ _ Hb H01 Hiv) as Hib.
      pose proof (SFmul_not_inf _ _ HF2 HC Hib) as HiF2.
      exact (SFmul_not_inf _ _ HF H2 HiF2). }
    destruct (SF2Q_rank F HF HiF) as (qf & Hqf & Eqf).
    destruct (SF2Q_rank (peak_sf F C) HP Hlt) as (qt & Hqt & Eqt).
    exists qf, qt. split; [now rewrite Hfs |]. split.
    + rewrite Htot', Hpk. unfold Q_of_float. now rewrite Prim2SF_peak.
    + apply (rel_bound_Q qt qf (rank (peak_sf F C)) (rank F) cs);
        [assumption | assumption |].
      rewrite HrP. now apply peak_rank_rel.
  - assert (HO : Prim2SF (f * 0 + f * 2 * 0)
                 = SFadd prec emax (SFmul prec emax F (S754_zero false))
                     (SFmul prec emax (SFmul prec emax F sf_2)
                        (S754_zero false)))
      by (now rewrite Prim2SF_add, !Prim2SF_mul, Prim2SF_2).
    assert (HO0 : is_inf (SFmul prec emax F sf_2) = false ->
                  (f * 0 + f * 2 * 0)%float = 0%float).
    { intros HiF2. pose proof (SFmul_not_inf _ _ HF H2 HiF2) as HiF.
      apply Prim2SF_inj. rewrite HO.
      rewrite !SFmul_zero_r by assumption. reflexivity. }
    assert (HOn : is_inf (SFmul prec emax F sf_2) = true ->
                  is_nan (f * 0 + f * 2 * 0) = true).
    { intros HiF2. apply is_nan_spec. rewrite HO.
      rewrite (nonneg_inf _ HF2 HiF2).
      now destruct (SFmul prec emax F (S754_zero false)). }
    eexists. split.
    { apply (old_returns w h fps d p 0 f 0%float); auto using float_of_int_0. }
    cbn [Old.total_peak_mb]. rewrite Hfs. split; [| split; [| split]].
    + intros Hnan.
      assert (Hiv : is_inf (video_sf F C) = false).
      { destruct (is_inf (video_sf F C)) eqn:Hi; [| reflexivity].
        rewrite (Hinf eq_refl) in Hnan. discriminate Hnan. }
      split; [now apply Hfin |].
      pose proof (SFmul_not_inf _ _ Hb H01 Hiv) as Hib.
      pose proof (SFmul_not_inf _ _ HF2 HC Hib) as HiF2.
      now apply HO0.
    + intros Hnan. destruct (is_inf (SFmul prec emax F sf_2)) eqn:Hi.
      * rewrite (HOn eq_refl) in Hnan. discriminate Hnan.
      * now apply HO0.
    + intros Hnan. destruct (is_inf (SFmul prec emax F sf_2)) eqn:Hi.
      * apply Prim2SF_inj. rewrite Prim2SF_mul, Prim2SF_2.
        now apply nonneg_inf.
      * rewrite (HO0 eq_refl) in Hnan. discriminate Hnan.
    + intros E. apply HOn.
      assert (E' : Prim2SF (f * 2) = S754_infinity false)
        by (rewrite E; reflexivity).
      rewrite Prim2SF_mul, Prim2SF_2 in E'.
      fold F in E'. rewrite E'. reflexivity.
Qed.

(** The amended C10 on the 1024x768 input of the counterexample, and on a
    frame so large that the chunk peak overflows while the chunk video does
    not. *)
Lemma zero_frames_estimates_witness :
  (exists r,
     estimate_storage_chunked_approach 1024 768 (PyFloat 0.5) (PyInt 1) 30
       = Ok r /\
     Chunked.total_chunks r = 0 /\
     (0 <? Chunked.total_peak_mb r)%float = true /\
     exists qf qt,
       Q_of_float (Chunked.frame_size_mb r) = Some qf /\
       Q_of_float (Chunked.total_peak_mb r) = Some qt /\
       (Qabs (qt - 3.2 * qf * inject_Z 30)
        <= 3.2 * qf * inject_Z 30 * (1 # 2 ^ 50))%Q) /\
  (exists r o,
     estimate_storage_chunked_approach (204 * 10 ^ 304) 1
       (PyFloat 0.5) (PyInt 1) (10 ^ 7) = Ok r /\
     estimate_storage_old_approach (204 * 10 ^ 304) 1
       (PyFloat 0.5) (PyInt 1) = Ok o /\
     Chunked.total_peak_mb r = infinity /\
     Chunked.max_chunk_videos_mb r = 0%float /\
     Old.total_peak_mb o = 0%float).
Proof.
  split.
  - assert (Hr : exists r,
              estimate_storage_chunked_approach 1024 768
                (PyFloat 0.5) (PyInt 1) 30 = Ok r /\
              Chunked.total_frames r = 0 /\
              (Chunked.peak_chunk_mb r <? infinity)%float = true)
      by (eexists; split; [| split]; vm_compute; reflexivity).
    destruct Hr as (r & Hr & Hn & Hlt).
    destruct (zero_frames_estimates 1024 768 (PyFloat 0.5) (PyInt 1) 30 r
                ltac:(lia) ltac:(lia) ltac:(lia) Hr Hn)
      as (Htc & _ & Hpos & _ & _ & Htol & _).
    exists r. split; [exact Hr |]. split; [exact Htc |].
    split; [exact Hpos | exact (Htol Hlt)].
  - assert (Hr : exists r,
              estimate_storage_chunked_approach (204 * 10 ^ 304) 1
                (PyFloat 0.5) (PyInt 1) (10 ^ 7) = Ok r /\
              Chunked.total_frames r = 0 /\
              is_nan (Chunked.max_chunk_videos_mb r) = false /\
              Chunked.total_peak_mb r = infinity)
      by (eexists; split; [| split; [| split]]; vm_compute; reflexivity).
    destruct Hr as (r & Hr & Hn & Hnan & Hinf).
    destruct (zero_frames_estimates (204 * 10 ^ 304) 1 (PyFloat 0.5) (PyInt 1)
                (10 ^ 7) r ltac:(vm_compute; reflexivity)
                ltac:(lia) ltac:(vm_compute; discriminate) Hr Hn)
      as (_ & _ & _ & _ & _ & _ & o & Ho & Hz & _).
    exists r, o. split; [exact Hr |]. split; [exact Ho |].
    split; [exact Hinf | exact (Hz Hnan)].
Defined.
